(** * s3-upload-mcp-server: batch orchestration, runners, key derivation

    A shallow embedding of [s3_upload_mcp] (tools.py, s3_client.py,
    image_processor.py, models.py) and the properties of its batch
    pipeline.  Python values are modelled as follows:

    - [str] is [string]; a character is an 8-bit code point (the Latin-1
      range of Unicode), so [isalnum], [isspace] and [lower] are the
      restrictions of Python's to that range;
    - [int] is [Z]; a finite [float] is the rational it denotes, kept in
      lowest terms in [Q], and every float operation rounds its exact
      result to a 53-bit significand (round-half-even), which is IEEE
      binary64 away from overflow and underflow;
    - a [dict] with optional keys is a record with [option] fields,
      [d.get(k, v)] is a default and [d[k]] raises [KeyError] on [None];
    - an exception is a value of [exn]; a coroutine that is awaited
      returns, raises, or never completes ([outcome]);
    - the file system, the codec, the storage backend and the clock are
      parameters ([World]). *)

From Stdlib Require Import ZArith QArith List String Ascii Bool Lia Lqa DecimalString.
Import ListNotations.
Open Scope string_scope.
Open Scope Z_scope.

(** ** Python runtime *)

(** The part of [e.response] of a [botocore] [ClientError] that a handler
    reads: the entry ['Error'] when the response has one, and in it the
    entry ['Message'] when it has one. *)
Definition error_response : Type := option (option string).

Inductive exn : Type :=
| ValueError (msg : string)
| KeyError (key : string)
| IndexError (msg : string)
| ZeroDivisionError (msg : string)
| OSError (msg : string)
| ClientError (text : string) (response : error_response)
| Exception (msg : string).

(** [str(e)]: a [KeyError] prints the repr of its key. *)
Definition str_exn (e : exn) : string :=
  match e with
  | ValueError m | IndexError m | ZeroDivisionError m | OSError m | Exception m => m
  | KeyError k => "'" ++ k ++ "'"
  | ClientError t _ => t
  end.

(** What a synchronous call produces. *)
Definition result (A : Type) : Type := (exn + A)%type.

(** What awaiting a coroutine produces. *)
Inductive outcome (A : Type) : Type :=
| Returns (a : A)
| Raises (e : exn)
| Hangs.
Arguments Returns {A} a.
Arguments Raises {A} e.
Arguments Hangs {A}.

Definition bind {A B : Type} (m : outcome A) (k : A -> outcome B) : outcome B :=
  match m with
  | Returns a => k a
  | Raises e => Raises e
  | Hangs => Hangs
  end.

Definition lift {A : Type} (r : result A) : outcome A :=
  match r with
  | inl e => Raises e
  | inr a => Returns a
  end.

(** [try: m  except Exception as e: h e] *)
Definition try_except {A : Type} (m : outcome A) (h : exn -> outcome A) : outcome A :=
  match m with
  | Raises e => h e
  | other => other
  end.

Notation "x <- m ;; k" := (bind m (fun x => k))
  (at level 61, m at next level, right associativity).

(** [d[k]] on an optional key. *)
Definition getitem {A : Type} (k : string) (v : option A) : result A :=
  match v with
  | Some a => inr a
  | None => inl (KeyError k)
  end.

(** [d.get(k, dflt)] *)
Definition get_default {A : Type} (v : option A) (dflt : A) : A :=
  match v with
  | Some a => a
  | None => dflt
  end.

(** [l.append(x)] *)
Definition append {A : Type} (l : list A) (x : A) : list A := app l [x].

(** [str(i)] for an int. *)
Definition str_int (i : Z) : string := NilZero.string_of_int (Z.to_int i).

(** ** Characters and strings *)

Definition code (c : ascii) : Z := Z.of_nat (nat_of_ascii c).

Definition in_range (lo hi : Z) (c : ascii) : bool :=
  (lo <=? code c) && (code c <=? hi).

(** [c.isalnum()]: letters, decimal digits and the numeric characters of
    the Latin-1 range. *)
Definition isalnum (c : ascii) : bool :=
  in_range 48 57 c || in_range 65 90 c || in_range 97 122 c
  || (code c =? 170) || (code c =? 178) || (code c =? 179) || (code c =? 181)
  || (code c =? 185) || (code c =? 186) || in_range 188 190 c
  || in_range 192 214 c || in_range 216 246 c || in_range 248 255 c.

(** [c.isspace()] *)
Definition isspace (c : ascii) : bool :=
  in_range 9 13 c || in_range 28 32 c || (code c =? 133) || (code c =? 160).

Definition lower_char (c : ascii) : ascii :=
  if in_range 65 90 c || (in_range 192 222 c && negb (code c =? 215))
  then ascii_of_nat (nat_of_ascii c + 32)
  else c.

Fixpoint lower (s : string) : string :=
  match s with
  | EmptyString => EmptyString
  | String c r => String (lower_char c) (lower r)
  end.

(** ["".join(c for c in s if f c)] *)
Fixpoint sfilter (f : ascii -> bool) (s : string) : string :=
  match s with
  | EmptyString => EmptyString
  | String c r => if f c then String c (sfilter f r) else sfilter f r
  end.

Fixpoint sall (f : ascii -> bool) (s : string) : bool :=
  match s with
  | EmptyString => true
  | String c r => f c && sall f r
  end.

(** [s.rstrip(...)]: drop the longest suffix of characters satisfying [p]. *)
Fixpoint rstrip_by (p : ascii -> bool) (s : string) : string :=
  match s with
  | EmptyString => EmptyString
  | String c r =>
      match rstrip_by p r with
      | EmptyString => if p c then EmptyString else String c EmptyString
      | r' => String c r'
      end
  end.

Fixpoint lstrip_by (p : ascii -> bool) (s : string) : string :=
  match s with
  | EmptyString => EmptyString
  | String c r => if p c then lstrip_by p r else s
  end.

(** [s.strip()] *)
Definition strip (s : string) : string := lstrip_by isspace (rstrip_by isspace s).

(** [s.rstrip()] *)
Definition rstrip (s : string) : string := rstrip_by isspace s.

(** [s.rstrip('/')] *)
Definition rstrip_slash (s : string) : string := rstrip_by (Ascii.eqb "/") s.

(** Truthiness of a [str]. *)
Definition nonempty (s : string) : bool :=
  match s with
  | EmptyString => false
  | _ => true
  end.

Definition len (s : string) : Z := Z.of_nat (String.length s).

(** [s.rfind(c)], [-1] when [c] does not occur. *)
Fixpoint rfind (c : ascii) (s : string) : Z :=
  match s with
  | EmptyString => -1
  | String a r =>
      let k := rfind c r in
      if 0 <=? k then k + 1 else if Ascii.eqb a c then 0 else -1
  end.

(** [s[:i]] and [s[i:]] for [0 <= i]. *)
Definition take (i : Z) (s : string) : string := substring 0 (Z.to_nat i) s.
Definition drop (i : Z) (s : string) : string :=
  substring (Z.to_nat i) (String.length s - Z.to_nat i) s.

(** [s.split(sep)] for a one-character separator. *)
Fixpoint split_on (sep : ascii) (s : string) : list string :=
  match s with
  | EmptyString => [EmptyString]
  | String c r =>
      if Ascii.eqb c sep then EmptyString :: split_on sep r
      else match split_on sep r with
           | h :: t => String c h :: t
           | [] => [String c EmptyString]
           end
  end.

(** ** pathlib and os.path (POSIX flavour) *)

(** The components pathlib keeps: empty and ["."] components are dropped. *)
Definition path_tail (p : string) : list string :=
  filter (fun x => nonempty x && negb (String.eqb x ".")) (split_on "/" p).

(** [Path(p).name] *)
Definition Path_name (p : string) : string := last (path_tail p) EmptyString.

(** [Path(p).suffix] *)
Definition Path_suffix (p : string) : string :=
  let name := Path_name p in
  let i := rfind "." name in
  if (0 <? i) && (i <? len name - 1) then drop i name else EmptyString.

(** [os.path.splitext(p)]: the extension starts at the last dot, provided
    the dot follows the last separator and some character between the two
    is not a dot. *)
Definition splitext (p : string) : string * string :=
  let sepIndex := rfind "/" p in
  let dotIndex := rfind "." p in
  if sepIndex <? dotIndex then
    let between := drop (sepIndex + 1) (take dotIndex p) in
    if sall (Ascii.eqb ".") between then (p, EmptyString)
    else (take dotIndex p, drop dotIndex p)
  else (p, EmptyString).

(** ** datetime *)

Record datetime : Type := mk_datetime {
  year : Z; month : Z; day : Z;
  hour : Z; minute : Z; second : Z;
  microsecond : Z
}.

Definition digit (d : Z) : string :=
  String (ascii_of_nat (48 + Z.to_nat (d mod 10))) EmptyString.

Definition pad2 (n : Z) : string := digit (n / 10) ++ digit n.
Definition pad4 (n : Z) : string := digit (n / 1000) ++ digit (n / 100) ++ pad2 n.
Definition pad6 (n : Z) : string := pad2 (n / 10000) ++ pad4 n.

(** [t.strftime("%Y%m%d_%H%M%S")] *)
Definition strftime_key (t : datetime) : string :=
  pad4 (year t) ++ pad2 (month t) ++ pad2 (day t) ++ "_"
  ++ pad2 (hour t) ++ pad2 (minute t) ++ pad2 (second t).

(** [t.isoformat()] of an aware UTC datetime. *)
Definition isoformat (t : datetime) : string :=
  pad4 (year t) ++ "-" ++ pad2 (month t) ++ "-" ++ pad2 (day t) ++ "T"
  ++ pad2 (hour t) ++ ":" ++ pad2 (minute t) ++ ":" ++ pad2 (second t)
  ++ (if microsecond t =? 0 then "" else "." ++ pad6 (microsecond t))
  ++ "+00:00".

(** Two instants within the same UTC second. *)
Definition same_second (t1 t2 : datetime) : Prop :=
  year t1 = year t2 /\ month t1 = month t2 /\ day t1 = day t2 /\
  hour t1 = hour t2 /\ minute t1 = minute t2 /\ second t1 = second t2.

(** ** s3_client.py: key derivation *)

(** The characters [generate_key] keeps from the base name. *)
Definition key_char (c : ascii) : bool :=
  isalnum c || Ascii.eqb c "-" || Ascii.eqb c "_".

(** [S3Client.generate_key], with the clock reading [now] of the call. *)
Definition generate_key (now : datetime) (file_path : string)
    (folder_prefix : option string) : string :=
  let filename := Path_name file_path in
  let timestamp := strftime_key now in
  let '(name, ext) := splitext filename in
  let safe_name := rstrip (sfilter key_char name) in
  let safe_filename := safe_name ++ "_" ++ timestamp ++ ext in
  match folder_prefix with
  | Some p => if nonempty p then rstrip_slash p ++ "/" ++ safe_filename
              else safe_filename
  | None => safe_filename
  end.

(** ** Floats

    A finite float is the rational it denotes.  [round53] rounds an exact
    rational to the nearest one with a 53-bit significand, ties to the even
    significand; the exponent is unbounded, so the model is binary64 for
    every value between the smallest normal number and the largest one. *)

Definition round_half_even (n d : Z) : Z :=
  let q := n / d in
  let r := n mod d in
  match 2 * r ?= d with
  | Lt => q
  | Gt => q + 1
  | Eq => if Z.even q then q else q + 1
  end.

(** [n / d] for [0 < n] and [0 < d], scaled by [2^-e]. *)
Definition scaled (n d e : Z) : Z * Z :=
  if 0 <=? e then (n, d * 2 ^ e) else (n * 2 ^ (- e), d).

Definition round53_pos (n d : Z) : Q :=
  let e0 := Z.log2 n - Z.log2 d - 53 in
  let e := if 2 ^ 53 <=? fst (scaled n d e0) / snd (scaled n d e0)
           then e0 + 1 else e0 in
  let m := round_half_even (fst (scaled n d e)) (snd (scaled n d e)) in
  Qred (if 0 <=? e then Qmake (m * 2 ^ e) 1 else Qmake m (Z.to_pos (2 ^ (- e)))).

Definition round53 (q : Q) : Q :=
  match Qnum q with
  | Z0 => Qmake 0 1
  | Zpos n => round53_pos (Zpos n) (Zpos (Qden q))
  | Zneg n => Qopp (round53_pos (Zpos n) (Zpos (Qden q)))
  end.

(** [float(n)] *)
Definition float_of_int (n : Z) : Q := round53 (inject_Z n).

(** [a / b] on ints: the correctly rounded quotient. *)
Definition int_truediv (a b : Z) : result Q :=
  if b =? 0 then inl (ZeroDivisionError "division by zero")
  else inr (round53 (Qdiv (inject_Z a) (inject_Z b))).

Definition float_mul (x y : Q) : Q := round53 (Qmult x y).
Definition float_sub (x y : Q) : Q := round53 (Qminus x y).

(** [min(x, y)]: the first argument unless the second is smaller. *)
Definition float_min (x y : Q) : Q := if Qle_bool x y then x else y.

(** [int(x)]: truncation toward zero. *)
Definition int_of_float (x : Q) : Z := Z.quot (Qnum x) (Zpos (Qden x)).

(** [round(x, 2)]: the float nearest to the two-decimal number nearest
    to [x]. *)
Definition round2 (x : Q) : Q :=
  let h := Qmult x (inject_Z 100) in
  let k := round_half_even (Z.abs (Qnum h)) (Zpos (Qden h)) in
  round53 (Qmake (Z.sgn (Qnum h) * k) 100).

(** ** image_processor.py *)

Definition SUPPORTED_FORMATS : list string :=
  [".png"; ".jpg"; ".jpeg"; ".gif"; ".webp"; ".bmp"; ".tiff"; ".svg"].

Definition DEFAULT_QUALITY : Z := 80.
Definition DEFAULT_MAX_WIDTH : Z := 1920.
Definition DEFAULT_MAX_HEIGHT : Z := 1080.

Definition mem_string (x : string) (l : list string) : bool :=
  existsb (String.eqb x) l.

(** [ImageProcessor.is_supported_format] *)
Definition is_supported_format (file_path : string) : bool :=
  let extension := lower (Path_suffix file_path) in
  mem_string extension SUPPORTED_FORMATS.

(** The part of a PIL image the resize policy reads and writes. *)
Record Image : Type := mk_image { width : Z; height : Z }.

(** [img.resize(size, resample)]: an image of that size; the library
    refuses a size with a side below 1. *)
Definition Image_resize (img : Image) (size : Z * Z) : result Image :=
  if (fst size <? 1) || (snd size <? 1)
  then inl (ValueError "height and width must be > 0")
  else inr (mk_image (fst size) (snd size)).

(** [ImageProcessor._resize_image] *)
Definition _resize_image (img : Image) (max_width max_height : Z) : result Image :=
  if (width img <=? max_width) && (height img <=? max_height) then inr img
  else
    match int_truediv max_width (width img) with
    | inl e => inl e
    | inr rw =>
        match int_truediv max_height (height img) with
        | inl e => inl e
        | inr rh =>
            let ratio := float_min rw rh in
            let new_width := int_of_float (float_mul (float_of_int (width img)) ratio) in
            let new_height := int_of_float (float_mul (float_of_int (height img)) ratio) in
            Image_resize img (new_width, new_height)
        end
    end.

(** One entry of the list [batch_optimize] returns. *)
Record OptResult : Type := mk_opt {
  o_success : bool;
  o_file_path : option string;
  o_output_path : option string;
  o_error : option string;
  o_original_size : option Z;
  o_optimized_size : option Z
}.

Definition opt_failure (file_path error : string) : OptResult :=
  mk_opt false (Some file_path) None (Some error) None None.

Definition opt_success (file_path output_path : string) (s1 s2 : Z) : OptResult :=
  mk_opt true (Some file_path) (Some output_path) None (Some s1) (Some s2).

Record Stats : Type := mk_stats {
  st_total_files : Z;
  st_successful : Z;
  st_failed : Z;
  st_total_original_size : Z;
  st_total_optimized_size : Z;
  st_compression_ratio : Q;
  st_space_saved : Z
}.

Definition sumZ (l : list Z) : Z := fold_right Z.add 0 l.

Definition zlength {A : Type} (l : list A) : Z := Z.of_nat (List.length l).

(** [ImageProcessor.get_optimization_stats] *)
Definition get_optimization_stats (results : list OptResult) : Stats :=
  let successful := filter o_success results in
  let failed := filter (fun r => negb (o_success r)) results in
  let total_original_size :=
    sumZ (map (fun r => get_default (o_original_size r) 0) successful) in
  let total_optimized_size :=
    sumZ (map (fun r => get_default (o_optimized_size r) 0) successful) in
  let compression_ratio :=
    if 0 <? total_original_size then
      match int_truediv total_optimized_size total_original_size with
      | inr t => float_mul (float_sub (float_of_int 1) t) (float_of_int 100)
      | inl _ => Qmake 0 1
      end
    else Qmake 0 1 in
  mk_stats (zlength results) (zlength successful) (zlength failed)
    total_original_size total_optimized_size
    (round2 compression_ratio)
    (total_original_size - total_optimized_size).

(** [asyncio.Semaphore(value)] *)
Definition Semaphore (value : Z) : result Z :=
  if value <? 0 then inl (ValueError "Semaphore initial value must be >= 0")
  else inr value.

(** [await asyncio.gather] over the tasks [single(x) for x in items] with
    [return_exceptions=True], where every [single(x)] runs its body inside [async with semaphore]:
    with no permit no body ever starts; otherwise every body runs once and
    the results come back in the order of [items]. *)
Definition gather_under {T R : Type} (semaphore : Z) (single : T -> result R)
    (items : list T) : outcome (list (result R)) :=
  match items with
  | [] => Returns []
  | _ => if semaphore =? 0 then Hangs else Returns (map single items)
  end.

(** [xs[i]] *)
Definition index {A : Type} (xs : list A) (i : nat) : result A :=
  match nth_error xs i with
  | Some x => inr x
  | None => inl (IndexError "list index out of range")
  end.

Section ImageProcessor.

(** [os.path.getsize] *)
Variable getsize : string -> result Z.
(** [str(Path(p).with_suffix(s))] *)
Variable with_suffix : string -> string -> result string.
(** The codec work of [process_image]: open, convert, resize, transpose
    and save [file_path] as [output_path]. *)
Variable process_image : string -> string -> Z -> Z -> Z -> bool -> result unit.

(** [ImageProcessor.optimize_image] *)
Definition optimize_image (file_path : string) (output_path : option string)
    (quality max_width max_height : Z) (convert_to_webp : bool) : result string :=
  let derived :=
    match output_path with
    | Some p => if nonempty p then inr p
                else if convert_to_webp then with_suffix file_path ".webp"
                else with_suffix file_path (".optimized" ++ Path_suffix file_path)
    | None => if convert_to_webp then with_suffix file_path ".webp"
              else with_suffix file_path (".optimized" ++ Path_suffix file_path)
    end in
  match derived with
  | inl e => inl e
  | inr out =>
      match process_image file_path out quality max_width max_height convert_to_webp with
      | inl e => inl e
      | inr _ => inr out
      end
  end.

(** The method [self.optimize_image] that [batch_optimize] calls. *)
Variable optimize_image_m : string -> option string -> Z -> Z -> Z -> bool -> result string.

(** The body of [optimize_single] under the semaphore. *)
Definition optimize_single (quality max_width max_height : Z)
    (convert_to_webp : bool) (file_path : string) : result OptResult :=
  if negb (is_supported_format file_path) then
    inr (opt_failure file_path ("Unsupported format: " ++ Path_suffix file_path))
  else
    match optimize_image_m file_path None quality max_width max_height convert_to_webp with
    | inl e => inr (opt_failure file_path (str_exn e))
    | inr output_path =>
        match getsize file_path with
        | inl e => inr (opt_failure file_path (str_exn e))
        | inr s1 =>
            match getsize output_path with
            | inl e => inr (opt_failure file_path (str_exn e))
            | inr s2 => inr (opt_success file_path output_path s1 s2)
            end
        end
    end.

(** The loop over [enumerate(results)] that replaces exceptions. *)
Fixpoint optimize_results (file_paths : list string) (i : nat)
    (results : list (result OptResult)) : result (list OptResult) :=
  match results with
  | [] => inr []
  | r :: rest =>
      let entry :=
        match r with
        | inl e =>
            match index file_paths i with
            | inl ie => inl ie
            | inr fp => inr (opt_failure fp (str_exn e))
            end
        | inr d => inr d
        end in
      match entry with
      | inl e => inl e
      | inr d =>
          match optimize_results file_paths (S i) rest with
          | inl e => inl e
          | inr ds => inr (d :: ds)
          end
      end
  end.

(** [ImageProcessor.batch_optimize] *)
Definition batch_optimize (file_paths : list string)
    (quality max_width max_height : Z) (convert_to_webp : bool)
    (max_concurrent : Z) : outcome (list OptResult) :=
  semaphore <- lift (Semaphore max_concurrent) ;;
  results <- gather_under semaphore
               (optimize_single quality max_width max_height convert_to_webp)
               file_paths ;;
  lift (optimize_results file_paths 0 results).

End ImageProcessor.

(** ** s3_client.py *)

(** Metadata values: strings and the [optimized] flag. *)
Inductive MetaVal : Type :=
| VStr (s : string)
| VBool (b : bool).

(** A [dict] keyed by strings, in insertion order. *)
Definition dict : Type := list (string * MetaVal).

Fixpoint dict_get (d : dict) (k : string) : option MetaVal :=
  match d with
  | [] => None
  | (k', v) :: rest => if String.eqb k k' then Some v else dict_get rest k
  end.

(** [d[k] = v] *)
Fixpoint dict_set (d : dict) (k : string) (v : MetaVal) : dict :=
  match d with
  | [] => [(k, v)]
  | (k', v') :: rest =>
      if String.eqb k k' then (k', v) :: rest else (k', v') :: dict_set rest k v
  end.

(** [d.update(other)] *)
Definition dict_update (d other : dict) : dict :=
  fold_left (fun acc kv => dict_set acc (fst kv) (snd kv)) other d.

(** One element of the list given to [upload_multiple]. *)
Record FileInfo : Type := mk_file_info {
  fi_file_path : option string;
  fi_key : option string;
  fi_metadata : option dict;
  fi_content_type : option string
}.

(** What [upload_file] returns. *)
Record UploadResult : Type := mk_upload {
  u_success : bool;
  u_url : option string;
  u_key : option string;
  u_bucket : option string;
  u_size : option Z;
  u_content_type : option string;
  u_metadata : option dict;
  u_error : option string
}.

Definition upload_failure (error : string) (key : string) : UploadResult :=
  mk_upload false None (Some key) None None None None (Some error).

Record S3Client : Type := mk_s3 { region : string; bucket_name : string }.

Definition content_types : list (string * string) :=
  [(".jpg", "image/jpeg"); (".jpeg", "image/jpeg"); (".png", "image/png");
   (".gif", "image/gif"); (".webp", "image/webp"); (".svg", "image/svg+xml");
   (".bmp", "image/bmp"); (".tiff", "image/tiff"); (".ico", "image/x-icon")].

Fixpoint assoc (k : string) (l : list (string * string)) : option string :=
  match l with
  | [] => None
  | (k', v) :: rest => if String.eqb k k' then Some v else assoc k rest
  end.

(** [S3Client._get_content_type] *)
Definition _get_content_type (file_path : string) : string :=
  let extension := lower (Path_suffix file_path) in
  get_default (assoc extension content_types) "application/octet-stream".

Section S3Client.

Variable self : S3Client.
Variable getsize : string -> result Z.
(** The transfer [self.s3_client.upload_file(file, bucket, key, ExtraArgs)],
    with the metadata, content type and ACL of [ExtraArgs]. *)
Variable s3_transfer : string -> string -> string -> dict -> string -> string -> result unit.

(** The two handlers of [upload_file].  The first one reads
    [e.response['Error']['Message']] and so raises [KeyError] itself when
    the response of the [ClientError] lacks one of the two keys; a fault
    raised in a handler leaves the [try] statement. *)
Definition upload_file_handlers (key : string) (e : exn) : result UploadResult :=
  match e with
  | ClientError _ response =>
      match response with
      | None => inl (KeyError "Error")
      | Some None => inl (KeyError "Message")
      | Some (Some message) => inr (upload_failure ("S3 upload error: " ++ message) key)
      end
  | _ => inr (upload_failure ("Unexpected upload error: " ++ str_exn e) key)
  end.

(** [S3Client.upload_file], with the clock reading [now] of the call. *)
Definition upload_file (now : datetime) (file_path key : string)
    (metadata : option dict) (content_type : option string) : result UploadResult :=
  let upload_metadata :=
    dict_update
      [("uploaded_at", VStr (isoformat now));
       ("original_filename", VStr (Path_name file_path));
       ("source", VStr "s3-upload-mcp-server")]
      (get_default metadata []) in
  let content_type :=
    match content_type with
    | Some c => if nonempty c then c else _get_content_type file_path
    | None => _get_content_type file_path
    end in
  match getsize file_path with
  | inl e => upload_file_handlers key e
  | inr file_size =>
      match s3_transfer file_path (bucket_name self) key upload_metadata
              content_type "public-read" with
      | inl e => upload_file_handlers key e
      | inr _ =>
          let url := "https://" ++ bucket_name self ++ ".s3." ++ region self
                     ++ ".amazonaws.com/" ++ key in
          inr (mk_upload true (Some url) (Some key) (Some (bucket_name self))
                 (Some file_size) (Some content_type) (Some upload_metadata) None)
      end
  end.

(** The method [self.upload_file] that [upload_multiple] calls. *)
Variable upload_file_m :
  string -> string -> option dict -> option string -> result UploadResult.

(** The body of [upload_single] under the semaphore. *)
Definition upload_single (file_info : FileInfo) : result UploadResult :=
  match getitem "file_path" (fi_file_path file_info) with
  | inl e => inl e
  | inr file_path =>
      match getitem "key" (fi_key file_info) with
      | inl e => inl e
      | inr key =>
          upload_file_m file_path key (fi_metadata file_info)
            (fi_content_type file_info)
      end
  end.

(** The loop over [enumerate(results)] that replaces exceptions. *)
Fixpoint upload_results (files : list FileInfo) (i : nat)
    (results : list (result UploadResult)) : result (list UploadResult) :=
  match results with
  | [] => inr []
  | r :: rest =>
      let entry :=
        match r with
        | inl e =>
            match index files i with
            | inl ie => inl ie
            | inr fi =>
                inr (upload_failure (str_exn e) (get_default (fi_key fi) "unknown"))
            end
        | inr d => inr d
        end in
      match entry with
      | inl e => inl e
      | inr d =>
          match upload_results files (S i) rest with
          | inl e => inl e
          | inr ds => inr (d :: ds)
          end
      end
  end.

(** [S3Client.upload_multiple] *)
Definition upload_multiple (files : list FileInfo) (max_concurrent : Z)
    : outcome (list UploadResult) :=
  semaphore <- lift (Semaphore max_concurrent) ;;
  results <- gather_under semaphore upload_single files ;;
  lift (upload_results files 0 results).

End S3Client.

(** ** models.py: responses *)

Record UploadResponse : Type := mk_upload_response {
  r_success : bool;
  r_url : option string;
  r_key : option string;
  r_bucket : option string;
  r_size : option Z;
  r_content_type : option string;
  r_metadata : option dict;
  r_error : option string;
  r_processing_time : option Q
}.

(** One element of [BatchUploadResponse.results]. *)
Record DetailedResult : Type := mk_detail {
  d_file_path : string;
  d_success : bool;
  d_url : option string;
  d_error : option string;
  d_key : option string
}.

Record BatchUploadResponse : Type := mk_batch_response {
  success : bool;
  urls : list string;
  errors : list string;
  total_files : Z;
  successful_uploads : Z;
  failed_uploads : Z;
  processing_time : option Q;
  optimization_stats : option Stats;
  results : list DetailedResult
}.

(** ** tools.py *)

(** The methods the tools call on the global [s3_client]; the [nat] of
    [sc_generate_key] numbers the calls, whose clock readings differ. *)
Record S3ClientObj : Type := mk_s3_obj {
  sc_generate_key : nat -> string -> option string -> string;
  sc_upload_file : string -> string -> option dict -> option string -> outcome UploadResult;
  sc_upload_multiple : list FileInfo -> Z -> outcome (list UploadResult)
}.

(** The methods the tools call on the global [image_processor]:
    [optimize_image(file_path, quality=q)],
    [batch_optimize(files, quality=q, max_concurrent=n)]. *)
Record ImageProcessorObj : Type := mk_ip_obj {
  ip_is_supported_format : string -> bool;
  ip_optimize_image : string -> Z -> outcome string;
  ip_batch_optimize : list string -> Z -> Z -> outcome (list OptResult);
  ip_get_optimization_stats : list OptResult -> Stats
}.

Definition is_nil {A : Type} (l : list A) : bool :=
  match l with
  | [] => true
  | _ => false
  end.

(** [if not obj: raise ValueError(msg)] *)
Definition require {A : Type} (obj : option A) (msg : string) : outcome A :=
  match obj with
  | Some a => Returns a
  | None => Raises (ValueError msg)
  end.

Section Tools.

(** The module globals set by [set_global_instances]. *)
Variable s3_client : option S3ClientObj.
Variable image_processor : option ImageProcessorObj.
(** [os.path.exists] *)
Variable exists_ : string -> bool.
(** [time.time() - start_time] when the response is built. *)
Variable elapsed : Q.

Definition upload_error_response (error : string) (t : option Q) : UploadResponse :=
  mk_upload_response false None None None None None None (Some error) t.

(** [upload_image_to_s3] *)
Definition upload_image_to_s3 (file_path bucket_name : string) (key : option string)
    (optimize : bool) (quality : Z) (folder_prefix : option string)
    : outcome UploadResponse :=
  try_except
    (s3 <- require s3_client "S3 client not initialized" ;;
     ip <- require image_processor "Image processor not initialized" ;;
     if negb (exists_ file_path) then
       Returns (upload_error_response ("File not found: " ++ file_path) None)
     else if negb (ip_is_supported_format ip file_path) then
       Returns (upload_error_response
                  ("Unsupported image format: " ++ Path_suffix file_path) None)
     else
       let key :=
         match key with
         | Some k => if nonempty k then k else sc_generate_key s3 0%nat file_path folder_prefix
         | None => sc_generate_key s3 0%nat file_path folder_prefix
         end in
       processed_file_path <-
         (if optimize then
            try_except (ip_optimize_image ip file_path quality)
              (fun _ => Returns file_path)
          else Returns file_path) ;;
       upload_result <-
         sc_upload_file s3 processed_file_path key
           (Some [("original_file", VStr file_path); ("optimized", VBool optimize);
                  ("quality", VStr (str_int quality))])
           None ;;
       if u_success upload_result then
         url <- lift (getitem "url" (u_url upload_result)) ;;
         k <- lift (getitem "key" (u_key upload_result)) ;;
         b <- lift (getitem "bucket" (u_bucket upload_result)) ;;
         sz <- lift (getitem "size" (u_size upload_result)) ;;
         ct <- lift (getitem "content_type" (u_content_type upload_result)) ;;
         md <- lift (getitem "metadata" (u_metadata upload_result)) ;;
         Returns (mk_upload_response true (Some url) (Some k) (Some b) (Some sz)
                    (Some ct) (Some md) None (Some elapsed))
       else
         Returns (upload_error_response
                    (get_default (u_error upload_result) "Upload failed")
                    (Some elapsed)))
    (fun e =>
       Returns (upload_error_response
                  ("Unexpected error during upload: " ++ str_exn e) (Some elapsed))).

(** The loop "Filter valid files": the valid files and the errors, each in
    input order. *)
Fixpoint filter_valid_files (ip : ImageProcessorObj) (file_paths : list string)
    : list string * list string :=
  match file_paths with
  | [] => ([], [])
  | file_path :: rest =>
      let '(valid_files, errors) := filter_valid_files ip rest in
      if negb (exists_ file_path) then
        (valid_files, ("File not found: " ++ file_path) :: errors)
      else if negb (ip_is_supported_format ip file_path) then
        (valid_files,
         ("Unsupported format " ++ Path_suffix file_path ++ ": " ++ file_path) :: errors)
      else (file_path :: valid_files, errors)
  end.

(** The loop "Update file paths to optimized versions": [errors] is
    mutated in place, so what was appended before a fault stays. *)
Fixpoint update_paths (optimization_results : list OptResult)
    (processed_files errors : list string) : list string * result (list string) :=
  match optimization_results with
  | [] => (errors, inr processed_files)
  | r :: rest =>
      if o_success r then
        match getitem "output_path" (o_output_path r) with
        | inl e => (errors, inl e)
        | inr p => update_paths rest (append processed_files p) errors
        end
      else
        match getitem "file_path" (o_file_path r) with
        | inl e => (errors, inl e)
        | inr fp =>
            update_paths rest processed_files
              (append errors
                 ("Optimization failed for " ++ fp ++ ": "
                  ++ get_default (o_error r) "Unknown error"))
        end
  end.

(** The block [if optimize: try ... except ... else ...]: the working
    files, the errors and the statistics it leaves. *)
Definition optimize_phase (ip : ImageProcessorObj) (valid_files errors : list string)
    (optimize : bool) (quality max_concurrent : Z)
    : outcome (list string * list string * option Stats) :=
  if optimize then
    match ip_batch_optimize ip valid_files quality max_concurrent with
    | Hangs => Hangs
    | Raises _ => Returns (valid_files, errors, None)
    | Returns optimization_results =>
        match update_paths optimization_results [] errors with
        | (errors', inl _) => Returns (valid_files, errors', None)
        | (errors', inr processed_files) =>
            Returns (processed_files, errors',
                     Some (ip_get_optimization_stats ip optimization_results))
        end
    end
  else Returns (valid_files, errors, None).

(** The loop "Prepare upload tasks" from index [i] on. *)
Fixpoint prepare_upload_tasks (s3 : S3ClientObj) (file_paths : list string)
    (folder_prefix : option string) (optimize : bool) (quality : Z)
    (i : nat) (processed_files : list string) : list FileInfo :=
  match processed_files with
  | [] => []
  | file_path :: rest =>
      let key := sc_generate_key s3 i file_path folder_prefix in
      mk_file_info (Some file_path) (Some key)
        (Some [("original_file",
                VStr (match nth_error file_paths i with
                      | Some original => original
                      | None => file_path
                      end));
               ("optimized", VBool optimize);
               ("quality", VStr (str_int quality));
               ("batch_index", VStr (str_int (Z.of_nat i)))])
        None
      :: prepare_upload_tasks s3 file_paths folder_prefix optimize quality (S i) rest
  end.

(** What the loop "Process results" accumulates. *)
Record Tally : Type := mk_tally {
  t_urls : list string;
  t_successful : Z;
  t_errors : list string;
  t_detailed : list DetailedResult
}.

(** The loop "Process results" from index [i] on. *)
Fixpoint process_results (file_paths processed_files : list string) (i : nat)
    (upload_results : list UploadResult) (acc : Tally) : result Tally :=
  match upload_results with
  | [] => inr acc
  | r :: rest =>
      let counted :=
        if u_success r then
          match getitem "url" (u_url r) with
          | inl e => inl e
          | inr url => inr (append (t_urls acc) url, t_successful acc + 1, t_errors acc)
          end
        else
          match index file_paths i with
          | inl e => inl e
          | inr fp =>
              inr (t_urls acc, t_successful acc,
                   append (t_errors acc)
                     ("Upload failed for " ++ fp ++ ": "
                      ++ get_default (u_error r) "Unknown error"))
          end in
      match counted with
      | inl e => inl e
      | inr (urls', successful', errors') =>
          match (if (i <? List.length file_paths)%nat then index file_paths i
                 else index processed_files i) with
          | inl e => inl e
          | inr fp =>
              process_results file_paths processed_files (S i) rest
                (mk_tally urls' successful' errors'
                   (append (t_detailed acc)
                      (mk_detail fp (u_success r) (u_url r) (u_error r) (u_key r))))
          end
      end
  end.

(** The response of both early returns. *)
Definition nothing_uploaded (file_paths errors : list string)
    (optimization_stats : option Stats) : BatchUploadResponse :=
  mk_batch_response false [] errors (zlength file_paths) 0 (zlength file_paths)
    None optimization_stats [].

(** From [if not processed_files] to the final [return]; deleting the
    temporary files leaves the response as it is. *)
Definition upload_phase (s3 : S3ClientObj) (file_paths : list string)
    (folder_prefix : option string) (optimize : bool) (quality max_concurrent : Z)
    (processed_files errors : list string) (optimization_stats : option Stats)
    : outcome BatchUploadResponse :=
  if is_nil processed_files then
    Returns (nothing_uploaded file_paths errors optimization_stats)
  else
    let upload_tasks :=
      prepare_upload_tasks s3 file_paths folder_prefix optimize quality 0 processed_files in
    upload_results <- sc_upload_multiple s3 upload_tasks max_concurrent ;;
    tally <- lift (process_results file_paths processed_files 0 upload_results
                     (mk_tally [] 0 errors [])) ;;
    Returns (mk_batch_response (0 <? t_successful tally) (t_urls tally) (t_errors tally)
               (zlength file_paths) (t_successful tally)
               (zlength file_paths - t_successful tally)
               (Some elapsed) optimization_stats (t_detailed tally)).

(** The [except Exception] handler of [batch_upload_images]. *)
Definition unexpected_batch_error (file_paths : list string) (e : exn)
    : BatchUploadResponse :=
  mk_batch_response false []
    ["Unexpected error during batch upload: " ++ str_exn e]
    (zlength file_paths) 0 (zlength file_paths) (Some elapsed) None [].

(** [batch_upload_images]; [bucket_name] is only logged. *)
Definition batch_upload_images (file_paths : list string) (bucket_name : string)
    (folder_prefix : option string) (optimize : bool) (quality max_concurrent : Z)
    : outcome BatchUploadResponse :=
  try_except
    (s3 <- require s3_client "S3 client not initialized" ;;
     ip <- require image_processor "Image processor not initialized" ;;
     let '(valid_files, errors) := filter_valid_files ip file_paths in
     if is_nil valid_files then Returns (nothing_uploaded file_paths errors None)
     else
       phase <- optimize_phase ip valid_files errors optimize quality max_concurrent ;;
       let '(processed_files, errors, optimization_stats) := phase in
       upload_phase s3 file_paths folder_prefix optimize quality max_concurrent
         processed_files errors optimization_stats)
    (fun e => Returns (unexpected_batch_error file_paths e)).

End Tools.

(** ** models.py: request validation

    Building a request model either yields the validated request or the
    list of messages of pydantic's [ValidationError]; every field is
    checked, the constraints of [Field] before the [field_validator]. *)

Record UploadRequest : Type := mk_upload_request {
  q_file_path : string;
  q_bucket_name : string;
  q_key : option string;
  q_optimize : bool;
  q_quality : Z;
  q_folder_prefix : option string
}.

Record BatchUploadRequest : Type := mk_batch_request {
  b_file_paths : list string;
  b_bucket_name : string;
  b_folder_prefix : option string;
  b_optimize : bool;
  b_quality : Z;
  b_max_concurrent : Z
}.

(** [validate_file_path] of [UploadRequest] *)
Definition validate_file_path (v : string) : result string :=
  if negb (nonempty v) || negb (nonempty (strip v))
  then inl (ValueError "File path cannot be empty")
  else inr (strip v).

(** [validate_bucket_name] of both request models *)
Definition validate_bucket_name (v : string) : result string :=
  if negb (nonempty v) || negb (nonempty (strip v))
  then inl (ValueError "Bucket name cannot be empty")
  else inr (strip v).

(** [validate_file_paths] of [BatchUploadRequest] *)
Definition validate_file_paths (v : list string) : result (list string) :=
  if is_nil v then inl (ValueError "File paths list cannot be empty")
  else if forallb (fun path => nonempty path && nonempty (strip path)) v
       then inr (map strip v)
       else inl (ValueError "File path cannot be empty").

(** How pydantic reports a [ValueError] raised by a validator. *)
Definition value_error {A : Type} (r : result A) : list string :=
  match r with
  | inl e => ["Value error, " ++ str_exn e]
  | inr _ => []
  end.

(** [Field(ge=lo, le=hi)] on an int. *)
Definition check_range (lo hi v : Z) : list string :=
  if v <? lo then ["Input should be greater than or equal to " ++ str_int lo]
  else if hi <? v then ["Input should be less than or equal to " ++ str_int hi]
  else [].

(** [Field(min_length=1)] on a list. *)
Definition check_min_length {A : Type} (v : list A) : list string :=
  if is_nil v then ["List should have at least 1 item after validation, not 0"]
  else [].

(** The messages of the [ValidationError] of [UploadRequest(...)]. *)
Definition UploadRequest_problems (raw : UploadRequest) : list string :=
  app (value_error (validate_file_path (q_file_path raw)))
    (app (value_error (validate_bucket_name (q_bucket_name raw)))
       (check_range 1 100 (q_quality raw))).

(** [UploadRequest(...)] *)
Definition new_UploadRequest (raw : UploadRequest) : list string + UploadRequest :=
  if is_nil (UploadRequest_problems raw) then
    inr (mk_upload_request (strip (q_file_path raw)) (strip (q_bucket_name raw))
           (q_key raw) (q_optimize raw) (q_quality raw) (q_folder_prefix raw))
  else inl (UploadRequest_problems raw).

(** The messages of the [ValidationError] of [BatchUploadRequest(...)];
    the validator of [file_paths] runs once [min_length] holds. *)
Definition BatchUploadRequest_problems (raw : BatchUploadRequest) : list string :=
  app (if is_nil (check_min_length (b_file_paths raw))
       then value_error (validate_file_paths (b_file_paths raw))
       else check_min_length (b_file_paths raw))
    (app (value_error (validate_bucket_name (b_bucket_name raw)))
       (app (check_range 1 100 (b_quality raw))
          (check_range 1 10 (b_max_concurrent raw)))).

(** [BatchUploadRequest(...)] *)
Definition new_BatchUploadRequest (raw : BatchUploadRequest)
    : list string + BatchUploadRequest :=
  if is_nil (BatchUploadRequest_problems raw) then
    inr (mk_batch_request (map strip (b_file_paths raw)) (strip (b_bucket_name raw))
           (b_folder_prefix raw) (b_optimize raw) (b_quality raw)
           (b_max_concurrent raw))
  else inl (BatchUploadRequest_problems raw).

(** ** server.py: the instances the tools run with *)

(** The collaborators outside the repository. *)
Record World : Type := mk_world {
  w_exists : string -> bool;
  w_getsize : string -> result Z;
  w_with_suffix : string -> string -> result string;
  w_process_image : string -> string -> Z -> Z -> Z -> bool -> result unit;
  w_transfer : string -> string -> string -> dict -> string -> string -> result unit;
  (** the clock at the [i]-th key derivation of a call *)
  w_key_clock : nat -> datetime;
  (** the clock when the upload to a key starts *)
  w_upload_clock : string -> datetime
}.

(** [ImageProcessor()] as the tools see it. *)
Definition real_image_processor (w : World) : ImageProcessorObj :=
  let optimize := optimize_image (w_with_suffix w) (w_process_image w) in
  mk_ip_obj
    is_supported_format
    (fun file_path quality =>
       lift (optimize file_path None quality DEFAULT_MAX_WIDTH DEFAULT_MAX_HEIGHT false))
    (fun file_paths quality max_concurrent =>
       batch_optimize (w_getsize w) optimize file_paths quality
         DEFAULT_MAX_WIDTH DEFAULT_MAX_HEIGHT false max_concurrent)
    get_optimization_stats.

(** [S3Client(region, bucket_name)] as the tools see it. *)
Definition real_s3_client (w : World) (self : S3Client) : S3ClientObj :=
  let upload file_path key metadata content_type :=
    upload_file self (w_getsize w) (w_transfer w) (w_upload_clock w key)
      file_path key metadata content_type in
  mk_s3_obj
    (fun i => generate_key (w_key_clock w i))
    (fun file_path key metadata content_type =>
       lift (upload file_path key metadata content_type))
    (upload_multiple upload).

(** [batch_upload_images] after [initialize_services]. *)
Definition served_batch_upload (w : World) (self : S3Client) (elapsed : Q)
    (file_paths : list string) (bucket : string) (folder_prefix : option string)
    (optimize : bool) (quality max_concurrent : Z) : outcome BatchUploadResponse :=
  batch_upload_images (Some (real_s3_client w self)) (Some (real_image_processor w))
    (w_exists w) elapsed file_paths bucket folder_prefix optimize quality max_concurrent.

(** [upload_image_to_s3] after [initialize_services]. *)
Definition served_upload (w : World) (self : S3Client) (elapsed : Q)
    (file_path bucket : string) (key : option string) (optimize : bool)
    (quality : Z) (folder_prefix : option string) : outcome UploadResponse :=
  upload_image_to_s3 (Some (real_s3_client w self)) (Some (real_image_processor w))
    (w_exists w) elapsed file_path bucket key optimize quality folder_prefix.

(** A world for the examples: [missing.png] is absent, everything else
    exists with 1000 bytes; the codec fails on [broken.png] only and the
    transfer of a file whose name starts with [reject] is refused. *)
Definition sample_world : World :=
  mk_world
    (fun p => negb (String.eqb p "missing.png") && nonempty p)
    (fun p => if String.eqb p "missing.png"
              then inl (OSError "No such file or directory")
              else inr 1000)
    (fun p suffix => inr (fst (splitext p) ++ suffix))
    (fun p _ _ _ _ _ =>
       if String.eqb p "broken.png" then inl (Exception "cannot identify image file")
       else inr tt)
    (fun p _ _ _ _ _ =>
       if String.prefix "reject" (Path_name p)
       then inl (ClientError "An error occurred (AccessDenied)"
                   (Some (Some "Access Denied")))
       else inr tt)
    (fun _ => mk_datetime 2024 3 7 9 5 2 0)
    (fun _ => mk_datetime 2024 3 7 9 5 3 0).

Definition sample_s3 : S3Client := mk_s3 "us-east-1" "test-bucket".

(** ** image_processor.py: file names *)

Definition safe_chars : string :=
  "abcdefghijklmnopqrstuvwxyzABCDEFGHIJKLMNOPQRSTUVWXYZ0123456789-_.".

(** [c in s] for a character. *)
Fixpoint char_in (c : ascii) (s : string) : bool :=
  match s with
  | EmptyString => false
  | String a r => Ascii.eqb c a || char_in c r
  end.

(** ["".join(f(c) for c in s)] *)
Fixpoint smap (f : ascii -> ascii) (s : string) : string :=
  match s with
  | EmptyString => EmptyString
  | String c r => String (f c) (smap f r)
  end.

Definition is_underscore (c : ascii) : bool := Ascii.eqb c "_".

(** ["__" in s] *)
Fixpoint has_double_underscore (s : string) : bool :=
  match s with
  | EmptyString => false
  | String a r =>
      match r with
      | EmptyString => false
      | String b _ => (is_underscore a && is_underscore b) || has_double_underscore r
      end
  end.

(** [s.replace("__", "_")]: the occurrences are taken from the left and do
    not overlap. *)
Fixpoint replace_double_underscore (s : string) : string :=
  match s with
  | EmptyString => EmptyString
  | String a r =>
      match r with
      | EmptyString => String a EmptyString
      | String b r' =>
          if is_underscore a && is_underscore b
          then String "_" (replace_double_underscore r')
          else String a (replace_double_underscore r)
      end
  end.

(** [while "__" in s: s = s.replace("__", "_")], at most [fuel] rounds. *)
Fixpoint collapse_underscores (fuel : nat) (s : string) : string :=
  match fuel with
  | O => s
  | S n =>
      if has_double_underscore s
      then collapse_underscores n (replace_double_underscore s)
      else s
  end.

(** [ImageProcessor.normalize_filename]; every round of the loop shortens
    the string, so its length bounds the number of rounds. *)
Definition normalize_filename (filename : string) : string :=
  let replaced := smap (fun c => if char_in c safe_chars then c else "_"%char) filename in
  let collapsed := collapse_underscores (String.length replaced) replaced in
  let stripped := lstrip_by is_underscore (rstrip_by is_underscore collapsed) in
  if char_in "." stripped then stripped else stripped ++ ".jpg".

(** ** s3_client.py and tools.py: bucket listing *)

(** [S3Client.list_buckets], given what the [list_buckets] call of the
    storage SDK answers: the bucket names, or a fault. *)
Definition list_buckets (sdk_answer : result (list string)) : list string :=
  match sdk_answer with
  | inr names => names
  | inl _ => []
  end.

Record BucketListResponse : Type := mk_bucket_list {
  l_success : bool;
  l_buckets : list string;
  l_count : Z;
  l_error : option string
}.

(** [list_s3_buckets]; the global [s3_client] is given by its
    [list_buckets] method. *)
Definition list_s3_buckets (s3_client : option (outcome (list string)))
    : outcome BucketListResponse :=
  try_except
    (match s3_client with
     | None => Returns (mk_bucket_list false [] 0 (Some "S3 client not initialized"))
     | Some list_buckets_m =>
         buckets <- list_buckets_m ;;
         Returns (mk_bucket_list true buckets (zlength buckets) None)
     end)
    (fun e =>
       Returns (mk_bucket_list false [] 0
                  (Some ("Error listing S3 buckets: " ++ str_exn e)))).

(* ===================================================================== *)
(** * Properties *)

(** ** Key derivation *)

Lemma sfilter_sall (f : ascii -> bool) (s : string) : sall f (sfilter f s) = true.
Proof.
  induction s as [|c r IH]; simpl; [reflexivity|].
  destruct (f c) eqn:E; simpl; [rewrite E|]; exact IH.
Qed.

Lemma rstrip_by_kept (p q : ascii -> bool) (s : string) :
  (forall c, q c = true -> p c = false) ->
  sall q s = true -> rstrip_by p s = s.
Proof.
  intros Hpq. induction s as [|c r IH]; simpl; [reflexivity|].
  intros H. apply andb_true_iff in H. destruct H as [Hc Hr].
  rewrite (IH Hr). destruct r; [|reflexivity].
  rewrite (Hpq c Hc). reflexivity.
Qed.

Lemma key_char_not_space (c : ascii) : key_char c = true -> isspace c = false.
Proof.
  destruct c as [b0 b1 b2 b3 b4 b5 b6 b7].
  destruct b0, b1, b2, b3, b4, b5, b6, b7; vm_compute; congruence.
Qed.

(** The trailing [.rstrip()] of [generate_key] never removes anything. *)
Lemma safe_name_is_filter (name : string) :
  rstrip (sfilter key_char name) = sfilter key_char name.
Proof.
  unfold rstrip. apply rstrip_by_kept with (q := key_char).
  - exact key_char_not_space.
  - apply sfilter_sall.
Qed.

Lemma strftime_same_second (t1 t2 : datetime) :
  same_second t1 t2 -> strftime_key t1 = strftime_key t2.
Proof.
  destruct t1, t2. unfold same_second, strftime_key. simpl.
  intros (-> & -> & -> & -> & -> & ->). reflexivity.
Qed.

Lemma length_digit (d : Z) : String.length (digit d) = 1%nat.
Proof. reflexivity. Qed.

Lemma length_sappend (a b : string) :
  String.length (a ++ b) = (String.length a + String.length b)%nat.
Proof. induction a as [|c r IH]; simpl; [reflexivity | now rewrite IH]. Qed.

Lemma length_strftime (t : datetime) : String.length (strftime_key t) = 15%nat.
Proof.
  unfold strftime_key, pad4, pad2.
  repeat (rewrite length_sappend || rewrite length_digit). reflexivity.
Qed.

(** C8. The key of a source path is the sanitized base name (only the
    alphanumeric characters, hyphens and underscores of the base name, in
    order), an underscore, the 15-character UTC timestamp to the second and
    the extension; a non-empty folder prefix, without its trailing slashes,
    and a slash come first.  The key depends on the path only through its
    final component and on the clock only down to the second. *)
Theorem generate_key_shape :
  forall (now : datetime) (file_path : string),
    let name := fst (splitext (Path_name file_path)) in
    let ext := snd (splitext (Path_name file_path)) in
    let base := sfilter key_char name ++ "_" ++ strftime_key now ++ ext in
    sall key_char (sfilter key_char name) = true /\
    String.length (strftime_key now) = 15%nat /\
    generate_key now file_path None = base /\
    generate_key now file_path (Some "") = base /\
    (forall namespace, nonempty namespace = true ->
       generate_key now file_path (Some namespace)
       = rstrip_slash namespace ++ "/" ++ base) /\
    (forall now' file_path' folder_prefix,
       same_second now now' -> Path_name file_path = Path_name file_path' ->
       generate_key now' file_path' folder_prefix
       = generate_key now file_path folder_prefix).
Proof.
  intros now file_path name ext base.
  assert (Hnone : forall fp, generate_key now file_path fp
            = match fp with
              | Some p => if nonempty p then rstrip_slash p ++ "/" ++ base else base
              | None => base
              end).
  { intros fp. unfold generate_key, base, name, ext.
    destruct (splitext (Path_name file_path)) as [n e]. simpl.
    rewrite safe_name_is_filter. reflexivity. }
  split; [|split; [|split; [|split; [|split]]]].
  - apply sfilter_sall.
  - apply length_strftime.
  - apply Hnone.
  - apply Hnone.
  - intros ns Hns. rewrite Hnone, Hns. reflexivity.
  - intros now' file_path' fp Hsec Hname.
    unfold generate_key. rewrite <- Hname, (strftime_same_second _ _ Hsec).
    reflexivity.
Qed.

Lemma generate_key_shape_witness :
  generate_key (mk_datetime 2024 3 7 9 5 2 999) "/other/dir/my image(1).png" (Some "images/")
  = generate_key (mk_datetime 2024 3 7 9 5 2 0) "my image(1).png" (Some "images/")
  /\ generate_key (mk_datetime 2024 3 7 9 5 2 0) "my image(1).png" (Some "images/")
     = "images/myimage1_20240307_090502.png".
Proof.
  pose proof (generate_key_shape (mk_datetime 2024 3 7 9 5 2 0) "my image(1).png")
    as (_ & _ & _ & _ & Hprefix & Hsame).
  split.
  - apply Hsame.
    + unfold same_second. simpl. repeat split; reflexivity.
    + vm_compute. reflexivity.
  - rewrite (Hprefix "images/" eq_refl). vm_compute. reflexivity.
Defined.

(** ** Resize policy *)


Lemma round_half_even_le (N D J : Z) :
  0 < D -> N <= J * D -> round_half_even N D <= J.
Proof.
  intros HD HN. unfold round_half_even.
  pose proof (Z.div_mod N D ltac:(lia)) as E.
  pose proof (Z.mod_pos_bound N D HD) as B.
  assert (Hq : N / D <= J) by (apply Z.div_le_upper_bound; lia).
  destruct (Z.eq_dec (N / D) J) as [Heq|Hne].
  - assert (Hr : N mod D = 0) by nia.
    rewrite Hr. replace (2 * 0 ?= D) with Lt by (symmetry; apply Z.compare_lt_iff; lia).
    lia.
  - destruct (2 * (N mod D) ?= D); [destruct (Z.even (N / D))| |]; lia.
Qed.

Lemma round_half_even_ge (N D : Z) : 0 < D -> N / D <= round_half_even N D.
Proof.
  intros HD. unfold round_half_even.
  destruct (2 * (N mod D) ?= D); [destruct (Z.even (N / D))| |]; lia.
Qed.

Lemma round_half_even_near (N D : Z) :
  0 < D -> 2 * round_half_even N D * D <= 2 * N + D.
Proof.
  intros HD. unfold round_half_even.
  pose proof (Z.div_mod N D ltac:(lia)) as E.
  pose proof (Z.mod_pos_bound N D HD) as B.
  destruct (2 * (N mod D) ?= D) eqn:C.
  - apply Z.compare_eq_iff in C. destruct (Z.even (N / D)); nia.
  - nia.
  - apply Z.compare_gt_iff in C. nia.
Qed.

(** The significand and the exponent that [round53_pos] settles on: the
    quotient scaled by [2^b / 2^a] lies between [2^52] and [2^53]. *)
Lemma round53_pos_spec (n d : Z) :
  0 < n -> 0 < d ->
  exists a b : Z,
    0 <= a /\ 0 <= b /\ (a = 0 \/ b = 0) /\
    2 ^ 52 * (d * 2 ^ a) <= n * 2 ^ b /\
    n * 2 ^ b < 2 ^ 53 * (d * 2 ^ a) /\
    Qeq (round53_pos n d)
        (Qmake (round_half_even (n * 2 ^ b) (d * 2 ^ a) * 2 ^ a) (Z.to_pos (2 ^ b))).
Proof.
  intros Hn Hd.
  pose proof (Z.log2_spec n Hn) as [Ln1 Ln2].
  pose proof (Z.log2_spec d Hd) as [Ld1 Ld2].
  pose proof (Z.log2_nonneg n) as Ln0. pose proof (Z.log2_nonneg d) as Ld0.
  set (ln := Z.log2 n) in *. set (ld := Z.log2 d) in *.
  unfold round53_pos. fold ln. fold ld. set (e0 := ln - ld - 53).
  (* the bounds at [e0] *)
  assert (H0 : 2 ^ 52 * snd (scaled n d e0) <= fst (scaled n d e0) /\
               fst (scaled n d e0) < 2 ^ 54 * snd (scaled n d e0) /\
               0 < snd (scaled n d e0)).
  { unfold scaled. destruct (0 <=? e0) eqn:E; cbn [fst snd].
    - apply Z.leb_le in E.
      assert (P1 : 2 ^ ln = 2 ^ 53 * (2 ^ ld * 2 ^ e0)).
      { rewrite <- !Z.pow_add_r by lia. f_equal. unfold e0. lia. }
      assert (P2 : 2 ^ Z.succ ld = 2 * 2 ^ ld) by (rewrite Z.pow_succ_r by lia; lia).
      assert (P3 : 2 ^ Z.succ ln = 2 * 2 ^ ln) by (rewrite Z.pow_succ_r by lia; lia).
      assert (Pe : 0 < 2 ^ e0) by (apply Z.pow_pos_nonneg; lia).
      assert (Pd : 0 < 2 ^ ld) by (apply Z.pow_pos_nonneg; lia).
      change (2 ^ 52) with 4503599627370496. change (2 ^ 54) with 18014398509481984.
      change (2 ^ 53) with 9007199254740992 in P1. nia.
    - apply Z.leb_gt in E.
      assert (P1 : 2 ^ ln * 2 ^ (- e0) = 2 ^ 53 * 2 ^ ld).
      { rewrite <- !Z.pow_add_r by lia. f_equal. unfold e0. lia. }
      assert (P2 : 2 ^ Z.succ ld = 2 * 2 ^ ld) by (rewrite Z.pow_succ_r by lia; lia).
      assert (P3 : 2 ^ Z.succ ln = 2 * 2 ^ ln) by (rewrite Z.pow_succ_r by lia; lia).
      assert (Pe : 0 < 2 ^ (- e0)) by (apply Z.pow_pos_nonneg; lia).
      assert (Pd : 0 < 2 ^ ld) by (apply Z.pow_pos_nonneg; lia).
      change (2 ^ 52) with 4503599627370496. change (2 ^ 54) with 18014398509481984.
      change (2 ^ 53) with 9007199254740992 in P1. nia. }
  destruct H0 as (Hlo & Hhi & Hden).
  set (e := if 2 ^ 53 <=? fst (scaled n d e0) / snd (scaled n d e0) then e0 + 1 else e0).
  (* the bounds at [e] *)
  assert (H1 : 2 ^ 52 * snd (scaled n d e) <= fst (scaled n d e) /\
               fst (scaled n d e) < 2 ^ 53 * snd (scaled n d e) /\
               0 < snd (scaled n d e)).
  { unfold e. destruct (2 ^ 53 <=? fst (scaled n d e0) / snd (scaled n d e0)) eqn:T.
    - apply Z.leb_le in T.
      assert (T' : 2 ^ 53 * snd (scaled n d e0) <= fst (scaled n d e0)).
      { pose proof (Z.mul_div_le (fst (scaled n d e0)) (snd (scaled n d e0)) Hden).
        change (2 ^ 53) with 9007199254740992 in *. nia. }
      assert (Hrel : (fst (scaled n d (e0 + 1)) = fst (scaled n d e0) /\
                      snd (scaled n d (e0 + 1)) = 2 * snd (scaled n d e0)) \/
                     (fst (scaled n d e0) = 2 * fst (scaled n d (e0 + 1)) /\
                      snd (scaled n d (e0 + 1)) = snd (scaled n d e0))).
      { unfold scaled. destruct (0 <=? e0) eqn:E.
        - apply Z.leb_le in E. replace (0 <=? e0 + 1) with true
            by (symmetry; apply Z.leb_le; lia).
          left. cbn [fst snd]. split; [reflexivity|].
          rewrite Z.pow_add_r by lia. change (2 ^ 1) with 2. lia.
        - apply Z.leb_gt in E. right. destruct (0 <=? e0 + 1) eqn:E1; cbn [fst snd].
          + apply Z.leb_le in E1. assert (e0 = -1) by lia. subst e0.
            replace (ln - ld - 53) with (-1) by lia.
            change (2 ^ (- -1)) with 2. split; lia.
          + apply Z.leb_gt in E1. split; [|reflexivity].
            replace (- e0) with (- (e0 + 1) + 1) by lia.
            rewrite Z.pow_add_r by lia. change (2 ^ 1) with 2. lia. }
      change (2 ^ 52) with 4503599627370496 in *.
      change (2 ^ 53) with 9007199254740992 in *.
      change (2 ^ 54) with 18014398509481984 in *.
      destruct Hrel as [[R1 R2]|[R1 R2]]; rewrite ?R1, ?R2; lia.
    - apply Z.leb_gt in T.
      split; [exact Hlo|]. split; [|exact Hden].
      pose proof (Z.div_mod (fst (scaled n d e0)) (snd (scaled n d e0)) ltac:(lia)) as Ed.
      pose proof (Z.mod_pos_bound (fst (scaled n d e0)) (snd (scaled n d e0)) Hden) as Bd.
      change (2 ^ 53) with 9007199254740992 in *. nia. }
  destruct H1 as (Hlo1 & Hhi1 & Hden1).
  fold e. unfold scaled in *.
  destruct (0 <=? e) eqn:E; cbn [fst snd] in *.
  - apply Z.leb_le in E. exists e, 0.
    change (2 ^ 0) with 1. rewrite !Z.mul_1_r.
    split; [lia|]. split; [lia|]. split; [right; reflexivity|].
    split; [exact Hlo1|]. split; [exact Hhi1|]. apply Qred_correct.
  - apply Z.leb_gt in E. exists 0, (- e).
    change (2 ^ 0) with 1. rewrite !Z.mul_1_r.
    split; [lia|]. split; [lia|]. split; [left; reflexivity|].
    split; [exact Hlo1|]. split; [exact Hhi1|]. apply Qred_correct.
Qed.

Lemma round53_of_positive (x : Q) :
  (0 < x)%Q ->
  0 < Qnum x /\ round53 x = round53_pos (Qnum x) (Zpos (Qden x)).
Proof.
  intros H. unfold Qlt in H. cbn in H. rewrite Z.mul_1_r in H.
  split; [exact H|]. unfold round53. destruct (Qnum x); [lia|reflexivity|lia].
Qed.

Lemma pow2_pos_id (b : Z) : 0 <= b -> Zpos (Z.to_pos (2 ^ b)) = 2 ^ b.
Proof. intros H. apply Z2Pos.id. apply Z.pow_pos_nonneg; lia. Qed.

(** A float operation yields a positive float from a positive exact result. *)
Lemma round53_positive (x : Q) : (0 < x)%Q -> (0 < round53 x)%Q.
Proof.
  intros H. destruct (round53_of_positive x H) as [Hn ->].
  destruct (round53_pos_spec (Qnum x) (Zpos (Qden x)) Hn ltac:(lia))
    as (a & b & Ha & Hb & _ & Hlo & _ & ->).
  unfold Qlt. cbn [Qnum Qden]. rewrite Z.mul_0_l, Z.mul_1_r.
  set (N := Qnum x * 2 ^ b) in *. set (D := Zpos (Qden x) * 2 ^ a) in *.
  assert (Pa : 0 < 2 ^ a) by (apply Z.pow_pos_nonneg; lia).
  assert (HD : 0 < D) by (unfold D; lia).
  pose proof (round_half_even_ge N D HD) as Hm.
  assert (Hq : 2 ^ 52 <= N / D) by (apply Z.div_le_lower_bound; lia).
  change (2 ^ 52) with 4503599627370496 in Hq. nia.
Qed.

(** Rounding does not step over a number with a 53-bit significand:
    an exact result below [K / 2^f] stays below it. *)
Lemma round53_le_representable (x : Q) (K f : Z) :
  (0 < x)%Q -> 0 < K < 2 ^ 53 -> 0 <= f ->
  (x <= Qmake K (Z.to_pos (2 ^ f)))%Q ->
  (round53 x <= Qmake K (Z.to_pos (2 ^ f)))%Q.
Proof.
  intros Hx HK Hf Hle. destruct (round53_of_positive x Hx) as [Hn ->].
  unfold Qle in Hle. cbn [Qnum Qden] in Hle. rewrite pow2_pos_id in Hle by exact Hf.
  destruct (round53_pos_spec (Qnum x) (Zpos (Qden x)) Hn ltac:(lia))
    as (a & b & Ha & Hb & Hab & Hlo & _ & ->).
  unfold Qle. cbn [Qnum Qden]. rewrite !pow2_pos_id by assumption.
  set (n := Qnum x) in *. set (d := Zpos (Qden x)) in *.
  assert (Hd : 0 < d) by (unfold d; lia).
  assert (Pa : 0 < 2 ^ a) by (apply Z.pow_pos_nonneg; lia).
  assert (Pb : 0 < 2 ^ b) by (apply Z.pow_pos_nonneg; lia).
  assert (Pf : 0 < 2 ^ f) by (apply Z.pow_pos_nonneg; lia).
  change (2 ^ 52) with 4503599627370496 in *.
  change (2 ^ 53) with 9007199254740992 in *.
  assert (Hsmall : 2 ^ a * 2 ^ f < 2 * 2 ^ b).
  { assert (4503599627370496 * (d * (2 ^ a * 2 ^ f)) < 9007199254740992 * (d * 2 ^ b)).
    { assert (E1 : 4503599627370496 * (d * 2 ^ a) * 2 ^ f <= n * 2 ^ b * 2 ^ f)
        by (apply Z.mul_le_mono_nonneg_r; lia).
      assert (E2 : n * 2 ^ f * 2 ^ b <= K * d * 2 ^ b)
        by (apply Z.mul_le_mono_nonneg_r; lia).
      assert (E3 : K * (d * 2 ^ b) < 9007199254740992 * (d * 2 ^ b))
        by (apply Z.mul_lt_mono_pos_r; lia).
      lia. }
    nia. }
  destruct Hab as [-> | ->].
  - (* a = 0 *)
    change (2 ^ 0) with 1 in *. rewrite !Z.mul_1_r in *. rewrite Z.mul_1_l in Hsmall.
    assert (Hfb : f <= b).
    { destruct (Z.le_gt_cases f b) as [L|G]; [exact L|exfalso].
      assert (2 ^ (b + 1) <= 2 ^ f) by (apply Z.pow_le_mono_r; lia).
      rewrite Z.pow_add_r in H by lia. change (2 ^ 1) with 2 in H. lia. }
    assert (Eb : 2 ^ b = 2 ^ f * 2 ^ (b - f)).
    { rewrite <- Z.pow_add_r by lia. f_equal. lia. }
    assert (Pbf : 0 < 2 ^ (b - f)) by (apply Z.pow_pos_nonneg; lia).
    assert (Hm : round_half_even (n * 2 ^ b) d <= K * 2 ^ (b - f)).
    { apply round_half_even_le; [exact Hd|]. rewrite Eb.
      assert (n * 2 ^ f * 2 ^ (b - f) <= K * d * 2 ^ (b - f))
        by (apply Z.mul_le_mono_nonneg_r; lia).
      lia. }
    rewrite Eb at 2.
    assert (round_half_even (n * 2 ^ b) d * 2 ^ f <= K * 2 ^ (b - f) * 2 ^ f)
      by (apply Z.mul_le_mono_nonneg_r; lia).
    lia.
  - (* b = 0 *)
    change (2 ^ 0) with 1 in *. rewrite !Z.mul_1_r in *.
    assert (Ea : 2 ^ a = 1) by nia. assert (Ef : 2 ^ f = 1) by nia.
    rewrite Ea, Ef in *. rewrite !Z.mul_1_r in *.
    apply round_half_even_le; lia.
Qed.

(** The relative error of rounding is at most [2^-53]. *)
Lemma round53_relative_error (x : Q) :
  (0 < x)%Q ->
  (round53 x <= x * Qmake (2 ^ 53 + 1) (Z.to_pos (2 ^ 53)))%Q.
Proof.
  intros Hx. destruct (round53_of_positive x Hx) as [Hn ->].
  destruct (round53_pos_spec (Qnum x) (Zpos (Qden x)) Hn ltac:(lia))
    as (a & b & Ha & Hb & _ & Hlo & _ & ->).
  unfold Qle, Qmult. cbn [Qnum Qden]. rewrite Pos2Z.inj_mul, (pow2_pos_id b Hb).
  set (n := Qnum x) in *. set (d := Zpos (Qden x)) in *.
  assert (Hd : 0 < d) by (unfold d; lia).
  assert (Pa : 0 < 2 ^ a) by (apply Z.pow_pos_nonneg; lia).
  assert (Pb : 0 < 2 ^ b) by (apply Z.pow_pos_nonneg; lia).
  set (N := n * 2 ^ b) in *. set (D := d * 2 ^ a) in *.
  assert (HD : 0 < D) by (unfold D; nia).
  pose proof (round_half_even_near N D HD) as Hnear.
  set (m := round_half_even N D) in *.
  change (Z.pos (Z.to_pos (2 ^ 53))) with 9007199254740992.
  change (2 ^ 53 + 1) with 9007199254740993.
  change (2 ^ 52) with 4503599627370496 in *.
  assert (Hgoal : m * D * 9007199254740992 <= N * 9007199254740993) by nia.
  replace (m * 2 ^ a * (d * 9007199254740992)) with (m * D * 9007199254740992)
    by (unfold D; ring).
  replace (n * 9007199254740993 * 2 ^ b) with (N * 9007199254740993)
    by (unfold N; ring).
  exact Hgoal.
Qed.

Lemma int_of_float_bounds (x : Q) (K : Z) :
  (0 <= x)%Q -> (x < inject_Z (K + 1))%Q -> 0 <= int_of_float x <= K.
Proof.
  intros H0 H1. unfold int_of_float. unfold Qle in H0. unfold Qlt in H1.
  cbn [Qnum Qden inject_Z] in *. rewrite Z.mul_1_r in *.
  rewrite Z.quot_div_nonneg by lia. split.
  - apply Z.div_pos; lia.
  - apply Z.lt_succ_r. apply Z.div_lt_upper_bound; lia.
Qed.

Lemma float_of_int_le (n : Z) : 0 < n < 2 ^ 53 -> (0 < float_of_int n <= inject_Z n)%Q.
Proof.
  intros H. unfold float_of_int.
  assert (Hp : (0 < inject_Z n)%Q) by (unfold Qlt; cbn; lia).
  split; [apply round53_positive; exact Hp|].
  apply (round53_le_representable (inject_Z n) n 0 Hp H ltac:(lia)).
  apply Qle_refl.
Qed.

Lemma one_as_float : (1 == Qmake 1 (Z.to_pos (2 ^ 0)))%Q.
Proof. reflexivity. Qed.

(** The float quotient of two positive ints: positive, at most 1 when the
    dividend is the smaller one, and off by a factor [1 + 2^-53] at most. *)
Lemma truediv_bounds (a b : Z) :
  0 < a -> 0 < b ->
  let q := round53 (inject_Z a / inject_Z b) in
  (0 < q)%Q /\
  (q * inject_Z b <= inject_Z a * Qmake (2 ^ 53 + 1) (Z.to_pos (2 ^ 53)))%Q /\
  (a <= b -> (q <= 1)%Q).
Proof.
  intros Ha Hb q.
  assert (Pa : (0 < inject_Z a)%Q) by (unfold Qlt; cbn; lia).
  assert (Pb : (0 < inject_Z b)%Q) by (unfold Qlt; cbn; lia).
  assert (Nb : ~ (inject_Z b == 0)%Q) by (intros E; rewrite E in Pb; discriminate).
  assert (Px : (0 < inject_Z a / inject_Z b)%Q).
  { apply Qlt_shift_div_l; [exact Pb|]. rewrite Qmult_0_l. exact Pa. }
  split; [apply round53_positive; exact Px|]. split.
  - pose proof (round53_relative_error _ Px) as E. fold q in E.
    assert (M : (q * inject_Z b
                 <= inject_Z a / inject_Z b * Qmake (2 ^ 53 + 1) (Z.to_pos (2 ^ 53))
                    * inject_Z b)%Q).
    { apply Qmult_le_compat_r; [exact E|apply Qlt_le_weak; exact Pb]. }
    eapply Qle_trans; [exact M|]. apply Qle_lteq. right. field. exact Nb.
  - intros Hab. unfold q. rewrite one_as_float.
    apply round53_le_representable; [exact Px| cbn; lia | lia |].
    rewrite <- one_as_float. apply Qle_shift_div_r; [exact Pb|].
    rewrite Qmult_1_l. rewrite <- Zle_Qle. exact Hab.
Qed.

(** One dimension of the resized image. *)
Lemma scaled_dimension_bounds (n bound : Z) (ratio rb : Q) :
  0 < n < 2 ^ 53 -> 0 < bound < 2 ^ 52 ->
  (0 < ratio)%Q -> (ratio <= 1)%Q -> (ratio <= rb)%Q ->
  (rb * inject_Z n <= inject_Z bound * Qmake (2 ^ 53 + 1) (Z.to_pos (2 ^ 53)))%Q ->
  0 <= int_of_float (float_mul (float_of_int n) ratio) <= Z.min n bound.
Proof.
  intros Hn Hb P0 P1 Prb Hrb.
  destruct (float_of_int_le n Hn) as [F0 F1].
  set (fw := float_of_int n) in *. unfold float_mul.
  assert (Pn : (0 < inject_Z n)%Q) by (unfold Qlt; cbn; lia).
  assert (Px : (0 < fw * ratio)%Q) by nra.
  assert (X1 : (fw * ratio <= inject_Z n)%Q) by nra.
  assert (X2 : (fw * ratio <= Qmake (2 * bound + 1) (Z.to_pos (2 ^ 1)))%Q).
  { assert (Y1 : (fw * ratio <= rb * inject_Z n)%Q) by nra.
    assert (Y2 : (inject_Z bound * Qmake (2 ^ 53 + 1) (Z.to_pos (2 ^ 53))
                  <= Qmake (2 * bound + 1) (Z.to_pos (2 ^ 1)))%Q).
    { unfold Qle, Qmult. cbn [Qnum Qden inject_Z].
      change (2 ^ 52) with 4503599627370496 in Hb.
      change (2 ^ 53 + 1) with 9007199254740993.
      change (Z.pos (Z.to_pos (2 ^ 1))) with 2.
      change (Z.pos (1 * Z.to_pos (2 ^ 53))) with 9007199254740992. lia. }
    eapply Qle_trans; [exact Y1|]. eapply Qle_trans; [exact Hrb|exact Y2]. }
  pose proof (round53_positive _ Px) as R0.
  assert (R1 : (round53 (fw * ratio) <= inject_Z n)%Q).
  { change (inject_Z n) with (Qmake n (Z.to_pos (2 ^ 0))).
    apply round53_le_representable; [exact Px|exact Hn|lia|exact X1]. }
  assert (R2 : (round53 (fw * ratio) <= Qmake (2 * bound + 1) (Z.to_pos (2 ^ 1)))%Q).
  { apply round53_le_representable; [exact Px| |lia|exact X2].
    change (2 ^ 52) with 4503599627370496 in Hb.
    change (2 ^ 53) with 9007199254740992. lia. }
  set (p := round53 (fw * ratio)) in *.
  assert (B1 : 0 <= int_of_float p <= n).
  { apply int_of_float_bounds; [apply Qlt_le_weak; exact R0|].
    eapply Qle_lt_trans; [exact R1|]. rewrite <- Zlt_Qlt. lia. }
  assert (B2 : 0 <= int_of_float p <= bound).
  { apply int_of_float_bounds; [apply Qlt_le_weak; exact R0|].
    eapply Qle_lt_trans; [exact R2|]. unfold Qlt. cbn [Qnum Qden inject_Z].
    change (Z.pos (Z.to_pos (2 ^ 1))) with 2. lia. }
  lia.
Qed.

Lemma float_min_bounds (x y : Q) :
  (float_min x y <= x)%Q /\ (float_min x y <= y)%Q /\
  (float_min x y = x \/ float_min x y = y).
Proof.
  unfold float_min. destruct (Qle_bool x y) eqn:E.
  - apply Qle_bool_iff in E. split; [apply Qle_refl|]. split; [exact E|left; reflexivity].
  - assert (L : (y <= x)%Q).
    { destruct (Qlt_le_dec y x) as [H|H]; [apply Qlt_le_weak; exact H|].
      apply Qle_bool_iff in H. congruence. }
    split; [exact L|]. split; [apply Qle_refl|right; reflexivity].
Qed.


(** The float product [n * ratio] of a dimension stays below 1 when the
    ratio is at most a quotient [bound / m] that takes [n] below 1. *)
Lemma scaled_dimension_vanishes (n m bound : Z) (ratio rb : Q) :
  0 < n < 2 ^ 53 -> 0 < m < 2 ^ 52 -> n * bound < m ->
  (0 < ratio)%Q -> (ratio <= rb)%Q ->
  (rb * inject_Z m <= inject_Z bound * Qmake (2 ^ 53 + 1) (Z.to_pos (2 ^ 53)))%Q ->
  int_of_float (float_mul (float_of_int n) ratio) = 0.
Proof.
  intros Hn Hm Hthin P0 Prb Hrb.
  destruct (float_of_int_le n Hn) as [F0 F1].
  set (fn := float_of_int n) in *. unfold float_mul.
  assert (Pm : (0 < inject_Z m)%Q) by (unfold Qlt; cbn; lia).
  assert (Pn : (0 < inject_Z n)%Q) by (unfold Qlt; cbn; lia).
  assert (Px : (0 < fn * ratio)%Q) by nra.
  assert (Hnb : (inject_Z n * inject_Z bound + 1 <= inject_Z m)%Q).
  { rewrite <- inject_Z_mult. change 1%Q with (inject_Z 1).
    rewrite <- inject_Z_plus. rewrite <- Zle_Qle. lia. }
  assert (Hc : (inject_Z bound * Qmake (2 ^ 53 + 1) (Z.to_pos (2 ^ 53))
                == inject_Z bound + inject_Z bound * Qmake 1 (Z.to_pos (2 ^ 53)))%Q).
  { unfold Qeq, Qplus, Qmult. cbn [Qnum Qden inject_Z].
    change (2 ^ 53 + 1) with 9007199254740993.
    change (Z.pos (1 * Z.to_pos (2 ^ 53))) with 9007199254740992.
    change (Z.pos (1 * (1 * Z.to_pos (2 ^ 53)))) with 9007199254740992.
    lia. }
  assert (Hm' : (inject_Z m <= inject_Z (2 ^ 52))%Q) by (rewrite <- Zle_Qle; lia).
  assert (X : (fn * ratio <= Qmake (2 ^ 53 - 1) (Z.to_pos (2 ^ 53)))%Q).
  { assert (Y1 : (fn * ratio <= inject_Z n * rb)%Q) by nra.
    assert (Y2 : (inject_Z n * rb * inject_Z m
                  <= Qmake (2 ^ 53 - 1) (Z.to_pos (2 ^ 53)) * inject_Z m)%Q).
    { rewrite Hc in Hrb.
      change (Qmake 1 (Z.to_pos (2 ^ 53))) with (Qmake 1 9007199254740992) in Hrb.
      change (Qmake (2 ^ 53 - 1) (Z.to_pos (2 ^ 53)))
        with (Qmake 9007199254740991 9007199254740992).
      change (inject_Z (2 ^ 52)) with (Qmake 4503599627370496 1) in Hm'.
      nra. }
    eapply Qle_trans; [exact Y1|].
    apply (Qmult_le_r _ _ (inject_Z m) Pm). exact Y2. }
  pose proof (round53_positive _ Px) as R0.
  assert (R1 : (round53 (fn * ratio) <= Qmake (2 ^ 53 - 1) (Z.to_pos (2 ^ 53)))%Q).
  { apply round53_le_representable; [exact Px| |lia|exact X].
    change (2 ^ 53) with 9007199254740992. lia. }
  assert (B : 0 <= int_of_float (round53 (fn * ratio)) <= 0).
  { apply int_of_float_bounds; [apply Qlt_le_weak; exact R0|].
    eapply Qle_lt_trans; [exact R1|]. reflexivity. }
  lia.
Qed.

(** C9 fails on the code for thin images.  When the common ratio takes a
    side below one pixel (the height when [height * max_width < width],
    the width when [width * max_height < height]) the truncated side is 0,
    [img.resize] refuses the size, and [_resize_image] raises [ValueError]
    where the resize policy promises the scaled image; a 10000x1 image
    under 1920x1080 is such an image. *)
Theorem resize_fails_on_thin_images :
  forall (img : Image) (max_width max_height : Z),
    0 < width img < 2 ^ 52 -> 0 < height img < 2 ^ 52 ->
    0 < max_width -> 0 < max_height ->
    height img * max_width < width img \/ width img * max_height < height img ->
    _resize_image img max_width max_height
    = inl (ValueError "height and width must be > 0").
Proof.
  intros img mw mh Hw Hh Hmw Hmh Hthin. unfold _resize_image.
  replace ((width img <=? mw) && (height img <=? mh)) with false.
  2:{ symmetry. apply andb_false_iff.
      destruct Hthin as [T|T]; [left|right]; apply Z.leb_gt; nia. }
  unfold int_truediv.
  replace (width img =? 0) with false by (symmetry; apply Z.eqb_neq; lia).
  replace (height img =? 0) with false by (symmetry; apply Z.eqb_neq; lia).
  destruct (truediv_bounds mw (width img)) as (W0 & W1 & _); [lia|lia|].
  destruct (truediv_bounds mh (height img)) as (H0 & H1 & _); [lia|lia|].
  set (rw := round53 (inject_Z mw / inject_Z (width img))) in *.
  set (rh := round53 (inject_Z mh / inject_Z (height img))) in *.
  destruct (float_min_bounds rw rh) as (M1 & M2 & M3).
  assert (P0 : (0 < float_min rw rh)%Q) by (destruct M3 as [-> | ->]; assumption).
  assert (B52 : 2 ^ 52 < 2 ^ 53) by reflexivity.
  unfold Image_resize. cbn [fst snd].
  destruct Hthin as [T|T].
  - rewrite (scaled_dimension_vanishes (height img) (width img) mw (float_min rw rh) rw);
      try assumption; [|lia].
    rewrite orb_true_r. reflexivity.
  - rewrite (scaled_dimension_vanishes (width img) (height img) mh (float_min rw rh) rh);
      try assumption; [|lia].
    reflexivity.
Qed.

Lemma resize_fails_on_thin_images_witness :
  _resize_image (mk_image 10000 1) 1920 1080
  = inl (ValueError "height and width must be > 0").
Proof.
  apply resize_fails_on_thin_images; cbn [width height];
    [split; reflexivity|split; reflexivity|reflexivity|reflexivity|left; reflexivity].
Defined.

(** X19. Where [_resize_image] does resize: an image within the bounds is
    returned as it is.  Otherwise both sides are multiplied by the one
    factor [min(max_width / width, max_height / height)] and truncated,
    all in float arithmetic, and for sizes below [2^53] and bounds below
    [2^52] (where ints convert to floats exactly) the rounding of the
    ratio and of the products never takes a side over its bound: the new
    width is at most the old one and [max_width], the new height at most
    the old one and [max_height].  The call returns the image of that size
    unless a side came out as 0, which [img.resize] refuses. *)
Theorem resize_result_fits_the_bounds :
  forall (img : Image) (max_width max_height : Z),
    0 < width img < 2 ^ 53 -> 0 < height img < 2 ^ 53 ->
    0 < max_width < 2 ^ 52 -> 0 < max_height < 2 ^ 52 ->
    (width img <= max_width -> height img <= max_height ->
     _resize_image img max_width max_height = inr img) /\
    (~ (width img <= max_width /\ height img <= max_height) ->
     exists rw rh,
       int_truediv max_width (width img) = inr rw /\
       int_truediv max_height (height img) = inr rh /\
       let ratio := float_min rw rh in
       let new_width := int_of_float (float_mul (float_of_int (width img)) ratio) in
       let new_height := int_of_float (float_mul (float_of_int (height img)) ratio) in
       0 <= new_width <= Z.min (width img) max_width /\
       0 <= new_height <= Z.min (height img) max_height /\
       _resize_image img max_width max_height
       = if (new_width <? 1) || (new_height <? 1)
         then inl (ValueError "height and width must be > 0")
         else inr (mk_image new_width new_height)).
Proof.
  intros img mw mh Hw Hh Hmw Hmh. split.
  - intros Lw Lh. unfold _resize_image.
    apply Z.leb_le in Lw. apply Z.leb_le in Lh. rewrite Lw, Lh. reflexivity.
  - intros Hout. unfold _resize_image.
    destruct ((width img <=? mw) && (height img <=? mh)) eqn:E.
    { exfalso. apply Hout. apply andb_true_iff in E. destruct E as [E1 E2].
      split; apply Z.leb_le; assumption. }
    unfold int_truediv.
    replace (width img =? 0) with false by (symmetry; apply Z.eqb_neq; lia).
    replace (height img =? 0) with false by (symmetry; apply Z.eqb_neq; lia).
    destruct (truediv_bounds mw (width img)) as (W0 & W1 & W2); [lia|lia|].
    destruct (truediv_bounds mh (height img)) as (H0 & H1 & H2); [lia|lia|].
    set (rw := round53 (inject_Z mw / inject_Z (width img))) in *.
    set (rh := round53 (inject_Z mh / inject_Z (height img))) in *.
    destruct (float_min_bounds rw rh) as (M1 & M2 & M3).
    assert (P0 : (0 < float_min rw rh)%Q) by (destruct M3 as [-> | ->]; assumption).
    assert (P1 : (float_min rw rh <= 1)%Q).
    { apply andb_false_iff in E. destruct E as [E|E]; apply Z.leb_gt in E.
      - eapply Qle_trans; [exact M1|]. apply W2. lia.
      - eapply Qle_trans; [exact M2|]. apply H2. lia. }
    exists rw, rh. split; [reflexivity|]. split; [reflexivity|]. cbv zeta.
    split; [|split; [|reflexivity]].
    + apply (scaled_dimension_bounds (width img) mw (float_min rw rh) rw); assumption.
    + apply (scaled_dimension_bounds (height img) mh (float_min rw rh) rh); assumption.
Qed.

Lemma resize_result_fits_the_bounds_witness :
  _resize_image (mk_image 800 600) 1920 1080 = inr (mk_image 800 600) /\
  _resize_image (mk_image 4000 2000) 1920 1080 = inr (mk_image 1920 960) /\
  _resize_image (mk_image 1000 3000) 1920 1080 = inr (mk_image 360 1080).
Proof.
  assert (B : forall n, 0 < n -> n < 2 ^ 52 -> 0 < n < 2 ^ 53 /\ 0 < n < 2 ^ 52).
  { intros n H1 H2. assert (2 ^ 52 < 2 ^ 53) by reflexivity. lia. }
  split; [|split].
  - apply (proj1 (resize_result_fits_the_bounds (mk_image 800 600) 1920 1080
                    (proj1 (B 800 eq_refl eq_refl)) (proj1 (B 600 eq_refl eq_refl))
                    (proj2 (B 1920 eq_refl eq_refl)) (proj2 (B 1080 eq_refl eq_refl))));
      cbn [width height]; lia.
  - destruct (proj2 (resize_result_fits_the_bounds (mk_image 4000 2000) 1920 1080
                    (proj1 (B 4000 eq_refl eq_refl)) (proj1 (B 2000 eq_refl eq_refl))
                    (proj2 (B 1920 eq_refl eq_refl)) (proj2 (B 1080 eq_refl eq_refl))))
      as (rw & rh & Hrw & Hrh & _ & _ & Hres).
    + cbn [width height]. lia.
    + rewrite Hres. clear Hres. vm_compute in Hrw. vm_compute in Hrh.
      injection Hrw as <-. injection Hrh as <-. vm_compute. reflexivity.
  - destruct (proj2 (resize_result_fits_the_bounds (mk_image 1000 3000) 1920 1080
                    (proj1 (B 1000 eq_refl eq_refl)) (proj1 (B 3000 eq_refl eq_refl))
                    (proj2 (B 1920 eq_refl eq_refl)) (proj2 (B 1080 eq_refl eq_refl))))
      as (rw & rh & Hrw & Hrh & _ & _ & Hres).
    + cbn [width height]. lia.
    + rewrite Hres. clear Hres. vm_compute in Hrw. vm_compute in Hrh.
      injection Hrw as <-. injection Hrh as <-. vm_compute. reflexivity.
Defined.

(** ** Optimization statistics *)

Lemma filter_drop_failed (l1 l2 : list OptResult) (r : OptResult) :
  o_success r = false ->
  filter o_success (l1 ++ r :: l2)%list = filter o_success (l1 ++ l2)%list.
Proof.
  intros Hr. rewrite !filter_app. simpl. rewrite Hr. reflexivity.
Qed.

(** The three results of the unit test of the statistics. *)
Lemma stats_of_the_test :
  get_optimization_stats
    [mk_opt true None None None (Some 1000) (Some 500);
     mk_opt true None None None (Some 2000) (Some 1000);
     mk_opt false None None None (Some 500) (Some 0)]
  = mk_stats 3 2 1 3000 1500 (Qmake 50 1) 1500.
Proof. vm_compute. reflexivity. Qed.

(** C6, as stated, fails on the claim's own sizes: the reported ratio is
    50, which is not [1 - 1500/3000]. *)
Lemma compression_ratio_is_a_percentage :
  let stats :=
    get_optimization_stats
      [mk_opt true None None None (Some 1000) (Some 500);
       mk_opt true None None None (Some 2000) (Some 1000);
       mk_opt false None None None (Some 500) (Some 0)] in
  0 < st_total_original_size stats /\
  ~ Qeq (st_compression_ratio stats)
        (Qminus (inject_Z 1)
           (Qdiv (inject_Z (st_total_optimized_size stats))
                 (inject_Z (st_total_original_size stats)))).
Proof.
  rewrite stats_of_the_test. simpl. split; [lia|].
  intros H. vm_compute in H. discriminate H.
Qed.

(** C6, amended. The sums run over the successful results only, a failed
    result changes none of them, space saved is the difference of the two
    sums, and the compression ratio is the percentage
    [(1 - sum_after / sum_before) * 100] in float arithmetic rounded to two
    decimals when [sum_before > 0] and 0 otherwise; the sizes (1000,500),
    (2000,1000) and a failed (500,0) give 50.0 and 1500. *)
Theorem optimization_stats_over_successes :
  forall (results : list OptResult),
    let successful := filter o_success results in
    let sum_before := sumZ (map (fun r => get_default (o_original_size r) 0) successful) in
    let sum_after := sumZ (map (fun r => get_default (o_optimized_size r) 0) successful) in
    let stats := get_optimization_stats results in
    st_total_original_size stats = sum_before /\
    st_total_optimized_size stats = sum_after /\
    st_space_saved stats = sum_before - sum_after /\
    (0 < sum_before ->
     st_compression_ratio stats
     = round2 (float_mul
                 (float_sub (float_of_int 1)
                    (round53 (Qdiv (inject_Z sum_after) (inject_Z sum_before))))
                 (float_of_int 100))) /\
    (sum_before <= 0 -> st_compression_ratio stats = Qmake 0 1) /\
    (forall l1 r l2, results = (l1 ++ r :: l2)%list -> o_success r = false ->
       let stats' := get_optimization_stats (l1 ++ l2)%list in
       st_total_original_size stats = st_total_original_size stats' /\
       st_total_optimized_size stats = st_total_optimized_size stats' /\
       st_compression_ratio stats = st_compression_ratio stats' /\
       st_space_saved stats = st_space_saved stats') /\
    (let tested :=
       get_optimization_stats
         [mk_opt true None None None (Some 1000) (Some 500);
          mk_opt true None None None (Some 2000) (Some 1000);
          mk_opt false None None None (Some 500) (Some 0)] in
     st_compression_ratio tested = Qmake 50 1 /\ st_space_saved tested = 1500).
Proof.
  intros results successful sum_before sum_after stats.
  split; [reflexivity|]. split; [reflexivity|]. split; [reflexivity|].
  split; [|split; [|split]].
  - intros Hpos. unfold stats, get_optimization_stats. simpl.
    fold successful. fold sum_before. fold sum_after.
    apply Z.ltb_lt in Hpos. rewrite Hpos.
    unfold int_truediv.
    assert (Hz : (sum_before =? 0) = false)
      by (apply Z.eqb_neq; apply Z.ltb_lt in Hpos; lia).
    rewrite Hz. reflexivity.
  - intros Hle. unfold stats, get_optimization_stats. simpl.
    fold successful. fold sum_before.
    assert (Hz : (0 <? sum_before) = false) by (apply Z.ltb_ge; exact Hle).
    rewrite Hz. reflexivity.
  - intros l1 r l2 -> Hr stats'.
    unfold stats, stats', get_optimization_stats. simpl.
    unfold successful. rewrite (filter_drop_failed l1 l2 r Hr).
    repeat split; reflexivity.
  - rewrite stats_of_the_test. simpl. split; reflexivity.
Qed.

Lemma optimization_stats_over_successes_witness :
  st_compression_ratio
    (get_optimization_stats
       [mk_opt true None None None (Some 3) (Some 1);
        mk_opt false None None None (Some 500) (Some 0)])
  = round53 (Qmake 6667 100)
  /\ st_compression_ratio (get_optimization_stats [opt_failure "a.png" "bad"]) = Qmake 0 1
  /\ st_space_saved
       (get_optimization_stats
          [mk_opt true None None None (Some 3) (Some 1);
           mk_opt false None None None (Some 500) (Some 0)])
     = st_space_saved (get_optimization_stats [mk_opt true None None None (Some 3) (Some 1)]).
Proof.
  split; [|split].
  - pose proof (optimization_stats_over_successes
                  [mk_opt true None None None (Some 3) (Some 1);
                   mk_opt false None None None (Some 500) (Some 0)])
      as (_ & _ & _ & Hratio & _).
    rewrite Hratio; [vm_compute; reflexivity | simpl; lia].
  - pose proof (optimization_stats_over_successes [opt_failure "a.png" "bad"])
      as (_ & _ & _ & _ & Hzero & _).
    apply Hzero. simpl. lia.
  - pose proof (optimization_stats_over_successes
                  [mk_opt true None None None (Some 3) (Some 1);
                   mk_opt false None None None (Some 500) (Some 0)])
      as (_ & _ & _ & _ & _ & Hdrop & _).
    apply (Hdrop [mk_opt true None None None (Some 3) (Some 1)]
             (mk_opt false None None None (Some 500) (Some 0)) []); reflexivity.
Defined.

(** ** The bounded concurrent runners *)

Lemma index_middle {A : Type} (pre : list A) (x : A) (post : list A) :
  index (pre ++ x :: post)%list (List.length pre) = inr x.
Proof.
  unfold index. rewrite nth_error_app2 by lia. rewrite Nat.sub_diag. reflexivity.
Qed.

Lemma gather_with_permits {T R : Type} (permits : Z) (single : T -> result R)
    (items : list T) :
  1 <= permits -> gather_under permits single items = Returns (map single items).
Proof.
  intros H. destruct items as [|x l]; [reflexivity|].
  unfold gather_under. replace (permits =? 0) with false; [reflexivity|].
  symmetry. apply Z.eqb_neq. lia.
Qed.

Lemma semaphore_with_permits (value : Z) : 0 <= value -> Semaphore value = inr value.
Proof.
  intros H. unfold Semaphore. replace (value <? 0) with false; [reflexivity|].
  symmetry. apply Z.ltb_ge. exact H.
Qed.

Section Runners.

Variable getsize : string -> result Z.
Variable optimize_image_m : string -> option string -> Z -> Z -> Z -> bool -> result string.
Variable upload_file_m : string -> string -> option dict -> option string -> result UploadResult.
Variables quality max_width max_height : Z.
Variable convert_to_webp : bool.

Local Abbreviation single :=
  (optimize_single getsize optimize_image_m quality max_width max_height
     convert_to_webp).

(** [optimize_single] catches every fault of its body. *)
Lemma optimize_single_returns (file_path : string) :
  exists d, single file_path = inr d /\ o_file_path d = Some file_path /\
            (o_success d = true -> exists out, o_output_path d = Some out).
Proof.
  unfold optimize_single.
  destruct (negb (is_supported_format file_path)).
  { eexists. split; [reflexivity|]. split; [reflexivity|]. discriminate. }
  destruct (optimize_image_m _ _ _ _ _ _) as [e|out].
  { eexists. split; [reflexivity|]. split; [reflexivity|]. discriminate. }
  destruct (getsize file_path) as [e|s1].
  { eexists. split; [reflexivity|]. split; [reflexivity|]. discriminate. }
  destruct (getsize out) as [e|s2].
  { eexists. split; [reflexivity|]. split; [reflexivity|]. discriminate. }
  eexists. split; [reflexivity|]. split; [reflexivity|]. intros _. eexists. reflexivity.
Qed.

Lemma optimize_results_settled (f : string -> result OptResult) (l pre : list string) :
  optimize_results (pre ++ l)%list (List.length pre) (map f l)
  = inr (map (fun fp => match f fp with
                        | inr d => d
                        | inl e => opt_failure fp (str_exn e)
                        end) l).
Proof.
  revert pre. induction l as [|a l IH]; intros pre; [reflexivity|].
  simpl. rewrite index_middle.
  assert (Hrest := IH (pre ++ [a])%list).
  rewrite <- app_assoc, length_app, Nat.add_1_r in Hrest. simpl in Hrest.
  destruct (f a) as [e|d]; rewrite Hrest; reflexivity.
Qed.

Lemma upload_results_settled (f : FileInfo -> result UploadResult) (l pre : list FileInfo) :
  upload_results (pre ++ l)%list (List.length pre) (map f l)
  = inr (map (fun fi => match f fi with
                        | inr d => d
                        | inl e => upload_failure (str_exn e)
                                     (get_default (fi_key fi) "unknown")
                        end) l).
Proof.
  revert pre. induction l as [|a l IH]; intros pre; [reflexivity|].
  simpl. rewrite index_middle.
  assert (Hrest := IH (pre ++ [a])%list).
  rewrite <- app_assoc, length_app, Nat.add_1_r in Hrest. simpl in Hrest.
  destruct (f a) as [e|d]; rewrite Hrest; reflexivity.
Qed.

Lemma batch_optimize_settled (file_paths : list string) (max_concurrent : Z) :
  1 <= max_concurrent ->
  batch_optimize getsize optimize_image_m file_paths quality max_width max_height
    convert_to_webp max_concurrent
  = Returns (map (fun fp => match single fp with
                            | inr d => d
                            | inl e => opt_failure fp (str_exn e)
                            end) file_paths).
Proof.
  intros H. unfold batch_optimize.
  rewrite semaphore_with_permits by lia. simpl.
  rewrite gather_with_permits by exact H. simpl.
  rewrite (optimize_results_settled _ file_paths []). reflexivity.
Qed.

Lemma upload_multiple_settled (files : list FileInfo) (max_concurrent : Z) :
  1 <= max_concurrent ->
  upload_multiple upload_file_m files max_concurrent
  = Returns (map (fun fi => match upload_single upload_file_m fi with
                            | inr d => d
                            | inl e => upload_failure (str_exn e)
                                         (get_default (fi_key fi) "unknown")
                            end) files).
Proof.
  intros H. unfold upload_multiple.
  rewrite semaphore_with_permits by lia. simpl.
  rewrite gather_with_permits by exact H. simpl.
  rewrite (upload_results_settled _ files []). reflexivity.
Qed.

(** Without a permit the runners do not answer: a negative limit is
    refused by the semaphore and a limit of zero lets no item start. *)
Lemma runners_without_permits (file_paths : list string) (files : list FileInfo)
    (max_concurrent : Z) :
  (max_concurrent < 0 ->
   batch_optimize getsize optimize_image_m file_paths quality max_width max_height
     convert_to_webp max_concurrent
   = Raises (ValueError "Semaphore initial value must be >= 0") /\
   upload_multiple upload_file_m files max_concurrent
   = Raises (ValueError "Semaphore initial value must be >= 0")) /\
  (file_paths <> [] ->
   batch_optimize getsize optimize_image_m file_paths quality max_width max_height
     convert_to_webp 0 = Hangs) /\
  (files <> [] -> upload_multiple upload_file_m files 0 = Hangs).
Proof.
  split; [|split].
  - intros H. unfold batch_optimize, upload_multiple, Semaphore.
    apply Z.ltb_lt in H. rewrite H. split; reflexivity.
  - intros H. destruct file_paths; [contradiction|]. reflexivity.
  - intros H. destruct files; [contradiction|]. reflexivity.
Qed.

(** C3. With at least one permit both runners return one result per item,
    in input order, and the result at an index is determined by the item at
    that index alone.  A fault of the operation on an item is replaced by a
    failure record with the stringified fault and the item's reference (the
    file path for [batch_optimize], the key for [upload_multiple]); the call
    itself returns. *)
Theorem runners_keep_one_result_per_item :
  forall (file_paths : list string) (files : list FileInfo) (max_concurrent : Z),
    1 <= max_concurrent ->
    exists optimized uploaded,
      batch_optimize getsize optimize_image_m file_paths quality max_width
        max_height convert_to_webp max_concurrent = Returns optimized /\
      upload_multiple upload_file_m files max_concurrent = Returns uploaded /\
      List.length optimized = List.length file_paths /\
      List.length uploaded = List.length files /\
      (forall i file_path, nth_error file_paths i = Some file_path ->
         exists d,
           nth_error optimized i = Some d /\
           o_file_path d = Some file_path /\
           optimize_single getsize optimize_image_m quality max_width max_height
             convert_to_webp file_path = inr d /\
           (forall e,
              is_supported_format file_path = true ->
              optimize_image_m file_path None quality max_width max_height
                convert_to_webp = inl e ->
              d = opt_failure file_path (str_exn e))) /\
      (forall i file_info, nth_error files i = Some file_info ->
         nth_error uploaded i
         = Some (match upload_single upload_file_m file_info with
                 | inr d => d
                 | inl e => upload_failure (str_exn e)
                              (get_default (fi_key file_info) "unknown")
                 end) /\
         (forall file_path key e,
            fi_file_path file_info = Some file_path ->
            fi_key file_info = Some key ->
            upload_file_m file_path key (fi_metadata file_info)
              (fi_content_type file_info) = inl e ->
            nth_error uploaded i = Some (upload_failure (str_exn e) key))).
Proof.
  intros file_paths files mc Hmc.
  eexists. eexists.
  split; [apply batch_optimize_settled; exact Hmc|].
  split; [apply upload_multiple_settled; exact Hmc|].
  split; [apply length_map|]. split; [apply length_map|]. split.
  - intros i fp Hi.
    destruct (optimize_single_returns fp) as (d & Hd & Hfp & _).
    exists d. rewrite nth_error_map, Hi. simpl.
    split; [rewrite Hd; reflexivity|]. split; [exact Hfp|]. split; [exact Hd|].
    intros e Hsup He. unfold optimize_single in Hd.
    rewrite Hsup, He in Hd. simpl in Hd. injection Hd as <-. reflexivity.
  - intros i fi Hi. rewrite nth_error_map, Hi. simpl.
    split; [reflexivity|].
    intros fp key e Hfp Hkey He. unfold upload_single.
    rewrite Hfp, Hkey. simpl. rewrite He. reflexivity.
Qed.

End Runners.

Lemma runners_keep_one_result_per_item_witness :
  exists optimized uploaded,
    batch_optimize (w_getsize sample_world)
      (optimize_image (w_with_suffix sample_world) (w_process_image sample_world))
      ["a.png"; "broken.png"; "c.png"] 80 1920 1080 false 2 = Returns optimized /\
    upload_multiple (fun _ _ _ _ => inl (Exception "connection reset"))
      [mk_file_info (Some "a.png") (Some "k1") None None;
       mk_file_info None (Some "k2") None None] 2 = Returns uploaded /\
    nth_error optimized 1
    = Some (opt_failure "broken.png" "cannot identify image file") /\
    uploaded = [upload_failure "connection reset" "k1";
                upload_failure "'file_path'" "k2"].
Proof.
  destruct (runners_keep_one_result_per_item (w_getsize sample_world)
              (optimize_image (w_with_suffix sample_world) (w_process_image sample_world))
              (fun _ _ _ _ => inl (Exception "connection reset"))
              80 1920 1080 false
              ["a.png"; "broken.png"; "c.png"]
              [mk_file_info (Some "a.png") (Some "k1") None None;
               mk_file_info None (Some "k2") None None] 2 ltac:(lia))
    as (optimized & uploaded & Ho & Hu & _ & _ & Hopt & _).
  exists optimized, uploaded.
  split; [exact Ho|]. split; [exact Hu|]. split.
  - destruct (Hopt 1%nat "broken.png" eq_refl) as (d & Hd & _ & _ & Hfail).
    rewrite Hd. f_equal. apply (Hfail (Exception "cannot identify image file"));
      vm_compute; reflexivity.
  - vm_compute in Hu. injection Hu as <-. reflexivity.
Defined.

(** ** The batch orchestrator: counts *)

Lemma zlength_append {A : Type} (l : list A) (x : A) :
  zlength (append l x) = zlength l + 1.
Proof. unfold zlength, append. rewrite length_app. simpl. lia. Qed.

Lemma length_append {A : Type} (l : list A) (x : A) :
  List.length (append l x) = S (List.length l).
Proof. unfold append. rewrite length_app. simpl. lia. Qed.

Lemma filter_append {A : Type} (f : A -> bool) (l : list A) (x : A) :
  filter f (append l x) = (filter f l ++ (if f x then [x] else []))%list.
Proof. unfold append. rewrite filter_app. reflexivity. Qed.

(** What the loop "Process results" adds to its accumulators. *)
Lemma process_results_tally (file_paths processed_files : list string) :
  forall (uploaded : list UploadResult) (i : nat) (acc t : Tally),
    process_results file_paths processed_files i uploaded acc = inr t ->
    zlength (t_urls t) - t_successful t = zlength (t_urls acc) - t_successful acc /\
    t_successful acc <= t_successful t /\
    List.length (t_detailed t)
    = (List.length (t_detailed acc) + List.length uploaded)%nat /\
    List.length (t_errors t)
    = (List.length (t_errors acc)
       + List.length (filter (fun u => negb (u_success u)) uploaded))%nat /\
    List.length (filter (fun d => negb (d_success d)) (t_detailed t))
    = (List.length (filter (fun d => negb (d_success d)) (t_detailed acc))
       + List.length (filter (fun u => negb (u_success u)) uploaded))%nat /\
    t_successful t - t_successful acc
    = Z.of_nat (List.length uploaded)
      - Z.of_nat (List.length (filter (fun u => negb (u_success u)) uploaded)).
Proof.
  induction uploaded as [|u rest IH]; intros i acc t H; simpl in H.
  - injection H as <-. simpl. repeat split; lia.
  - destruct (u_success u) eqn:Hu.
    + destruct (getitem "url" (u_url u)) as [e|url]; [discriminate|].
      destruct (if (i <? List.length file_paths)%nat then index file_paths i
                else index processed_files i) as [e|fp]; [discriminate|].
      apply IH in H. simpl in H. rewrite zlength_append, length_append, filter_append in H.
      simpl in H. rewrite app_nil_r in H.
      cbn [List.length filter]. rewrite Hu. cbn [negb List.length].
      rewrite ?Nat2Z.inj_succ. repeat split; lia.
    + destruct (index file_paths i) as [e|fp0]; [discriminate|].
      match type of H with
      | match ?x with _ => _ end = _ => destruct x as [e|fp]; [discriminate|]
      end.
      apply IH in H. simpl in H. rewrite !length_append, filter_append in H.
      simpl in H. rewrite length_app in H. simpl in H.
      cbn [List.length filter]. rewrite Hu. cbn [negb List.length].
      rewrite ?Nat2Z.inj_succ. repeat split; lia.
Qed.

Section Orchestrator.

Variable s3_client : option S3ClientObj.
Variable image_processor : option ImageProcessorObj.
Variable exists_ : string -> bool.
Variable elapsed : Q.
Variable file_paths : list string.
Variable bucket : string.
Variable folder_prefix : option string.
Variable optimize : bool.
Variables quality max_concurrent : Z.

Local Abbreviation batch :=
  (batch_upload_images s3_client image_processor exists_ elapsed file_paths bucket
     folder_prefix optimize quality max_concurrent).

(** What every response of a batch satisfies. *)
Local Abbreviation consistent r :=
  (success r = (0 <? successful_uploads r) /\
   successful_uploads r + failed_uploads r = total_files r /\
   total_files r = zlength file_paths /\
   zlength (urls r) = successful_uploads r).

Lemma upload_phase_consistent (s3 : S3ClientObj) (processed_files errs : list string)
    (stats : option Stats) (r : BatchUploadResponse) :
  upload_phase elapsed s3 file_paths folder_prefix optimize quality max_concurrent
    processed_files errs stats = Returns r ->
  consistent r.
Proof.
  unfold upload_phase. destruct (is_nil processed_files).
  { intros H. injection H as <-. simpl. repeat split; lia. }
  destruct (sc_upload_multiple s3 _ max_concurrent) as [rs|e|]; simpl;
    [|discriminate|discriminate].
  destruct (process_results file_paths processed_files 0 rs _) as [e|t] eqn:Ht; simpl;
    [discriminate|].
  intros H. injection H as <-. simpl.
  apply process_results_tally in Ht. simpl in Ht.
  change (zlength (@nil string)) with 0 in Ht. repeat split; lia.
Qed.

Lemma batch_consistent (r : BatchUploadResponse) : batch = Returns r -> consistent r.
Proof.
  unfold batch_upload_images.
  destruct s3_client as [s3|]; simpl;
    [|intros H; injection H as <-; simpl; repeat split; lia].
  destruct image_processor as [ip|]; simpl;
    [|intros H; injection H as <-; simpl; repeat split; lia].
  destruct (filter_valid_files exists_ ip file_paths) as [valid errs].
  destruct (is_nil valid).
  { simpl. intros H. injection H as <-. simpl. repeat split; lia. }
  destruct (optimize_phase ip valid errs optimize quality max_concurrent)
    as [[[processed errs'] stats]|e|]; simpl.
  - destruct (upload_phase elapsed s3 file_paths folder_prefix optimize quality
                max_concurrent processed errs' stats) as [r0|e|] eqn:Hup; simpl.
    + intros H. injection H as <-. exact (upload_phase_consistent _ _ _ _ _ Hup).
    + intros H. injection H as <-. simpl. repeat split; lia.
    + discriminate.
  - intros H. injection H as <-. simpl. repeat split; lia.
  - discriminate.
Qed.


Lemma optimize_phase_answers (ip : ImageProcessorObj) (valid errs : list string) :
  (forall files, ip_batch_optimize ip files quality max_concurrent <> Hangs) ->
  optimize_phase ip valid errs optimize quality max_concurrent <> Hangs.
Proof.
  intros H. unfold optimize_phase. destruct optimize; [|discriminate].
  destruct (ip_batch_optimize ip valid quality max_concurrent) as [rs|e|] eqn:E.
  - destruct (update_paths rs [] errs) as [errs' [e|p]]; discriminate.
  - discriminate.
  - exfalso. exact (H _ E).
Qed.

Lemma upload_phase_answers (s3 : S3ClientObj) (processed errs : list string)
    (stats : option Stats) :
  (forall tasks, sc_upload_multiple s3 tasks max_concurrent <> Hangs) ->
  upload_phase elapsed s3 file_paths folder_prefix optimize quality max_concurrent
    processed errs stats <> Hangs.
Proof.
  intros H. unfold upload_phase. destruct (is_nil processed); [discriminate|].
  destruct (sc_upload_multiple s3 _ max_concurrent) as [rs|e|] eqn:E; simpl.
  - destruct (process_results file_paths processed 0 rs _); discriminate.
  - discriminate.
  - exfalso. exact (H _ E).
Qed.

(** When the two runners answer, so does the batch. *)
Lemma batch_answers :
  (forall ip files, image_processor = Some ip ->
     ip_batch_optimize ip files quality max_concurrent <> Hangs) ->
  (forall s3 tasks, s3_client = Some s3 ->
     sc_upload_multiple s3 tasks max_concurrent <> Hangs) ->
  exists r, batch = Returns r.
Proof.
  intros Hip Hs3. unfold batch_upload_images.
  destruct s3_client as [s3|]; simpl; [|eexists; reflexivity].
  destruct image_processor as [ip|]; simpl; [|eexists; reflexivity].
  destruct (filter_valid_files exists_ ip file_paths) as [valid errs].
  destruct (is_nil valid); simpl; [eexists; reflexivity|].
  pose proof (optimize_phase_answers ip valid errs (fun fs => Hip ip fs eq_refl)) as Ho.
  destruct (optimize_phase ip valid errs optimize quality max_concurrent)
    as [[[processed errs'] stats]|e|]; simpl;
    [|eexists; reflexivity|contradiction].
  pose proof (upload_phase_answers s3 processed errs' stats
                (fun ts => Hs3 s3 ts eq_refl)) as Hu.
  destruct (upload_phase elapsed s3 file_paths folder_prefix optimize quality
              max_concurrent processed errs' stats) as [r0|e|]; simpl;
    [eexists; reflexivity|eexists; reflexivity|contradiction].
Qed.

End Orchestrator.

(** The instances of the server answer whenever the limit is positive. *)
Lemma served_runners_answer (w : World) (self : S3Client) (quality max_concurrent : Z) :
  1 <= max_concurrent ->
  (forall ip files, Some (real_image_processor w) = Some ip ->
     ip_batch_optimize ip files quality max_concurrent <> Hangs) /\
  (forall s3 tasks, Some (real_s3_client w self) = Some s3 ->
     sc_upload_multiple s3 tasks max_concurrent <> Hangs).
Proof.
  intros H. split.
  - intros ip files [= <-]. simpl. rewrite batch_optimize_settled by exact H. discriminate.
  - intros s3 tasks [= <-]. simpl. rewrite upload_multiple_settled by exact H. discriminate.
Qed.

Lemma no_valid_files_nothing_uploaded
    (s3 : S3ClientObj) (ip : ImageProcessorObj) (exists_ : string -> bool) (elapsed : Q)
    (file_paths : list string) (bucket : string) (folder_prefix : option string)
    (optimize : bool) (quality max_concurrent : Z) :
  fst (filter_valid_files exists_ ip file_paths) = [] ->
  batch_upload_images (Some s3) (Some ip) exists_ elapsed file_paths bucket
    folder_prefix optimize quality max_concurrent
  = Returns (nothing_uploaded file_paths (snd (filter_valid_files exists_ ip file_paths)) None).
Proof.
  unfold batch_upload_images. simpl.
  destruct (filter_valid_files exists_ ip file_paths) as [valid errs]. simpl.
  intros ->. reflexivity.
Qed.

(** C7. The success flag of a batch response is true exactly when at
    least one upload succeeded: on every return path, for every pair of
    collaborators that answer.  Two uploads out of three give success; a
    request none of whose items survives filtering gives failure. *)
Theorem batch_success_iff_some_upload :
  (forall s3_client image_processor exists_ elapsed file_paths bucket folder_prefix
          optimize quality max_concurrent,
     (forall ip files, image_processor = Some ip ->
        ip_batch_optimize ip files quality max_concurrent <> Hangs) ->
     (forall s3 tasks, s3_client = Some s3 ->
        sc_upload_multiple s3 tasks max_concurrent <> Hangs) ->
     exists r,
       batch_upload_images s3_client image_processor exists_ elapsed file_paths bucket
         folder_prefix optimize quality max_concurrent = Returns r /\
       (success r = true <-> 0 < successful_uploads r)) /\
  (forall s3 ip exists_ elapsed file_paths bucket folder_prefix optimize quality
          max_concurrent,
     fst (filter_valid_files exists_ ip file_paths) = [] ->
     exists r,
       batch_upload_images (Some s3) (Some ip) exists_ elapsed file_paths bucket
         folder_prefix optimize quality max_concurrent = Returns r /\
       success r = false /\ successful_uploads r = 0 /\
       failed_uploads r = zlength file_paths) /\
  (exists r,
     served_batch_upload sample_world sample_s3 (Qmake 1 1)
       ["a.png"; "reject.png"; "c.png"] "test-bucket" None false 80 5 = Returns r /\
     successful_uploads r = 2 /\ failed_uploads r = 1 /\ success r = true).
Proof.
  split; [|split].
  - intros s3c ipc ex el fps b fp o q mc Hip Hs3.
    destruct (batch_answers s3c ipc ex el fps b fp o q mc Hip Hs3) as [r Hr].
    exists r. split; [exact Hr|].
    destruct (batch_consistent _ _ _ _ _ _ _ _ _ _ r Hr) as (Hs & _).
    rewrite Hs. apply Z.ltb_lt.
  - intros s3 ip ex el fps b fp o q mc Hnone.
    eexists. split; [apply no_valid_files_nothing_uploaded; exact Hnone|].
    simpl. repeat split; reflexivity.
  - eexists. split; [vm_compute; reflexivity|]. simpl. repeat split; reflexivity.
Qed.

Lemma batch_success_iff_some_upload_witness :
  exists r,
    served_batch_upload sample_world sample_s3 (Qmake 1 1)
      ["missing.png"; "b.png"] "test-bucket" (Some "img") true 80 5 = Returns r /\
    (success r = true <-> 0 < successful_uploads r).
Proof.
  apply (proj1 batch_success_iff_some_upload);
    apply (served_runners_answer sample_world sample_s3 80 5); lia.
Defined.

(** C10. Every response of [batch_upload_images], whichever return built
    it (the two early returns, the final return, the handler of unexpected
    faults), reports [successful_uploads + failed_uploads = total_files],
    [total_files = len(file_paths)] and as many URLs as successful uploads;
    no fault leaves the call. *)
Theorem batch_response_counts :
  forall s3_client image_processor exists_ elapsed file_paths bucket folder_prefix
         optimize quality max_concurrent,
    (forall ip files, image_processor = Some ip ->
       ip_batch_optimize ip files quality max_concurrent <> Hangs) ->
    (forall s3 tasks, s3_client = Some s3 ->
       sc_upload_multiple s3 tasks max_concurrent <> Hangs) ->
    exists r,
      batch_upload_images s3_client image_processor exists_ elapsed file_paths bucket
        folder_prefix optimize quality max_concurrent = Returns r /\
      successful_uploads r + failed_uploads r = total_files r /\
      total_files r = zlength file_paths /\
      zlength (urls r) = successful_uploads r.
Proof.
  intros s3c ipc ex el fps b fp o q mc Hip Hs3.
  destruct (batch_answers s3c ipc ex el fps b fp o q mc Hip Hs3) as [r Hr].
  exists r. split; [exact Hr|].
  destruct (batch_consistent _ _ _ _ _ _ _ _ _ _ r Hr) as (_ & H1 & H2 & H3).
  repeat split; assumption.
Qed.

Lemma batch_response_counts_witness :
  (exists r,
     served_batch_upload sample_world sample_s3 (Qmake 1 1)
       ["a.png"; "broken.png"; "reject.png"; "notes.txt"] "test-bucket" None true 80 5
     = Returns r /\
     successful_uploads r + failed_uploads r = total_files r /\
     total_files r = 4 /\ zlength (urls r) = successful_uploads r) /\
  (exists r,
     batch_upload_images None None (fun _ => true) (Qmake 1 1) ["a.png"] "test-bucket"
       None true 80 5 = Returns r /\
     successful_uploads r + failed_uploads r = total_files r /\
     total_files r = 1 /\ zlength (urls r) = successful_uploads r).
Proof.
  split.
  - apply (batch_response_counts (Some (real_s3_client sample_world sample_s3))
             (Some (real_image_processor sample_world)));
      apply (served_runners_answer sample_world sample_s3 80 5); lia.
  - apply (batch_response_counts None None); intros; discriminate.
Defined.

(** ** The batch orchestrator: a fault of the whole optimize phase *)

Lemma filter_valid_files_lengths (exists_ : string -> bool) (ip : ImageProcessorObj)
    (file_paths : list string) :
  (List.length (fst (filter_valid_files exists_ ip file_paths))
   + List.length (snd (filter_valid_files exists_ ip file_paths)))%nat
  = List.length file_paths.
Proof.
  induction file_paths as [|fp rest IH]; [reflexivity|]. simpl.
  destruct (filter_valid_files exists_ ip rest) as [valid errs]. simpl in IH.
  destruct (negb (exists_ fp)); [simpl; lia|].
  destruct (negb (ip_is_supported_format ip fp)); simpl; lia.
Qed.

Lemma prepare_upload_tasks_paths (s3 : S3ClientObj) (file_paths : list string)
    (folder_prefix : option string) (optimize : bool) (quality : Z) :
  forall (processed_files : list string) (i : nat),
    map fi_file_path
      (prepare_upload_tasks s3 file_paths folder_prefix optimize quality i processed_files)
    = map Some processed_files.
Proof.
  induction processed_files as [|fp rest IH]; intros i; [reflexivity|].
  simpl. rewrite IH. reflexivity.
Qed.

Lemma index_in_range {A : Type} (xs : list A) (i : nat) :
  (i < List.length xs)%nat -> exists x, index xs i = inr x.
Proof.
  intros H. unfold index. destruct (nth_error xs i) as [x|] eqn:E.
  - exists x. reflexivity.
  - apply nth_error_None in E. lia.
Qed.

(** The loop "Process results" when every upload succeeded. *)
Lemma process_results_all_succeed (file_paths processed_files : list string) :
  forall (uploaded : list UploadResult) (i : nat) (acc : Tally),
    Forall (fun u => u_success u = true /\ u_url u <> None) uploaded ->
    (i + List.length uploaded <= List.length file_paths)%nat ->
    exists t,
      process_results file_paths processed_files i uploaded acc = inr t /\
      t_successful t = t_successful acc + zlength uploaded /\
      t_errors t = t_errors acc.
Proof.
  induction uploaded as [|u rest IH]; intros i acc Hall Hlen.
  - exists acc. unfold zlength. simpl. repeat split; lia.
  - inversion Hall as [|u' rest' [Hs Hurl] Hrest]; subst. simpl in Hlen.
    simpl. rewrite Hs. destruct (u_url u) as [url|]; [|contradiction]. simpl.
    assert (Hi : (i <? List.length file_paths)%nat = true) by (apply Nat.ltb_lt; lia).
    rewrite Hi. destruct (index_in_range file_paths i) as [fp Hfp]; [lia|].
    rewrite Hfp.
    destruct (IH (S i)
                (mk_tally (append (t_urls acc) url) (t_successful acc + 1) (t_errors acc)
                   (append (t_detailed acc)
                      (mk_detail fp true (Some url) (u_error u) (u_key u))))
                Hrest ltac:(lia)) as (t & Ht & Hsucc & Herr).
    exists t. split; [exact Ht|]. simpl in Hsucc, Herr.
    split; [|exact Herr]. rewrite Hsucc. unfold zlength. cbn [List.length]. lia.
Qed.



(** ** The batch orchestrator: detail entries and original inputs *)

(** A result of [batch_optimize] the loop of the orchestrator can read. *)
Local Abbreviation readable d :=
  (o_file_path d <> None /\ (o_success d = true -> o_output_path d <> None)).

Lemma real_batch_optimize_readable (w : World) (files : list string)
    (quality max_concurrent : Z) :
  1 <= max_concurrent ->
  exists rs,
    ip_batch_optimize (real_image_processor w) files quality max_concurrent
    = Returns rs /\
    List.length rs = List.length files /\
    Forall (fun d => readable d) rs.
Proof.
  intros H. simpl. rewrite batch_optimize_settled by exact H.
  eexists. split; [reflexivity|]. split; [apply length_map|].
  apply Forall_forall. intros d Hd. apply in_map_iff in Hd.
  destruct Hd as (fp & <- & _).
  destruct (optimize_single_returns (w_getsize w)
              (optimize_image (w_with_suffix w) (w_process_image w))
              quality DEFAULT_MAX_WIDTH DEFAULT_MAX_HEIGHT false fp)
    as (d & Hd & Hfp & Hout).
  rewrite Hd. split.
  - rewrite Hfp. discriminate.
  - intros Hs. destruct (Hout Hs) as [out ->]. discriminate.
Qed.

(** On readable results the loop over the optimization results ends
    without a fault; an item goes either to the working files or to the
    errors. *)
Lemma update_paths_readable :
  forall (rs : list OptResult) (processed errs : list string),
    Forall (fun d => readable d) rs ->
    exists processed' errs',
      update_paths rs processed errs = (errs', inr processed') /\
      List.length processed'
      = (List.length processed + List.length (filter o_success rs))%nat /\
      (List.length processed' + List.length errs'
       = List.length processed + List.length errs + List.length rs)%nat.
Proof.
  induction rs as [|d rest IH]; intros processed errs Hall.
  - exists processed, errs. simpl. repeat split; lia.
  - inversion Hall as [|d' rest' [Hfp Hout] Hrest]; subst. simpl.
    destruct (o_success d) eqn:Hs.
    + destruct (o_output_path d) as [out|]; [|exfalso; apply (Hout eq_refl); reflexivity].
      simpl. destruct (IH (append processed out) errs Hrest) as (p' & e' & Hup & Hl1 & Hl2).
      exists p', e'. rewrite length_append in Hl1, Hl2.
      split; [exact Hup|]. simpl. split; lia.
    + destruct (o_file_path d) as [fp|]; [|contradiction]. simpl.
      destruct (IH processed
                  (append errs ("Optimization failed for " ++ fp ++ ": "
                                ++ get_default (o_error d) "Unknown error")) Hrest)
        as (p' & e' & Hup & Hl1 & Hl2).
      exists p', e'. rewrite length_append in Hl2.
      split; [exact Hup|]. split; lia.
Qed.

Lemma upload_file_url (self : S3Client) (getsize : string -> result Z)
    (transfer : string -> string -> string -> dict -> string -> string -> result unit)
    (now : datetime) (file_path key : string) (metadata : option dict)
    (content_type : option string) (uploaded : UploadResult) :
  upload_file self getsize transfer now file_path key metadata content_type
  = inr uploaded ->
  u_success uploaded = true -> u_url uploaded <> None.
Proof.
  assert (Hh : forall e, upload_file_handlers key e = inr uploaded ->
                         u_success uploaded = true -> u_url uploaded <> None).
  { intros e. unfold upload_file_handlers.
    destruct e as [m|k|m|m|m|t [[m|]|]|m]; intros [= <-]; discriminate. }
  unfold upload_file. destruct (getsize file_path) as [e|sz]; [apply Hh|].
  destruct (transfer _ _ _ _ _ _) as [e|u]; [apply Hh|].
  intros [= <-]. discriminate.
Qed.

Lemma real_upload_multiple_urls (w : World) (self : S3Client) (tasks : list FileInfo)
    (max_concurrent : Z) :
  1 <= max_concurrent ->
  exists us,
    sc_upload_multiple (real_s3_client w self) tasks max_concurrent = Returns us /\
    List.length us = List.length tasks /\
    Forall (fun u => u_success u = true -> u_url u <> None) us.
Proof.
  intros H. simpl. rewrite upload_multiple_settled by exact H.
  eexists. split; [reflexivity|]. split; [apply length_map|].
  apply Forall_forall. intros u Hu. apply in_map_iff in Hu.
  destruct Hu as (fi & <- & _). unfold upload_single.
  destruct (fi_file_path fi) as [fp|]; simpl; [|discriminate].
  destruct (fi_key fi) as [k|]; simpl; [|discriminate].
  destruct (upload_file self (w_getsize w) (w_transfer w) (w_upload_clock w k) fp k
              (fi_metadata fi) (fi_content_type fi)) as [e|u] eqn:Hu;
    [discriminate|].
  exact (upload_file_url _ _ _ _ _ _ _ _ _ Hu).
Qed.

Lemma process_results_succeeds (file_paths processed_files : list string) :
  forall (uploaded : list UploadResult) (i : nat) (acc : Tally),
    Forall (fun u => u_success u = true -> u_url u <> None) uploaded ->
    (i + List.length uploaded <= List.length file_paths)%nat ->
    exists t, process_results file_paths processed_files i uploaded acc = inr t.
Proof.
  induction uploaded as [|u rest IH]; intros i acc Hall Hlen.
  - exists acc. reflexivity.
  - inversion Hall as [|u' rest' Hurl Hrest]; subst. simpl in Hlen. simpl.
    assert (Hi : (i <? List.length file_paths)%nat = true) by (apply Nat.ltb_lt; lia).
    rewrite Hi. destruct (index_in_range file_paths i) as [fp Hfp]; [lia|].
    rewrite Hfp. destruct (u_success u).
    + destruct (u_url u) as [url|]; [|exfalso; apply (Hurl eq_refl); reflexivity].
      simpl. apply IH; [exact Hrest|lia].
    + apply IH; [exact Hrest|lia].
Qed.

Lemma length_prepare_upload_tasks (s3 : S3ClientObj) (file_paths : list string)
    (folder_prefix : option string) (optimize : bool) (quality : Z)
    (i : nat) (processed_files : list string) :
  List.length
    (prepare_upload_tasks s3 file_paths folder_prefix optimize quality i processed_files)
  = List.length processed_files.
Proof.
  rewrite <- (length_map fi_file_path), prepare_upload_tasks_paths. apply length_map.
Qed.

(** The upload phase of the server: one detail entry per working file, one
    more error per failed upload. *)
Lemma served_upload_phase (w : World) (self : S3Client) (elapsed : Q)
    (file_paths : list string) (folder_prefix : option string) (optimize : bool)
    (quality max_concurrent : Z) (processed errs : list string) (stats : option Stats) :
  1 <= max_concurrent ->
  (List.length processed <= List.length file_paths)%nat ->
  exists r,
    upload_phase elapsed (real_s3_client w self) file_paths folder_prefix optimize
      quality max_concurrent processed errs stats = Returns r /\
    List.length (results r) = List.length processed /\
    List.length (errors r)
    = (List.length errs
       + List.length (filter (fun d => negb (d_success d)) (results r)))%nat /\
    Z.of_nat (List.length (results r))
    = zlength (urls r)
      + Z.of_nat (List.length (filter (fun d => negb (d_success d)) (results r))).
Proof.
  intros Hmc Hlen. unfold upload_phase.
  destruct processed as [|p0 ps] eqn:Hp.
  { eexists. split; [reflexivity|]. simpl. repeat split; lia. }
  rewrite <- Hp in *. replace (is_nil processed) with false by (rewrite Hp; reflexivity).
  destruct (real_upload_multiple_urls w self
              (prepare_upload_tasks (real_s3_client w self) file_paths folder_prefix
                 optimize quality 0 processed) max_concurrent Hmc)
    as (us & Hus & Hlus & Hurls).
  rewrite length_prepare_upload_tasks in Hlus.
  rewrite Hus. cbn [bind].
  destruct (process_results_succeeds file_paths processed us 0 (mk_tally [] 0 errs [])
              Hurls ltac:(simpl; lia)) as (t & Ht).
  rewrite Ht. cbn [lift bind]. eexists. split; [reflexivity|].
  apply process_results_tally in Ht. cbn [t_urls t_successful t_errors t_detailed] in Ht.
  change (zlength (@nil string)) with 0 in Ht.
  cbn [results errors urls]. cbn [List.length filter] in Ht.
  destruct Ht as (H1 & H2 & H3 & H4 & H5 & H6). repeat split; lia.
Qed.

(** C1 fails on the code: the detail list is built from the upload
    results alone.  Of two inputs, one of them absent, it has a single
    entry, a success, and no failure entry for the absent file, which is
    only named in [errors]. *)
Lemma detail_list_shorter_than_request :
  exists r,
    served_batch_upload sample_world sample_s3 (Qmake 1 1) ["missing.png"; "b.png"]
      "test-bucket" None false 80 5 = Returns r /\
    List.length (results r) <> List.length ["missing.png"; "b.png"] /\
    Forall (fun d => d_success d = true) (results r) /\
    errors r = ["File not found: missing.png"].
Proof.
  eexists. split; [vm_compute; reflexivity|]. simpl.
  split; [discriminate|]. split; [|reflexivity].
  repeat constructor.
Qed.

(** X20. The lengths of the lists in a batch response.  Served with a
    positive concurrency limit, a batch answers, and its detail list has as
    many entries as working files were handed to the upload phase: the
    valid files without optimization, the successful optimizations with
    it, never more than the request has files.  The entries and the error
    messages together number the input files plus the failed entries, and
    the entries number the URLs plus the failed entries. *)
Theorem detail_entries_and_errors_account_for_inputs :
  forall (w : World) (self : S3Client) (elapsed : Q) (file_paths : list string)
         (bucket : string) (folder_prefix : option string) (optimize : bool)
         (quality max_concurrent : Z),
    1 <= max_concurrent ->
    let ip := real_image_processor w in
    let valid_files := fst (filter_valid_files (w_exists w) ip file_paths) in
    let failed (d : DetailedResult) := negb (d_success d) in
    exists r,
      served_batch_upload w self elapsed file_paths bucket folder_prefix optimize
        quality max_concurrent = Returns r /\
      (List.length (results r) <= List.length file_paths)%nat /\
      (List.length (results r) + List.length (errors r)
       = List.length file_paths + List.length (filter failed (results r)))%nat /\
      Z.of_nat (List.length (results r))
      = zlength (urls r) + Z.of_nat (List.length (filter failed (results r))) /\
      (optimize = false -> List.length (results r) = List.length valid_files) /\
      (optimize = true ->
       exists rs,
         ip_batch_optimize ip valid_files quality max_concurrent = Returns rs /\
         List.length rs = List.length valid_files /\
         List.length (results r) = List.length (filter o_success rs)).
Proof.
  intros w self el fps b fp o q mc Hmc ip valid failed.
  pose proof (filter_valid_files_lengths (w_exists w) ip fps) as L.
  destruct (real_batch_optimize_readable w valid q mc Hmc) as (rs & Hrs & Hlrs & Hread).
  fold ip in Hrs.
  unfold served_batch_upload, batch_upload_images. cbn [require bind]. fold ip.
  unfold valid in *. destruct (filter_valid_files (w_exists w) ip fps) as [v errs].
  cbn [fst snd] in *.
  destruct v as [|v0 vs] eqn:Hv.
  { cbn [is_nil try_except]. eexists. split; [reflexivity|].
    cbn [results errors urls nothing_uploaded List.length filter].
    simpl in L. unfold zlength. simpl.
    split; [lia|]. split; [lia|]. split; [reflexivity|]. split; [reflexivity|].
    intros _. exists rs. split; [exact Hrs|]. split; [exact Hlrs|].
    destruct rs; [reflexivity|discriminate]. }
  rewrite <- Hv in *. replace (is_nil v) with false by (rewrite Hv; reflexivity).
  unfold optimize_phase. destruct o.
  - rewrite Hrs.
    destruct (update_paths_readable rs [] errs Hread) as (p' & e' & Hup & Hl1 & Hl2).
    rewrite Hup. cbn [bind].
    destruct (served_upload_phase w self el fps fp true q mc p' e'
                (Some (ip_get_optimization_stats ip rs)) Hmc)
      as (r & Hr & Hres & Herr & Hurl).
    { simpl in Hl2. lia. }
    rewrite Hr. cbn [try_except]. exists r. split; [reflexivity|].
    simpl in Hl1, Hl2.
    split; [lia|]. split; [unfold failed; lia|]. split; [exact Hurl|].
    split; [discriminate|]. intros _. exists rs.
    split; [reflexivity|]. split; [exact Hlrs|]. lia.
  - cbn [bind].
    destruct (served_upload_phase w self el fps fp false q mc v errs None Hmc)
      as (r & Hr & Hres & Herr & Hurl).
    { lia. }
    rewrite Hr. cbn [try_except]. exists r. split; [reflexivity|].
    split; [lia|]. split; [unfold failed; lia|]. split; [exact Hurl|].
    split; [intros _; exact Hres|discriminate].
Qed.

Lemma detail_entries_and_errors_account_for_inputs_witness :
  exists r,
    served_batch_upload sample_world sample_s3 (Qmake 1 1)
      ["a.png"; "broken.png"; "reject.png"; "notes.txt"] "test-bucket" None true 80 5
    = Returns r /\
    (List.length (results r) <= 4)%nat /\
    (List.length (results r) + List.length (errors r)
     = 4 + List.length (filter (fun d => negb (d_success d)) (results r)))%nat.
Proof.
  destruct (detail_entries_and_errors_account_for_inputs sample_world sample_s3
              (Qmake 1 1) ["a.png"; "broken.png"; "reject.png"; "notes.txt"]
              "test-bucket" None true 80 5 ltac:(lia))
    as (r & Hr & Hle & Hsum & _).
  exists r. split; [exact Hr|]. split; [exact Hle|exact Hsum].
Defined.

(** C2 fails on the code: the original that a working file is paired
    with is the input at the working file's position.  With
    [missing.png] filtered out, the only working file [b.png] is uploaded
    with [original_file] [missing.png], and its detail entry reports
    [missing.png] as uploaded. *)
Lemma original_file_taken_by_position :
  let file_paths := ["missing.png"; "b.png"] in
  let ip := real_image_processor sample_world in
  let s3 := real_s3_client sample_world sample_s3 in
  fst (filter_valid_files (w_exists sample_world) ip file_paths) = ["b.png"] /\
  map (fun task =>
         (fi_file_path task,
          dict_get (get_default (fi_metadata task) []) "original_file"))
    (prepare_upload_tasks s3 file_paths None false 80 0 ["b.png"])
  = [(Some "b.png", Some (VStr "missing.png"))] /\
  exists r,
    served_batch_upload sample_world sample_s3 (Qmake 1 1) file_paths "test-bucket"
      None false 80 5 = Returns r /\
    map (fun d => (d_file_path d, d_success d)) (results r) = [("missing.png", true)] /\
    urls r = ["https://test-bucket.s3.us-east-1.amazonaws.com/b_20240307_090502.png"].
Proof.
  split; [vm_compute; reflexivity|]. split; [vm_compute; reflexivity|].
  eexists. split; [vm_compute; reflexivity|]. split; reflexivity.
Qed.

(** ** Validation *)

(** C4 fails on the code: the tools never build the request models.  A
    batch with an empty bucket name and quality 0, which
    [BatchUploadRequest] rejects with a message for each fault, is
    optimized and uploaded, so is a single upload with quality 101, and an
    empty file list is answered without any error message. *)
Lemma unvalidated_requests_are_served :
  new_BatchUploadRequest (mk_batch_request ["a.png"] "" None true 0 5)
  = inl ["Value error, Bucket name cannot be empty";
         "Input should be greater than or equal to 1"] /\
  (exists r,
     served_batch_upload sample_world sample_s3 (Qmake 1 1) ["a.png"] "" None true 0 5
     = Returns r /\
     success r = true /\ errors r = [] /\
     urls r = ["https://test-bucket.s3.us-east-1.amazonaws.com/aoptimized_20240307_090502.png"]) /\
  (exists r,
     served_upload sample_world sample_s3 (Qmake 1 1) "a.png" "" None true 101 None
     = Returns r /\
     r_success r = true /\ r_error r = None) /\
  (exists r,
     served_batch_upload sample_world sample_s3 (Qmake 1 1) [] "test-bucket" None true 80 5
     = Returns r /\
     success r = false /\ errors r = []).
Proof.
  split; [vm_compute; reflexivity|].
  split; [|split]; eexists; (split; [vm_compute; reflexivity|]);
    simpl; repeat split; reflexivity.
Qed.

Lemma rejected_with {A : Type} (problems : list string) (x : string) (ok : A) :
  In x problems -> (if is_nil problems then inr ok else inl problems) = inl problems.
Proof. destruct problems; [contradiction|reflexivity]. Qed.

Lemma blank_rejected (v : string) (msg : string) :
  nonempty (strip v) = false ->
  (if negb (nonempty v) || negb (nonempty (strip v))
   then inl (ValueError msg) else inr (strip v))
  = inl (ValueError msg) :> result string.
Proof. intros ->. rewrite orb_true_r. reflexivity. Qed.

Lemma not_blank_accepted (v : string) (msg : string) :
  nonempty (strip v) = true ->
  (if negb (nonempty v) || negb (nonempty (strip v))
   then inl (ValueError msg) else inr (strip v))
  = inr (strip v) :> result string.
Proof.
  intros H. destruct v; [discriminate H|]. rewrite H. reflexivity.
Qed.

Lemma in_range_accepted (lo hi v : Z) : lo <= v <= hi -> check_range lo hi v = [].
Proof.
  intros [H1 H2]. unfold check_range.
  replace (v <? lo) with false by (symmetry; apply Z.ltb_ge; lia).
  replace (hi <? v) with false by (symmetry; apply Z.ltb_ge; lia).
  reflexivity.
Qed.

Lemma below_range_rejected (lo hi v : Z) :
  v < lo -> check_range lo hi v = ["Input should be greater than or equal to " ++ str_int lo].
Proof. intros H. unfold check_range. apply Z.ltb_lt in H. rewrite H. reflexivity. Qed.

Lemma above_range_rejected (lo hi v : Z) :
  lo <= hi -> hi < v ->
  check_range lo hi v = ["Input should be less than or equal to " ++ str_int hi].
Proof.
  intros Hlohi H. unfold check_range.
  replace (v <? lo) with false by (symmetry; apply Z.ltb_ge; lia).
  apply Z.ltb_lt in H. rewrite H. reflexivity.
Qed.

Lemma some_blank_path_rejected (paths : list string) :
  paths <> [] ->
  Exists (fun p => nonempty (strip p) = false) paths ->
  validate_file_paths paths = inl (ValueError "File path cannot be empty").
Proof.
  intros Hne Hex. unfold validate_file_paths.
  destruct paths as [|p0 ps]; [contradiction|]. cbn [is_nil].
  replace (forallb (fun path => nonempty path && nonempty (strip path)) (p0 :: ps))
    with false; [reflexivity|].
  symmetry. apply not_true_is_false. intros Hall.
  rewrite forallb_forall in Hall. apply Exists_exists in Hex.
  destruct Hex as (p & Hin & Hp). specialize (Hall p Hin).
  rewrite Hp, andb_false_r in Hall. discriminate.
Qed.

(** Nothing of a batch whose files are all absent reaches a collaborator. *)
Lemma absent_files_nothing_uploaded
    (s3 : S3ClientObj) (ip : ImageProcessorObj) (exists_ : string -> bool)
    (file_paths : list string) :
  Forall (fun p => exists_ p = false) file_paths ->
  filter_valid_files exists_ ip file_paths
  = ([], map (fun p => "File not found: " ++ p) file_paths).
Proof.
  induction 1 as [|p rest Hp Hrest IH]; [reflexivity|].
  simpl. rewrite IH, Hp. reflexivity.
Qed.

(** X21. What the request models reject.  [UploadRequest] rejects a blank
    file path, a blank bucket name and a quality outside 1-100, each with a
    message that names the fault, and accepts a request without these
    faults; [BatchUploadRequest] rejects an empty file list, a blank path
    in the list, a blank bucket name and a quality outside 1-100 likewise.
    The tools themselves answer an empty file path, or a batch whose files
    are all absent, with "File not found" and call no collaborator. *)
Theorem request_models_reject_invalid :
  (forall raw : UploadRequest,
     let problems := UploadRequest_problems raw in
     (nonempty (strip (q_file_path raw)) = false ->
      new_UploadRequest raw = inl problems /\
      In "Value error, File path cannot be empty" problems) /\
     (nonempty (strip (q_bucket_name raw)) = false ->
      new_UploadRequest raw = inl problems /\
      In "Value error, Bucket name cannot be empty" problems) /\
     (q_quality raw < 1 ->
      new_UploadRequest raw = inl problems /\
      In "Input should be greater than or equal to 1" problems) /\
     (100 < q_quality raw ->
      new_UploadRequest raw = inl problems /\
      In "Input should be less than or equal to 100" problems) /\
     (nonempty (strip (q_file_path raw)) = true ->
      nonempty (strip (q_bucket_name raw)) = true ->
      1 <= q_quality raw <= 100 ->
      exists request, new_UploadRequest raw = inr request)) /\
  (forall raw : BatchUploadRequest,
     let problems := BatchUploadRequest_problems raw in
     (b_file_paths raw = [] ->
      new_BatchUploadRequest raw = inl problems /\
      In "List should have at least 1 item after validation, not 0" problems) /\
     (Exists (fun p => nonempty (strip p) = false) (b_file_paths raw) ->
      new_BatchUploadRequest raw = inl problems /\
      In "Value error, File path cannot be empty" problems) /\
     (nonempty (strip (b_bucket_name raw)) = false ->
      new_BatchUploadRequest raw = inl problems /\
      In "Value error, Bucket name cannot be empty" problems) /\
     (b_quality raw < 1 ->
      new_BatchUploadRequest raw = inl problems /\
      In "Input should be greater than or equal to 1" problems) /\
     (100 < b_quality raw ->
      new_BatchUploadRequest raw = inl problems /\
      In "Input should be less than or equal to 100" problems)) /\
  (forall s3 ip exists_ elapsed bucket key optimize quality folder_prefix,
     exists_ "" = false ->
     upload_image_to_s3 (Some s3) (Some ip) exists_ elapsed "" bucket key optimize
       quality folder_prefix
     = Returns (upload_error_response "File not found: " None)) /\
  (forall s3 ip exists_ elapsed file_paths bucket folder_prefix optimize quality
          max_concurrent,
     Forall (fun p => exists_ p = false) file_paths ->
     batch_upload_images (Some s3) (Some ip) exists_ elapsed file_paths bucket
       folder_prefix optimize quality max_concurrent
     = Returns (nothing_uploaded file_paths
                  (map (fun p => "File not found: " ++ p) file_paths) None)).
Proof.
  split; [|split; [|split]].
  - intros raw problems.
    assert (Hrej : forall x, In x problems -> new_UploadRequest raw = inl problems /\ In x problems).
    { intros x Hx. split; [|exact Hx]. unfold new_UploadRequest. fold problems.
      apply rejected_with with (x := x). exact Hx. }
    split; [|split; [|split; [|split]]].
    + intros H. apply Hrej. unfold problems, UploadRequest_problems, validate_file_path.
      rewrite blank_rejected by exact H. left. reflexivity.
    + intros H. apply Hrej. unfold problems, UploadRequest_problems, validate_bucket_name.
      rewrite (blank_rejected (q_bucket_name raw)) by exact H.
      apply in_or_app. right. left. reflexivity.
    + intros H. apply Hrej. unfold problems, UploadRequest_problems.
      rewrite below_range_rejected by exact H.
      apply in_or_app. right. apply in_or_app. right. left. reflexivity.
    + intros H. apply Hrej. unfold problems, UploadRequest_problems.
      rewrite above_range_rejected by lia.
      apply in_or_app. right. apply in_or_app. right. left. reflexivity.
    + intros Hp Hb Hq. unfold new_UploadRequest, UploadRequest_problems,
        validate_file_path, validate_bucket_name.
      rewrite (not_blank_accepted (q_file_path raw)) by exact Hp.
      rewrite (not_blank_accepted (q_bucket_name raw)) by exact Hb.
      rewrite in_range_accepted by exact Hq. simpl. eexists. reflexivity.
  - intros raw problems.
    assert (Hrej : forall x, In x problems ->
                     new_BatchUploadRequest raw = inl problems /\ In x problems).
    { intros x Hx. split; [|exact Hx]. unfold new_BatchUploadRequest. fold problems.
      apply rejected_with with (x := x). exact Hx. }
    split; [|split; [|split; [|split]]].
    + intros H. apply Hrej. unfold problems, BatchUploadRequest_problems.
      rewrite H. left. reflexivity.
    + intros H. apply Hrej. unfold problems, BatchUploadRequest_problems.
      assert (Hne : b_file_paths raw <> []).
      { intros E. rewrite E in H. inversion H. }
      rewrite (some_blank_path_rejected _ Hne H).
      destruct (b_file_paths raw); [contradiction|]. left. reflexivity.
    + intros H. apply Hrej. unfold problems, BatchUploadRequest_problems,
        validate_bucket_name.
      rewrite (blank_rejected (b_bucket_name raw)) by exact H.
      apply in_or_app. right. left. reflexivity.
    + intros H. apply Hrej. unfold problems, BatchUploadRequest_problems.
      rewrite (below_range_rejected 1 100) by exact H.
      apply in_or_app. right. apply in_or_app. right. left. reflexivity.
    + intros H. apply Hrej. unfold problems, BatchUploadRequest_problems.
      rewrite (above_range_rejected 1 100) by lia.
      apply in_or_app. right. apply in_or_app. right. left. reflexivity.
  - intros s3 ip ex el b k o q fp H. unfold upload_image_to_s3. simpl.
    rewrite H. reflexivity.
  - intros s3 ip ex el fps b fp o q mc H. unfold batch_upload_images. simpl.
    rewrite (absent_files_nothing_uploaded s3 ip ex fps H). reflexivity.
Qed.

Lemma request_models_reject_invalid_witness :
  (new_BatchUploadRequest (mk_batch_request ["a.png"; "  "] "" None true 0 5)
   = inl ["Value error, File path cannot be empty";
          "Value error, Bucket name cannot be empty";
          "Input should be greater than or equal to 1"]) /\
  (exists request,
     new_UploadRequest (mk_upload_request " a.png " "bucket" None true 80 None)
     = inr request) /\
  batch_upload_images (Some (real_s3_client sample_world sample_s3))
    (Some (real_image_processor sample_world)) (w_exists sample_world) (Qmake 1 1)
    [""; "missing.png"] "test-bucket" None true 80 5
  = Returns (nothing_uploaded [""; "missing.png"]
               ["File not found: "; "File not found: missing.png"] None).
Proof.
  destruct request_models_reject_invalid as (Hup & Hbatch & _ & Habsent).
  split; [|split].
  - destruct (Hbatch (mk_batch_request ["a.png"; "  "] "" None true 0 5))
      as (_ & _ & Hbucket & _).
    destruct Hbucket as [Hnew _]; [vm_compute; reflexivity|].
    rewrite Hnew. vm_compute. reflexivity.
  - destruct (Hup (mk_upload_request " a.png " "bucket" None true 80 None))
      as (_ & _ & _ & _ & Hok).
    apply Hok; [vm_compute; reflexivity|vm_compute; reflexivity|simpl; lia].
  - apply Habsent. repeat constructor.
Defined.

(** ** File names *)

Lemma string_ind2 (P : string -> Prop) :
  P EmptyString ->
  (forall a, P (String a EmptyString)) ->
  (forall a b r, P r -> P (String b r) -> P (String a (String b r))) ->
  forall s, P s.
Proof.
  intros H0 H1 H2 s.
  assert (H : P s /\ forall a, P (String a s)).
  { induction s as [|b r [IHr IHbr]].
    - split; [exact H0|exact H1].
    - split; [apply IHbr|]. intros a. apply H2; [exact IHr|apply IHbr]. }
  exact (proj1 H).
Qed.

Lemma sall_sappend (q : ascii -> bool) (a b : string) :
  sall q (a ++ b) = sall q a && sall q b.
Proof.
  induction a as [|c r IH]; simpl; [reflexivity|].
  rewrite IH. apply andb_assoc.
Qed.

Lemma sall_smap_safe (s : string) :
  sall (fun c => char_in c safe_chars)
    (smap (fun c => if char_in c safe_chars then c else "_"%char) s) = true.
Proof.
  induction s as [|c r IH]; [reflexivity|].
  cbn [smap sall]. rewrite IH, andb_true_r.
  destruct (char_in c safe_chars) eqn:E; [exact E|reflexivity].
Qed.

Lemma smap_safe_id (s : string) :
  sall (fun c => char_in c safe_chars) s = true ->
  smap (fun c => if char_in c safe_chars then c else "_"%char) s = s.
Proof.
  induction s as [|c r IH]; [reflexivity|].
  cbn [smap sall]. intros H. apply andb_true_iff in H. destruct H as [Hc Hr].
  rewrite Hc, (IH Hr). reflexivity.
Qed.

Lemma replace_double_underscore_step (a b : ascii) (r : string) :
  replace_double_underscore (String a (String b r))
  = if is_underscore a && is_underscore b
    then String "_" (replace_double_underscore r)
    else String a (replace_double_underscore (String b r)).
Proof. reflexivity. Qed.

Lemma has_double_underscore_step (a b : ascii) (r : string) :
  has_double_underscore (String a (String b r))
  = (is_underscore a && is_underscore b) || has_double_underscore (String b r).
Proof. reflexivity. Qed.

Lemma sall_replace_double_underscore (q : ascii -> bool) :
  q "_"%char = true ->
  forall s, sall q s = true -> sall q (replace_double_underscore s) = true.
Proof.
  intros Hq. apply (string_ind2 (fun s => sall q s = true ->
                                   sall q (replace_double_underscore s) = true)).
  - reflexivity.
  - intros a H. exact H.
  - intros a b r IHr IHbr H.
    rewrite replace_double_underscore_step.
    cbn [sall] in H. apply andb_true_iff in H. destruct H as [Ha Hbr].
    destruct (is_underscore a && is_underscore b).
    + cbn [sall]. rewrite Hq. apply IHr.
      cbn [sall] in Hbr. apply andb_true_iff in Hbr. exact (proj2 Hbr).
    + cbn [sall]. rewrite Ha. apply IHbr. exact Hbr.
Qed.

Lemma length_replace_double_underscore (s : string) :
  (String.length (replace_double_underscore s) <= String.length s)%nat /\
  (has_double_underscore s = true ->
   String.length (replace_double_underscore s) < String.length s)%nat.
Proof.
  revert s.
  apply (string_ind2 (fun s =>
    (String.length (replace_double_underscore s) <= String.length s)%nat /\
    (has_double_underscore s = true ->
     String.length (replace_double_underscore s) < String.length s)%nat)).
  - split; [simpl; lia|discriminate].
  - intros a. split; [simpl; lia|discriminate].
  - intros a b r [IHr1 IHr2] [IHbr1 IHbr2].
    rewrite replace_double_underscore_step, has_double_underscore_step.
    destruct (is_underscore a && is_underscore b).
    + cbn [String.length]. split; [lia|intros _; lia].
    + cbn [orb]. change (String.length (String a (String b r)))
        with (S (String.length (String b r))).
      change (String.length (String a (replace_double_underscore (String b r))))
        with (S (String.length (replace_double_underscore (String b r)))).
      split; [lia|]. intros H. specialize (IHbr2 H). lia.
Qed.

Lemma collapse_underscores_done (fuel : nat) :
  forall s, (String.length s <= fuel)%nat ->
            has_double_underscore (collapse_underscores fuel s) = false.
Proof.
  induction fuel as [|n IH]; intros s Hlen.
  - destruct s; [reflexivity|simpl in Hlen; lia].
  - cbn [collapse_underscores].
    destruct (has_double_underscore s) eqn:E; [|exact E].
    apply IH. pose proof (proj2 (length_replace_double_underscore s) E). lia.
Qed.

Lemma sall_collapse_underscores (q : ascii -> bool) (fuel : nat) :
  q "_"%char = true ->
  forall s, sall q s = true -> sall q (collapse_underscores fuel s) = true.
Proof.
  intros Hq. induction fuel as [|n IH]; intros s H; [exact H|].
  cbn [collapse_underscores]. destruct (has_double_underscore s); [|exact H].
  apply IH. apply sall_replace_double_underscore; assumption.
Qed.

Lemma collapse_underscores_fixed (fuel : nat) (s : string) :
  has_double_underscore s = false -> collapse_underscores fuel s = s.
Proof. intros H. destruct fuel; [reflexivity|]. cbn [collapse_underscores]. now rewrite H. Qed.

Lemma sall_lstrip_by (q p : ascii -> bool) (s : string) :
  sall q s = true -> sall q (lstrip_by p s) = true.
Proof.
  induction s as [|c r IH]; [trivial|]. cbn [lstrip_by]. intros H.
  destruct (p c); [|exact H]. apply IH.
  cbn [sall] in H. apply andb_true_iff in H. exact (proj2 H).
Qed.

Lemma sall_rstrip_by (q p : ascii -> bool) (s : string) :
  sall q s = true -> sall q (rstrip_by p s) = true.
Proof.
  induction s as [|c r IH]; [trivial|]. cbn [rstrip_by sall]. intros H.
  apply andb_true_iff in H. destruct H as [Hc Hr]. specialize (IH Hr).
  destruct (rstrip_by p r) as [|b t].
  - destruct (p c); [reflexivity|]. cbn [sall]. now rewrite Hc.
  - cbn [sall] in *. now rewrite Hc.
Qed.

Lemma has_double_underscore_tail (c : ascii) (r : string) :
  has_double_underscore (String c r) = false -> has_double_underscore r = false.
Proof.
  destruct r as [|b t]; [reflexivity|]. rewrite has_double_underscore_step.
  intros H. apply orb_false_iff in H. exact (proj2 H).
Qed.

Lemma has_double_underscore_lstrip_by (p : ascii -> bool) (s : string) :
  has_double_underscore s = false -> has_double_underscore (lstrip_by p s) = false.
Proof.
  induction s as [|c r IH]; [trivial|]. cbn [lstrip_by]. intros H.
  destruct (p c); [|exact H]. apply IH. exact (has_double_underscore_tail c r H).
Qed.

(** What [rstrip_by] leaves starts like the string it was given. *)
Lemma rstrip_by_head (p : ascii -> bool) (s : string) (b : ascii) (t : string) :
  rstrip_by p s = String b t -> exists t', s = String b t'.
Proof.
  destruct s as [|c r]; [discriminate|]. cbn [rstrip_by].
  destruct (rstrip_by p r).
  - destruct (p c); [discriminate|]. intros [= <- _]. eexists. reflexivity.
  - intros [= <- _]. eexists. reflexivity.
Qed.

Lemma has_double_underscore_rstrip_by (p : ascii -> bool) (s : string) :
  has_double_underscore s = false -> has_double_underscore (rstrip_by p s) = false.
Proof.
  induction s as [|c r IH]; [trivial|]. intros H.
  pose proof (IH (has_double_underscore_tail c r H)) as IHr.
  cbn [rstrip_by]. destruct (rstrip_by p r) as [|b t] eqn:E.
  - destruct (p c); reflexivity.
  - destruct (rstrip_by_head p r b t E) as [t' ->].
    rewrite has_double_underscore_step in H |- *.
    apply orb_false_iff in H. destruct H as [Hab _].
    rewrite Hab. exact IHr.
Qed.

(** A string that [rstrip_by] leaves alone has tails it leaves alone. *)
Lemma rstrip_by_fixed_tail (p : ascii -> bool) (c : ascii) (r : string) :
  rstrip_by p (String c r) = String c r -> rstrip_by p r = r.
Proof.
  cbn [rstrip_by]. destruct (rstrip_by p r) as [|b t].
  - destruct (p c); [discriminate|]. intros [= <-]. reflexivity.
  - intros [= <-]. reflexivity.
Qed.

Lemma rstrip_by_lstrip_by (p : ascii -> bool) (s : string) :
  rstrip_by p s = s -> rstrip_by p (lstrip_by p s) = lstrip_by p s.
Proof.
  induction s as [|c r IH]; [trivial|]. intros H. cbn [lstrip_by].
  destruct (p c); [|exact H]. apply IH. exact (rstrip_by_fixed_tail p c r H).
Qed.

Lemma rstrip_by_idempotent (p : ascii -> bool) (s : string) :
  rstrip_by p (rstrip_by p s) = rstrip_by p s.
Proof.
  induction s as [|c r IH]; [reflexivity|]. cbn [rstrip_by].
  destruct (rstrip_by p r) as [|b t] eqn:E.
  - destruct (p c) eqn:Hc; [reflexivity|]. cbn [rstrip_by]. now rewrite Hc.
  - cbn [rstrip_by]. cbn [rstrip_by] in IH. rewrite IH. reflexivity.
Qed.

Lemma lstrip_by_idempotent (p : ascii -> bool) (s : string) :
  lstrip_by p (lstrip_by p s) = lstrip_by p s.
Proof.
  induction s as [|c r IH]; [reflexivity|]. cbn [lstrip_by].
  destruct (p c) eqn:Hc; [exact IH|]. cbn [lstrip_by]. now rewrite Hc.
Qed.

Lemma rstrip_by_sappend (p : ascii -> bool) (s x : string) :
  x <> EmptyString -> rstrip_by p x = x -> rstrip_by p (s ++ x) = s ++ x.
Proof.
  intros Hne Hx. induction s as [|c r IH]; [exact Hx|].
  cbn [String.append rstrip_by]. rewrite IH.
  destruct (r ++ x) eqn:E; [|reflexivity].
  destruct r; [contradiction|discriminate].
Qed.

Lemma lstrip_by_sappend (p : ascii -> bool) (s x : string) :
  lstrip_by p s = s -> lstrip_by p x = x -> lstrip_by p (s ++ x) = s ++ x.
Proof.
  intros Hs Hx. destruct s as [|c r]; [exact Hx|].
  cbn [String.append lstrip_by] in *. destruct (p c) eqn:Hc; [|reflexivity].
  exfalso.
  assert (Hlen : forall t, (String.length (lstrip_by p t) <= String.length t)%nat).
  { induction t as [|a t IHt]; [simpl; lia|]. cbn [lstrip_by].
    destruct (p a); simpl; lia. }
  pose proof (Hlen r) as L. rewrite Hs in L. simpl in L. lia.
Qed.

Lemma has_double_underscore_sappend (s : string) (c : ascii) (t : string) :
  has_double_underscore s = false ->
  is_underscore c = false ->
  has_double_underscore (String c t) = false ->
  has_double_underscore (s ++ String c t) = false.
Proof.
  intros Hs Hc Hx. induction s as [|a r IH]; [exact Hx|].
  pose proof (IH (has_double_underscore_tail a r Hs)) as IHr.
  cbn [String.append]. destruct r as [|b r'].
  - cbn [String.append]. rewrite has_double_underscore_step, Hc, andb_false_r. exact Hx.
  - cbn [String.append] in *. rewrite has_double_underscore_step in Hs |- *.
    apply orb_false_iff in Hs. destruct Hs as [Hab _]. rewrite Hab. exact IHr.
Qed.

Lemma char_in_sappend (c : ascii) (a b : string) :
  char_in c (a ++ b) = char_in c a || char_in c b.
Proof.
  induction a as [|x r IH]; [reflexivity|]. cbn [String.append char_in].
  rewrite IH. apply orb_assoc.
Qed.

(** X1. A normalized file name is made of the safe characters only, has
    no two underscores in a row, begins and ends with no underscore and
    contains a dot; normalizing it again changes nothing. *)
Theorem normalize_filename_safe_and_stable :
  forall filename : string,
    let name := normalize_filename filename in
    sall (fun c => char_in c safe_chars) name = true /\
    has_double_underscore name = false /\
    lstrip_by is_underscore name = name /\
    rstrip_by is_underscore name = name /\
    char_in "." name = true /\
    normalize_filename name = name.
Proof.
  intros filename name.
  set (replaced := smap (fun c => if char_in c safe_chars then c else "_"%char) filename).
  set (collapsed := collapse_underscores (String.length replaced) replaced).
  set (stripped := lstrip_by is_underscore (rstrip_by is_underscore collapsed)).
  assert (Hname : name = if char_in "." stripped then stripped else stripped ++ ".jpg")
    by reflexivity.
  assert (Hsafe : sall (fun c => char_in c safe_chars) stripped = true).
  { apply sall_lstrip_by, sall_rstrip_by, sall_collapse_underscores;
      [reflexivity|apply sall_smap_safe]. }
  assert (Huu : has_double_underscore stripped = false).
  { apply has_double_underscore_lstrip_by, has_double_underscore_rstrip_by.
    apply collapse_underscores_done. lia. }
  assert (Hl : lstrip_by is_underscore stripped = stripped)
    by apply lstrip_by_idempotent.
  assert (Hr : rstrip_by is_underscore stripped = stripped)
    by (apply rstrip_by_lstrip_by, rstrip_by_idempotent).
  assert (H5 : sall (fun c => char_in c safe_chars) name = true /\
               has_double_underscore name = false /\
               lstrip_by is_underscore name = name /\
               rstrip_by is_underscore name = name /\
               char_in "." name = true).
  { rewrite Hname. destruct (char_in "." stripped) eqn:Hdot.
    - repeat split; assumption.
    - split; [rewrite sall_sappend, Hsafe; reflexivity|].
      split; [apply has_double_underscore_sappend; [exact Huu|reflexivity|reflexivity]|].
      split; [apply lstrip_by_sappend; [exact Hl|reflexivity]|].
      split; [apply rstrip_by_sappend; [discriminate|reflexivity]|].
      rewrite char_in_sappend. apply orb_true_r. }
  destruct H5 as (Ha & Hb & Hc & Hd & He).
  repeat (split; [assumption|]).
  unfold normalize_filename. rewrite (smap_safe_id name Ha).
  rewrite (collapse_underscores_fixed _ name Hb), Hd, Hc, He. reflexivity.
Qed.

(** ** The batch orchestrator: what each phase keeps *)

(** X2. Filtering keeps, in input order, exactly the files that exist and
    have a supported format; every other file gives one error, in input
    order too: "File not found" when it is absent, "Unsupported format"
    otherwise. *)
Theorem filter_valid_files_partition :
  forall (exists_ : string -> bool) (ip : ImageProcessorObj) (file_paths : list string),
    let ok p := exists_ p && ip_is_supported_format ip p in
    fst (filter_valid_files exists_ ip file_paths) = filter ok file_paths /\
    snd (filter_valid_files exists_ ip file_paths)
    = map (fun p => if exists_ p
                    then "Unsupported format " ++ Path_suffix p ++ ": " ++ p
                    else "File not found: " ++ p)
        (filter (fun p => negb (ok p)) file_paths).
Proof.
  intros ex ip fps ok. induction fps as [|p rest [IH1 IH2]]; [split; reflexivity|].
  assert (Hokp : ok p = ex p && ip_is_supported_format ip p) by reflexivity.
  cbn [filter_valid_files filter]. rewrite Hokp.
  destruct (filter_valid_files ex ip rest) as [valid errs]. cbn [fst snd] in *.
  destruct (ex p) eqn:E1; cbn [negb andb].
  - destruct (ip_is_supported_format ip p); cbn [negb fst snd map].
    + rewrite IH1, IH2. split; reflexivity.
    + rewrite IH1, IH2, E1. split; reflexivity.
  - cbn [fst snd map]. rewrite IH1, IH2, E1. split; reflexivity.
Qed.

Lemma update_paths_exact :
  forall (rs : list OptResult) (processed errs : list string),
    Forall (fun d => readable d) rs ->
    update_paths rs processed errs
    = (app errs
         (map (fun d => "Optimization failed for " ++ get_default (o_file_path d) ""
                        ++ ": " ++ get_default (o_error d) "Unknown error")
            (filter (fun d => negb (o_success d)) rs)),
       inr (app processed
              (map (fun d => get_default (o_output_path d) "") (filter o_success rs)))).
Proof.
  induction rs as [|d rest IH]; intros processed errs Hall.
  - cbn [update_paths filter map]. rewrite !app_nil_r. reflexivity.
  - inversion Hall as [|d' rest' [Hfp Hout] Hrest]; subst.
    cbn [update_paths filter]. destruct (o_success d) eqn:Hs; cbn [negb].
    + destruct (o_output_path d) as [out|] eqn:Eo;
        [|exfalso; apply (Hout eq_refl); reflexivity].
      cbn [getitem]. rewrite (IH _ _ Hrest). unfold append.
      cbn [map get_default]. rewrite Eo. cbn [get_default].
      rewrite <- app_assoc. reflexivity.
    + destruct (o_file_path d) as [fp|] eqn:Ef; [|contradiction].
      cbn [getitem]. rewrite (IH _ _ Hrest). unfold append.
      cbn [map get_default]. rewrite Ef. cbn [get_default].
      rewrite <- app_assoc. reflexivity.
Qed.

(** X3. Served with a positive limit and optimization on, the working
    files after the optimize phase are the output paths of the successful
    optimizations, in order; every failed optimization adds the error
    "Optimization failed for <file>: <reason>" and its file is not uploaded;
    the statistics are taken over all the results. *)
Theorem optimize_phase_keeps_successes :
  forall (w : World) (valid_files errs : list string) (quality max_concurrent : Z),
    1 <= max_concurrent ->
    exists rs,
      ip_batch_optimize (real_image_processor w) valid_files quality max_concurrent
      = Returns rs /\
      List.length rs = List.length valid_files /\
      optimize_phase (real_image_processor w) valid_files errs true quality max_concurrent
      = Returns
          (map (fun d => get_default (o_output_path d) "") (filter o_success rs),
           app errs
             (map (fun d => "Optimization failed for " ++ get_default (o_file_path d) ""
                            ++ ": " ++ get_default (o_error d) "Unknown error")
                (filter (fun d => negb (o_success d)) rs)),
           Some (get_optimization_stats rs)).
Proof.
  intros w valid errs q mc Hmc.
  destruct (real_batch_optimize_readable w valid q mc Hmc) as (rs & Hrs & Hlen & Hread).
  exists rs. split; [exact Hrs|]. split; [exact Hlen|].
  unfold optimize_phase. rewrite Hrs, (update_paths_exact rs [] errs Hread).
  reflexivity.
Qed.

Lemma optimize_phase_keeps_successes_witness :
  optimize_phase (real_image_processor sample_world) ["a.png"; "broken.png"; "c.png"]
    ["File not found: missing.png"] true 80 3
  = Returns
      (["a.optimized.png"; "c.optimized.png"],
       ["File not found: missing.png";
        "Optimization failed for broken.png: cannot identify image file"],
       Some (mk_stats 3 2 1 2000 2000 (Qmake 0 1) 0)).
Proof.
  destruct (optimize_phase_keeps_successes sample_world ["a.png"; "broken.png"; "c.png"]
              ["File not found: missing.png"] 80 3 ltac:(lia))
    as (rs & Hrs & _ & Hphase).
  rewrite Hphase. vm_compute in Hrs. injection Hrs as <-. vm_compute. reflexivity.
Defined.

Lemma process_results_mirror (file_paths processed_files : list string) :
  forall (uploaded : list UploadResult) (i : nat) (acc t : Tally),
    process_results file_paths processed_files i uploaded acc = inr t ->
    map (fun d => (d_success d, d_url d, d_error d, d_key d)) (t_detailed t)
    = app (map (fun d => (d_success d, d_url d, d_error d, d_key d)) (t_detailed acc))
        (map (fun u => (u_success u, u_url u, u_error u, u_key u)) uploaded) /\
    t_urls t
    = app (t_urls acc)
        (map (fun u => get_default (u_url u) "") (filter u_success uploaded)) /\
    t_successful t = t_successful acc + zlength (filter u_success uploaded).
Proof.
  induction uploaded as [|u rest IH]; intros i acc t H; cbn [process_results] in H.
  - injection H as <-. cbn [map filter]. unfold zlength. cbn [List.length].
    rewrite !app_nil_r. repeat split; lia.
  - destruct (u_success u) eqn:Hu.
    + destruct (u_url u) as [url|] eqn:Eurl; cbn [getitem] in H; [|discriminate].
      match type of H with
      | match ?x with _ => _ end = _ => destruct x as [e|fp]; [discriminate|]
      end.
      apply IH in H. cbn [t_urls t_successful t_detailed] in H.
      destruct H as (H1 & H2 & H3). unfold append in H1, H2.
      rewrite map_app in H1. cbn [map d_success d_url d_error d_key] in H1.
      rewrite <- app_assoc in H1, H2.
      cbn [filter map]. rewrite Hu. cbn [map]. rewrite Eurl. cbn [get_default].
      split; [exact H1|]. split; [exact H2|].
      rewrite H3. unfold zlength. cbn [List.length]. lia.
    + destruct (index file_paths i) as [e|fp0]; [discriminate|].
      match type of H with
      | match ?x with _ => _ end = _ => destruct x as [e|fp]; [discriminate|]
      end.
      apply IH in H. cbn [t_urls t_successful t_detailed] in H.
      destruct H as (H1 & H2 & H3). unfold append in H1.
      rewrite map_app in H1. cbn [map d_success d_url d_error d_key] in H1.
      rewrite <- app_assoc in H1.
      cbn [filter map]. rewrite Hu.
      split; [exact H1|]. split; [exact H2|exact H3].
Qed.

(** X4. When the upload phase answers from the results of
    [upload_multiple], its detail list has one entry per upload result, in
    the same order, with the success flag, URL, error and key of that
    result; [urls] lists the URLs of the successful uploads in that order
    and [successful_uploads] counts them. *)
Theorem upload_phase_mirrors_upload_results :
  forall (elapsed : Q) (s3 : S3ClientObj) (file_paths : list string)
         (folder_prefix : option string) (optimize : bool) (quality max_concurrent : Z)
         (processed_files errs : list string) (stats : option Stats)
         (uploaded : list UploadResult) (r : BatchUploadResponse),
    processed_files <> [] ->
    sc_upload_multiple s3
      (prepare_upload_tasks s3 file_paths folder_prefix optimize quality 0 processed_files)
      max_concurrent = Returns uploaded ->
    upload_phase elapsed s3 file_paths folder_prefix optimize quality max_concurrent
      processed_files errs stats = Returns r ->
    map (fun d => (d_success d, d_url d, d_error d, d_key d)) (results r)
    = map (fun u => (u_success u, u_url u, u_error u, u_key u)) uploaded /\
    urls r = map (fun u => get_default (u_url u) "") (filter u_success uploaded) /\
    successful_uploads r = zlength (filter u_success uploaded) /\
    optimization_stats r = stats.
Proof.
  intros el s3 fps fp o q mc processed errs stats uploaded r Hne Hup.
  unfold upload_phase. destruct processed as [|p0 ps] eqn:Hp; [contradiction|].
  rewrite <- Hp in *. replace (is_nil processed) with false by (rewrite Hp; reflexivity).
  rewrite Hup. cbn [bind].
  destruct (process_results fps processed 0 uploaded (mk_tally [] 0 errs [])) as [e|t] eqn:Ht;
    cbn [lift bind]; [discriminate|].
  intros [= <-]. apply process_results_mirror in Ht.
  cbn [t_urls t_successful t_detailed map app] in Ht.
  destruct Ht as (H1 & H2 & H3). cbn [results urls successful_uploads optimization_stats].
  repeat split; [exact H1|exact H2|lia].
Qed.

Lemma upload_phase_mirrors_upload_results_witness :
  exists r,
    upload_phase (Qmake 1 1) (real_s3_client sample_world sample_s3)
      ["a.png"; "reject.png"] None false 80 2 ["a.png"; "reject.png"] [] None
    = Returns r /\
    map (fun d => (d_success d, d_error d)) (results r)
    = [(true, None); (false, Some "S3 upload error: Access Denied")] /\
    urls r = ["https://test-bucket.s3.us-east-1.amazonaws.com/a_20240307_090502.png"] /\
    successful_uploads r = 1.
Proof.
  eexists. split; [vm_compute; reflexivity|].
  destruct (upload_phase_mirrors_upload_results (Qmake 1 1)
              (real_s3_client sample_world sample_s3) ["a.png"; "reject.png"] None false
              80 2 ["a.png"; "reject.png"] [] None
              _ _ ltac:(discriminate) ltac:(vm_compute; reflexivity)
              ltac:(vm_compute; reflexivity))
    as (_ & Hurls & Hcount & _).
  split; [reflexivity|]. split; [exact Hurls|exact Hcount].
Defined.

Lemma prepare_upload_tasks_nth (s3 : S3ClientObj) (file_paths : list string)
    (folder_prefix : option string) (optimize : bool) (quality : Z) :
  forall (processed_files : list string) (start i : nat) (file_path : string),
    nth_error processed_files i = Some file_path ->
    nth_error
      (prepare_upload_tasks s3 file_paths folder_prefix optimize quality start
         processed_files) i
    = Some (mk_file_info (Some file_path)
              (Some (sc_generate_key s3 (start + i) file_path folder_prefix))
              (Some [("original_file",
                      VStr (match nth_error file_paths (start + i) with
                            | Some original => original
                            | None => file_path
                            end));
                     ("optimized", VBool optimize);
                     ("quality", VStr (str_int quality));
                     ("batch_index", VStr (str_int (Z.of_nat (start + i))))])
              None).
Proof.
  induction processed_files as [|p rest IH]; intros start i fp Hi.
  - destruct i; discriminate.
  - destruct i as [|i].
    + injection Hi as <-. cbn [prepare_upload_tasks nth_error].
      rewrite Nat.add_0_r. reflexivity.
    + cbn [prepare_upload_tasks nth_error]. cbn [nth_error] in Hi.
      rewrite (IH (S start) i fp Hi).
      replace (S start + i)%nat with (start + S i)%nat by lia. reflexivity.
Qed.

(** X5. When no input is dropped, so that the working files are the
    input files, the upload task at index [i] uploads [file_paths[i]] under
    the key derived from it, and its metadata names that same file as
    [original_file], with the optimize flag, the quality and the index as
    strings. *)
Theorem upload_tasks_of_undropped_inputs :
  forall (s3 : S3ClientObj) (file_paths : list string) (folder_prefix : option string)
         (optimize : bool) (quality : Z) (i : nat) (file_path : string),
    nth_error file_paths i = Some file_path ->
    nth_error
      (prepare_upload_tasks s3 file_paths folder_prefix optimize quality 0 file_paths) i
    = Some (mk_file_info (Some file_path)
              (Some (sc_generate_key s3 i file_path folder_prefix))
              (Some [("original_file", VStr file_path);
                     ("optimized", VBool optimize);
                     ("quality", VStr (str_int quality));
                     ("batch_index", VStr (str_int (Z.of_nat i)))])
              None).
Proof.
  intros s3 fps fp o q i file_path Hi.
  rewrite (prepare_upload_tasks_nth s3 fps fp o q fps 0 i file_path Hi).
  cbn [Nat.add]. rewrite Hi. reflexivity.
Qed.

Lemma upload_tasks_of_undropped_inputs_witness :
  nth_error
    (prepare_upload_tasks (real_s3_client sample_world sample_s3) ["a.png"; "b.png"]
       (Some "img") true 80 0 ["a.png"; "b.png"]) 1
  = Some (mk_file_info (Some "b.png") (Some "img/b_20240307_090502.png")
            (Some [("original_file", VStr "b.png"); ("optimized", VBool true);
                   ("quality", VStr "80"); ("batch_index", VStr "1")])
            None).
Proof.
  rewrite (upload_tasks_of_undropped_inputs (real_s3_client sample_world sample_s3)
             ["a.png"; "b.png"] (Some "img") true 80 1 "b.png" eq_refl).
  vm_compute. reflexivity.
Defined.

(** ** Uploading one file *)

Lemma dict_get_set (d : dict) (k k' : string) (v : MetaVal) :
  dict_get (dict_set d k v) k'
  = if String.eqb k' k then Some v else dict_get d k'.
Proof.
  induction d as [|[k0 v0] rest IH]; cbn [dict_set dict_get]; [reflexivity|].
  destruct (String.eqb k k0) eqn:E.
  - apply String.eqb_eq in E. subst k0. cbn [dict_get].
    destruct (String.eqb k' k); reflexivity.
  - cbn [dict_get]. rewrite IH. destruct (String.eqb k' k0) eqn:E0; [|reflexivity].
    apply String.eqb_eq in E0. subst k0.
    destruct (String.eqb k' k) eqn:E1; [|reflexivity].
    apply String.eqb_eq in E1. subst k'. rewrite String.eqb_refl in E. discriminate.
Qed.

Lemma dict_get_absent (d : dict) (k : string) :
  ~ In k (map fst d) -> dict_get d k = None.
Proof.
  induction d as [|[k0 v0] rest IH]; [reflexivity|]. cbn [map fst In dict_get].
  intros H. destruct (String.eqb k k0) eqn:E.
  - apply String.eqb_eq in E. exfalso. apply H. left. symmetry. exact E.
  - apply IH. intros Hin. apply H. right. exact Hin.
Qed.

(** X6. [d.update(other)], for a dict [other] (distinct keys): afterwards
    a key of [other] has the value of [other], and any other key has the
    value it had in [d]. *)
Theorem dict_update_lookup :
  forall (other d : dict) (k : string),
    NoDup (map fst other) ->
    dict_get (dict_update d other) k
    = match dict_get other k with
      | Some v => Some v
      | None => dict_get d k
      end.
Proof.
  unfold dict_update.
  induction other as [|[k0 v0] rest IH]; intros d k Hnd; [reflexivity|].
  cbn [fold_left fst snd dict_get]. cbn [map fst] in Hnd.
  inversion Hnd as [|x l Hnotin Hrest]; subst.
  rewrite (IH _ k Hrest), dict_get_set.
  destruct (String.eqb k k0) eqn:E; [|reflexivity].
  apply String.eqb_eq in E. subst k0.
  rewrite (dict_get_absent rest k Hnotin). reflexivity.
Qed.

Lemma dict_update_lookup_witness :
  dict_get (dict_update [("source", VStr "s3-upload-mcp-server"); ("a", VStr "1")]
              [("source", VStr "figma"); ("b", VBool true)]) "source"
  = Some (VStr "figma").
Proof.
  rewrite dict_update_lookup.
  - reflexivity.
  - repeat constructor; simpl; intuition discriminate.
Defined.

Lemma prefix_sappend (a b : string) : String.prefix a (a ++ b) = true.
Proof.
  induction a as [|c r IH]; [destruct b; reflexivity|].
  cbn [String.append String.prefix].
  destruct (ascii_dec c c) as [_|N]; [exact IH|contradiction].
Qed.

Section UploadFile.

Variable self : S3Client.
Variable getsize : string -> result Z.
Variable s3_transfer : string -> string -> string -> dict -> string -> string -> result unit.
Variable now : datetime.
Variables file_path key : string.
Variable metadata : option dict.
Variable content_type : option string.

Local Abbreviation upload :=
  (upload_file self getsize s3_transfer now file_path key metadata content_type).

(** A fault at which the [try] block of this call stops. *)
Local Abbreviation stops_with e :=
  (getsize file_path = inl e \/
   exists upload_metadata used_content_type,
     s3_transfer file_path (bucket_name self) key upload_metadata used_content_type
       "public-read" = inl e).

Lemma upload_file_handlers_raise (e fault : exn) :
  upload_file_handlers key e = inl fault ->
  exists text,
    (fault = KeyError "Error" /\ e = ClientError text None) \/
    (fault = KeyError "Message" /\ e = ClientError text (Some None)).
Proof.
  unfold upload_file_handlers.
  destruct e as [m|k|m|m|m|t [[m|]|]|m]; try discriminate; intros [= <-]; exists t.
  - right. split; reflexivity.
  - left. split; reflexivity.
Qed.

Lemma upload_file_handlers_return (e : exn) (uploaded : UploadResult) :
  upload_file_handlers key e = inr uploaded ->
  exists error,
    uploaded = upload_failure error key /\
    (String.prefix "S3 upload error: " error = true \/
     String.prefix "Unexpected upload error: " error = true).
Proof.
  assert (Hshape : match upload_file_handlers key e with
                   | inr u =>
                       exists error,
                         u = upload_failure error key /\
                         (String.prefix "S3 upload error: " error = true \/
                          String.prefix "Unexpected upload error: " error = true)
                   | inl _ => True
                   end).
  { unfold upload_file_handlers.
    destruct e as [m|k|m|m|m|t [[m|]|]|m]; try exact I;
      (eexists; split; [reflexivity|]);
      first [right; apply prefix_sappend | left; apply prefix_sappend]. }
  intros H. rewrite H in Hshape. exact Hshape.
Qed.

(** X7. [upload_file] raises from one place only, its [ClientError]
    handler: when the size lookup or the transfer stops with a
    [ClientError] whose response lacks ['Error'], or ['Message'] in it, the
    handler's own lookup raises [KeyError] out of the call.  Every other
    fault becomes a failure result, so the call returns whenever every
    [ClientError] carries a message.  A result has the key the call was
    given.  A success carries the URL
    [https://<bucket>.s3.<region>.amazonaws.com/<key>], the bucket, the size
    that [getsize] reported and no error; a failure carries no URL and no
    size but an error that starts with "S3 upload error: " or with
    "Unexpected upload error: ".  In the metadata of a success the values
    of the caller win, and the three provenance keys are present unless the
    caller overrides them. *)
Theorem upload_file_outcome :
  (forall fault : exn,
     upload = inl fault ->
     exists text,
       (fault = KeyError "Error" /\ stops_with (ClientError text None)) \/
       (fault = KeyError "Message" /\ stops_with (ClientError text (Some None)))) /\
  ((forall text response,
      stops_with (ClientError text response) -> exists message, response = Some (Some message)) ->
   exists uploaded, upload = inr uploaded) /\
  (forall uploaded : UploadResult,
     upload = inr uploaded ->
     u_key uploaded = Some key /\
     (u_success uploaded = true ->
      u_url uploaded
      = Some ("https://" ++ bucket_name self ++ ".s3." ++ region self
              ++ ".amazonaws.com/" ++ key) /\
      u_bucket uploaded = Some (bucket_name self) /\
      (exists size, getsize file_path = inr size /\ u_size uploaded = Some size) /\
      u_error uploaded = None /\
      exists stored,
        u_metadata uploaded = Some stored /\
        (NoDup (map fst (get_default metadata [])) ->
         forall k,
           dict_get stored k
           = match dict_get (get_default metadata []) k with
             | Some v => Some v
             | None =>
                 dict_get [("uploaded_at", VStr (isoformat now));
                           ("original_filename", VStr (Path_name file_path));
                           ("source", VStr "s3-upload-mcp-server")] k
             end)) /\
     (u_success uploaded = false ->
      u_url uploaded = None /\ u_size uploaded = None /\
      exists error,
        u_error uploaded = Some error /\
        (String.prefix "S3 upload error: " error = true \/
         String.prefix "Unexpected upload error: " error = true))).
Proof.
  unfold upload_file. split; [|split].
  - intros fault. destruct (getsize file_path) as [e|size] eqn:Hsize.
    { intros H. destruct (upload_file_handlers_raise e fault H) as [text [[-> ->]|[-> ->]]];
        exists text; [left|right]; (split; [reflexivity|left; reflexivity]). }
    destruct (s3_transfer _ _ _ _ _ _) as [e|[]] eqn:Htransfer; [|discriminate].
    intros H. destruct (upload_file_handlers_raise e fault H) as [text [[-> ->]|[-> ->]]];
      exists text; [left|right];
      (split; [reflexivity|right; eexists; eexists; exact Htransfer]).
  - intros Hmsg.
    assert (Hh : forall e, stops_with e -> exists uploaded, upload_file_handlers key e = inr uploaded).
    { intros e He. destruct (upload_file_handlers key e) as [fault|u] eqn:Hu;
        [|exists u; reflexivity].
      destruct (upload_file_handlers_raise e fault Hu) as [text [[_ ->]|[_ ->]]];
        destruct (Hmsg _ _ He) as [m Hm]; discriminate. }
    destruct (getsize file_path) as [e|size] eqn:Hsize.
    { apply Hh. left. reflexivity. }
    destruct (s3_transfer _ _ _ _ _ _) as [e|[]] eqn:Htransfer;
      [|eexists; reflexivity].
    apply Hh. right. eexists. eexists. exact Htransfer.
  - intros uploaded.
    assert (Hh : forall e, upload_file_handlers key e = inr uploaded ->
              u_key uploaded = Some key /\
              (u_success uploaded = true -> False) /\
              u_url uploaded = None /\ u_size uploaded = None /\
              exists error,
                u_error uploaded = Some error /\
                (String.prefix "S3 upload error: " error = true \/
                 String.prefix "Unexpected upload error: " error = true)).
    { intros e He. destruct (upload_file_handlers_return e uploaded He) as (error & -> & Hp).
      split; [reflexivity|]. split; [discriminate|]. split; [reflexivity|].
      split; [reflexivity|]. exists error. split; [reflexivity|exact Hp]. }
    destruct (getsize file_path) as [e|size].
    { intros H. destruct (Hh e H) as (Hk & Hs & Hrest).
      split; [exact Hk|]. split; [intros T; destruct (Hs T)|intros _; exact Hrest]. }
    destruct (s3_transfer _ _ _ _ _ _) as [e|[]].
    { intros H. destruct (Hh e H) as (Hk & Hs & Hrest).
      split; [exact Hk|]. split; [intros T; destruct (Hs T)|intros _; exact Hrest]. }
    intros [= <-].
    split; [reflexivity|]. split; [|discriminate]. intros _.
    split; [reflexivity|]. split; [reflexivity|].
    split; [exists size; split; reflexivity|]. split; [reflexivity|].
    eexists. split; [reflexivity|]. intros Hnd k. apply dict_update_lookup. exact Hnd.
Qed.

End UploadFile.

Lemma upload_file_outcome_witness :
  (exists uploaded,
     upload_file sample_s3 (w_getsize sample_world) (w_transfer sample_world)
       (mk_datetime 2024 3 7 9 5 3 0) "a.png" "img/a.png"
       (Some [("source", VStr "figma")]) None = inr uploaded /\
     u_key uploaded = Some "img/a.png") /\
  upload_file sample_s3 (w_getsize sample_world)
    (fun _ _ _ _ _ _ => inl (ClientError "An error occurred (Unknown)" None))
    (mk_datetime 2024 3 7 9 5 3 0) "a.png" "img/a.png" None None
  = inl (KeyError "Error").
Proof.
  split.
  - destruct (upload_file_outcome sample_s3 (w_getsize sample_world)
                (w_transfer sample_world) (mk_datetime 2024 3 7 9 5 3 0) "a.png"
                "img/a.png" (Some [("source", VStr "figma")]) None)
      as (_ & Hreturns & Hshape).
    destruct Hreturns as [uploaded Hu].
    + intros text response [H|(md & ct & H)]; [discriminate H|].
      vm_compute in H. discriminate H.
    + exists uploaded. split; [exact Hu|]. exact (proj1 (Hshape uploaded Hu)).
  - reflexivity.
Defined.

(** X8. Every file the image processor accepts gets an image content
    type from the storage client: for a supported format
    [_get_content_type] answers with an [image/...] type, never with the
    fallback [application/octet-stream]. *)
Theorem supported_formats_have_image_content_types :
  forall file_path : string,
    is_supported_format file_path = true ->
    String.prefix "image/" (_get_content_type file_path) = true /\
    _get_content_type file_path <> "application/octet-stream".
Proof.
  intros fp H. unfold is_supported_format, mem_string in H.
  unfold _get_content_type.
  apply existsb_exists in H. destruct H as (x & Hin & Hx).
  apply String.eqb_eq in Hx. rewrite Hx. clear Hx.
  cbn [SUPPORTED_FORMATS In] in Hin.
  repeat (destruct Hin as [<-|Hin]; [vm_compute; split; [reflexivity|discriminate]|]).
  contradiction.
Qed.

Lemma supported_formats_have_image_content_types_witness :
  String.prefix "image/" (_get_content_type "/tmp/Photo.JPEG") = true /\
  _get_content_type "/tmp/Photo.JPEG" <> "application/octet-stream".
Proof.
  apply supported_formats_have_image_content_types. vm_compute. reflexivity.
Defined.

(** ** Statistics: counts *)

Lemma length_filter_partition {A : Type} (f : A -> bool) (l : list A) :
  (List.length (filter f l) + List.length (filter (fun x => negb (f x)) l))%nat
  = List.length l.
Proof.
  induction l as [|a r IH]; [reflexivity|]. cbn [filter].
  destruct (f a); cbn [negb List.length]; lia.
Qed.

Lemma sumZ_le (A : Type) (f g : A -> Z) (l : list A) :
  Forall (fun x => f x <= g x) l -> sumZ (map f l) <= sumZ (map g l).
Proof.
  induction 1 as [|x r Hx Hr IH]; [reflexivity|].
  unfold sumZ in *. cbn [map fold_right]. lia.
Qed.

(** X9. In the statistics every result is counted once, as successful or
    as failed, and when no successful optimization produced a larger file
    the space saved is not negative. *)
Theorem optimization_stats_counts :
  forall results : list OptResult,
    let stats := get_optimization_stats results in
    st_total_files stats = zlength results /\
    st_successful stats + st_failed stats = st_total_files stats /\
    0 <= st_successful stats /\ 0 <= st_failed stats /\
    (Forall (fun r => o_success r = true ->
                      get_default (o_optimized_size r) 0
                      <= get_default (o_original_size r) 0) results ->
     0 <= st_space_saved stats).
Proof.
  intros results stats. unfold stats, get_optimization_stats.
  cbn [st_total_files st_successful st_failed st_space_saved].
  pose proof (length_filter_partition o_success results) as L.
  unfold zlength. split; [reflexivity|]. split; [lia|]. split; [lia|]. split; [lia|].
  intros Hall.
  assert (Hle : sumZ (map (fun r => get_default (o_optimized_size r) 0)
                        (filter o_success results))
                <= sumZ (map (fun r => get_default (o_original_size r) 0)
                           (filter o_success results))).
  { apply sumZ_le. apply Forall_forall. intros r Hr. apply filter_In in Hr.
    destruct Hr as [Hin Hs]. rewrite Forall_forall in Hall. exact (Hall r Hin Hs). }
  lia.
Qed.

Lemma optimization_stats_counts_witness :
  0 <= st_space_saved
         (get_optimization_stats
            [opt_success "a.png" "a.optimized.png" 1000 400; opt_failure "b.png" "bad"]).
Proof.
  apply (optimization_stats_counts
           [opt_success "a.png" "a.optimized.png" 1000 400; opt_failure "b.png" "bad"]).
  repeat constructor; simpl; intros; try lia; discriminate.
Defined.

(** ** The single upload *)

Section SingleUpload.

Variable s3_client : option S3ClientObj.
Variable image_processor : option ImageProcessorObj.
Variable exists_ : string -> bool.
Variable elapsed : Q.
Variables file_path bucket : string.
Variable key : option string.
Variable optimize : bool.
Variable quality : Z.
Variable folder_prefix : option string.

Local Abbreviation single_upload :=
  (upload_image_to_s3 s3_client image_processor exists_ elapsed file_path bucket key
     optimize quality folder_prefix).

Local Abbreviation well_formed r :=
  ((r_success r = true ->
    r_url r <> None /\ r_key r <> None /\ r_bucket r <> None /\ r_size r <> None /\
    r_content_type r <> None /\ r_metadata r <> None /\ r_error r = None /\
    r_processing_time r = Some elapsed) /\
   (r_success r = false ->
    r_error r <> None /\ r_url r = None /\ r_key r = None /\ r_bucket r = None /\
    r_size r = None /\ r_content_type r = None /\ r_metadata r = None)).

Lemma upload_error_response_well_formed (error : string) (t : option Q) :
  well_formed (upload_error_response error t).
Proof.
  split; [discriminate|]. intros _. cbn. repeat split; discriminate.
Qed.

Lemma single_upload_well_formed (r : UploadResponse) :
  single_upload = Returns r -> well_formed r.
Proof.
  unfold upload_image_to_s3.
  destruct s3_client as [s3|]; cbn [require bind try_except];
    [|intros [= <-]; apply upload_error_response_well_formed].
  destruct image_processor as [ip|]; cbn [require bind try_except];
    [|intros [= <-]; apply upload_error_response_well_formed].
  destruct (negb (exists_ file_path));
    [cbn [try_except]; intros [= <-]; apply upload_error_response_well_formed|].
  destruct (negb (ip_is_supported_format ip file_path));
    [cbn [try_except]; intros [= <-]; apply upload_error_response_well_formed|].
  match goal with
  | |- try_except (bind ?m _) _ = _ -> _ => destruct m as [processed|e|]
  end; cbn [bind try_except];
    [|intros [= <-]; apply upload_error_response_well_formed|discriminate].
  destruct (sc_upload_file s3 processed _ _ _) as [u|e|]; cbn [bind try_except];
    [|intros [= <-]; apply upload_error_response_well_formed|discriminate].
  destruct (u_success u);
    [|cbn [try_except]; intros [= <-]; apply upload_error_response_well_formed].
  destruct (u_url u); cbn [getitem lift bind try_except];
    [|intros [= <-]; apply upload_error_response_well_formed].
  destruct (u_key u); cbn [getitem lift bind try_except];
    [|intros [= <-]; apply upload_error_response_well_formed].
  destruct (u_bucket u); cbn [getitem lift bind try_except];
    [|intros [= <-]; apply upload_error_response_well_formed].
  destruct (u_size u); cbn [getitem lift bind try_except];
    [|intros [= <-]; apply upload_error_response_well_formed].
  destruct (u_content_type u); cbn [getitem lift bind try_except];
    [|intros [= <-]; apply upload_error_response_well_formed].
  destruct (u_metadata u); cbn [getitem lift bind try_except];
    [|intros [= <-]; apply upload_error_response_well_formed].
  intros [= <-]. split; [|discriminate]. intros _. cbn.
  repeat split; try discriminate; reflexivity.
Qed.

Lemma single_upload_answers :
  (forall s3 p k m c, s3_client = Some s3 -> sc_upload_file s3 p k m c <> Hangs) ->
  (forall ip, image_processor = Some ip ->
     ip_optimize_image ip file_path quality <> Hangs) ->
  exists r, single_upload = Returns r.
Proof.
  intros Hs3 Hip. unfold upload_image_to_s3.
  destruct s3_client as [s3|]; cbn [require bind try_except]; [|eexists; reflexivity].
  destruct image_processor as [ip|]; cbn [require bind try_except];
    [|eexists; reflexivity].
  destruct (negb (exists_ file_path)); [eexists; reflexivity|].
  destruct (negb (ip_is_supported_format ip file_path)); [eexists; reflexivity|].
  assert (Hproc : exists processed,
             (if optimize
              then try_except (ip_optimize_image ip file_path quality)
                     (fun _ => Returns file_path)
              else Returns file_path) = Returns processed).
  { destruct optimize; [|eexists; reflexivity].
    pose proof (Hip ip eq_refl) as H.
    destruct (ip_optimize_image ip file_path quality); [| |contradiction];
      eexists; reflexivity. }
  destruct Hproc as [processed ->]. cbn [bind].
  match goal with
  | |- exists r, try_except (bind ?m _) _ = _ =>
      pose proof (Hs3 s3 _ _ _ _ eq_refl : m <> Hangs) as Hu; destruct m as [u|e|]
  end; cbn [bind try_except]; [|eexists; reflexivity|contradiction].
  destruct (u_success u); [|eexists; reflexivity].
  destruct (u_url u); cbn [getitem lift bind try_except]; [|eexists; reflexivity].
  destruct (u_key u); cbn [getitem lift bind try_except]; [|eexists; reflexivity].
  destruct (u_bucket u); cbn [getitem lift bind try_except]; [|eexists; reflexivity].
  destruct (u_size u); cbn [getitem lift bind try_except]; [|eexists; reflexivity].
  destruct (u_content_type u); cbn [getitem lift bind try_except];
    [|eexists; reflexivity].
  destruct (u_metadata u); cbn [getitem lift bind try_except]; eexists; reflexivity.
Qed.

(** X10. Whenever the storage client and the optimizer answer,
    [upload_image_to_s3] returns a response and raises nothing; the
    response is either a success with URL, key, bucket, size, content type,
    metadata and processing time and no error, or a failure with an error
    message and none of these fields. *)
Theorem single_upload_response_shape :
  (forall s3 p k m c, s3_client = Some s3 -> sc_upload_file s3 p k m c <> Hangs) ->
  (forall ip, image_processor = Some ip ->
     ip_optimize_image ip file_path quality <> Hangs) ->
  exists r,
    upload_image_to_s3 s3_client image_processor exists_ elapsed file_path bucket key
      optimize quality folder_prefix = Returns r /\
    (r_success r = true ->
     r_url r <> None /\ r_key r <> None /\ r_bucket r <> None /\ r_size r <> None /\
     r_content_type r <> None /\ r_metadata r <> None /\ r_error r = None /\
     r_processing_time r = Some elapsed) /\
    (r_success r = false ->
     r_error r <> None /\ r_url r = None /\ r_key r = None /\ r_bucket r = None /\
     r_size r = None /\ r_content_type r = None /\ r_metadata r = None).
Proof.
  intros Hs3 Hip. destruct (single_upload_answers Hs3 Hip) as [r Hr].
  exists r. split; [exact Hr|]. exact (single_upload_well_formed r Hr).
Qed.

End SingleUpload.

Lemma single_upload_response_shape_witness :
  exists r,
    served_upload sample_world sample_s3 (Qmake 1 1) "reject.png" "test-bucket" None
      true 80 (Some "img") = Returns r /\
    (r_success r = false -> r_error r <> None /\ r_url r = None).
Proof.
  destruct (single_upload_response_shape (Some (real_s3_client sample_world sample_s3))
              (Some (real_image_processor sample_world)) (w_exists sample_world)
              (Qmake 1 1) "reject.png" "test-bucket" None true 80 (Some "img"))
    as (r & Hr & _ & Hfail).
  - intros s3 p k m c [= <-]. cbn [real_s3_client sc_upload_file].
    match goal with |- lift ?x <> _ => destruct x end; discriminate.
  - intros ip [= <-]. cbn [real_image_processor ip_optimize_image].
    match goal with |- lift ?x <> _ => destruct x end; discriminate.
  - exists r. split; [exact Hr|]. intros H. destruct (Hfail H) as (He & Hu & _).
    split; assumption.
Defined.

(** X11. When the optimizer fails on an existing, supported file, the
    single upload goes on with the original file: the storage client is
    asked to upload [file_path] itself, and its success is the answer. *)
Theorem single_upload_falls_back_to_original :
  forall (s3 : S3ClientObj) (ip : ImageProcessorObj) (exists_ : string -> bool)
         (elapsed : Q) (file_path bucket : string) (key : option string) (quality : Z)
         (folder_prefix : option string) (fault : exn)
         (url k b ct : string) (sz : Z) (md : dict) (err : option string),
    let used_key :=
      match key with
      | Some given => if nonempty given then given
                      else sc_generate_key s3 0%nat file_path folder_prefix
      | None => sc_generate_key s3 0%nat file_path folder_prefix
      end in
    exists_ file_path = true ->
    ip_is_supported_format ip file_path = true ->
    ip_optimize_image ip file_path quality = Raises fault ->
    sc_upload_file s3 file_path used_key
      (Some [("original_file", VStr file_path); ("optimized", VBool true);
             ("quality", VStr (str_int quality))]) None
    = Returns (mk_upload true (Some url) (Some k) (Some b) (Some sz) (Some ct)
                 (Some md) err) ->
    upload_image_to_s3 (Some s3) (Some ip) exists_ elapsed file_path bucket key true
      quality folder_prefix
    = Returns (mk_upload_response true (Some url) (Some k) (Some b) (Some sz) (Some ct)
                 (Some md) None (Some elapsed)).
Proof.
  intros s3 ip ex el fp b key q folder fault url k bk ct sz md err used_key
         Hex Hsup Hopt Hup.
  unfold upload_image_to_s3. cbn [require bind].
  rewrite Hex, Hsup. cbn [negb]. rewrite Hopt. cbn [try_except bind].
  fold used_key. rewrite Hup. reflexivity.
Qed.

Lemma single_upload_falls_back_to_original_witness :
  exists r,
    served_upload sample_world sample_s3 (Qmake 1 1) "broken.png" "test-bucket"
      (Some "k/broken.png") true 80 None = Returns r /\
    r_success r = true /\
    r_url r = Some "https://test-bucket.s3.us-east-1.amazonaws.com/k/broken.png".
Proof.
  eexists. split.
  - unfold served_upload.
    eapply (single_upload_falls_back_to_original
              (real_s3_client sample_world sample_s3)
              (real_image_processor sample_world) (w_exists sample_world) (Qmake 1 1)
              "broken.png" "test-bucket" (Some "k/broken.png") 80 None
              (Exception "cannot identify image file")); vm_compute; reflexivity.
  - split; reflexivity.
Defined.

(** ** The batch orchestrator: limits without a permit *)

(** X12. [batch_upload_images] passes [max_concurrent] on unchecked.
    Served with at least one valid file, a negative limit ends in the
    response of the fault handler, with the semaphore's error as the only
    error and nothing uploaded, and a limit of zero never answers. *)
Theorem batch_without_permits :
  forall (w : World) (self : S3Client) (elapsed : Q) (file_paths : list string)
         (bucket : string) (folder_prefix : option string) (optimize : bool)
         (quality max_concurrent : Z),
    fst (filter_valid_files (w_exists w) (real_image_processor w) file_paths) <> [] ->
    (max_concurrent < 0 ->
     served_batch_upload w self elapsed file_paths bucket folder_prefix optimize quality
       max_concurrent
     = Returns (mk_batch_response false []
                  ["Unexpected error during batch upload: Semaphore initial value must be >= 0"]
                  (zlength file_paths) 0 (zlength file_paths) (Some elapsed) None [])) /\
    (max_concurrent = 0 ->
     served_batch_upload w self elapsed file_paths bucket folder_prefix optimize quality
       max_concurrent = Hangs).
Proof.
  intros w self el fps b fp o q mc Hvalid.
  unfold served_batch_upload, batch_upload_images. cbn [require bind].
  destruct (filter_valid_files (w_exists w) (real_image_processor w) fps) as [v errs].
  cbn [fst] in Hvalid. destruct v as [|v0 vs]; [contradiction|]. cbn [is_nil].
  assert (Htasks : forall opt, exists t ts,
            prepare_upload_tasks (real_s3_client w self) fps fp opt q 0 (v0 :: vs) = t :: ts).
  { intros opt. cbn [prepare_upload_tasks]. eexists. eexists. reflexivity. }
  split.
  - intros Hneg.
    assert (Hup : forall tasks,
              sc_upload_multiple (real_s3_client w self) tasks mc
              = Raises (ValueError "Semaphore initial value must be >= 0")).
    { intros tasks. cbn [real_s3_client sc_upload_multiple].
      unfold upload_multiple, Semaphore. apply Z.ltb_lt in Hneg. rewrite Hneg. reflexivity. }
    assert (Hphase : exists errs',
              optimize_phase (real_image_processor w) (v0 :: vs) errs o q mc
              = Returns (v0 :: vs, errs', None)).
    { unfold optimize_phase. destruct o; [|eexists; reflexivity].
      cbn [real_image_processor ip_batch_optimize].
      unfold batch_optimize, Semaphore. apply Z.ltb_lt in Hneg. rewrite Hneg.
      cbn [lift bind]. eexists. reflexivity. }
    destruct Hphase as [errs' ->]. cbn [bind]. unfold upload_phase. cbn [is_nil].
    rewrite Hup. reflexivity.
  - intros ->. unfold optimize_phase. destruct o.
    + cbn [real_image_processor ip_batch_optimize]. reflexivity.
    + cbn [bind]. unfold upload_phase. cbn [is_nil].
      destruct (Htasks false) as (t & ts & ->). reflexivity.
Qed.

Lemma batch_without_permits_witness :
  served_batch_upload sample_world sample_s3 (Qmake 1 1) ["a.png"] "test-bucket" None
    true 80 0 = Hangs /\
  exists r,
    served_batch_upload sample_world sample_s3 (Qmake 1 1) ["a.png"] "test-bucket" None
      true 80 (-1) = Returns r /\ success r = false /\ urls r = [].
Proof.
  destruct (batch_without_permits sample_world sample_s3 (Qmake 1 1) ["a.png"]
              "test-bucket" None true 80 0) as [_ Hzero].
  { vm_compute. discriminate. }
  destruct (batch_without_permits sample_world sample_s3 (Qmake 1 1) ["a.png"]
              "test-bucket" None true 80 (-1)) as [Hneg _].
  { vm_compute. discriminate. }
  split; [apply Hzero; reflexivity|].
  eexists. split; [apply Hneg; lia|]. split; reflexivity.
Defined.

(** ** Listing buckets *)

(** X13. [list_s3_buckets] answers whenever the client does, and raises
    nothing; the count is the number of buckets listed, a failure lists no
    bucket and has an error, a success has none.  Since
    [S3Client.list_buckets] turns every fault of the storage into an empty
    list, such a fault is reported as a success with no buckets. *)
Theorem list_s3_buckets_shape :
  (forall s3_client : option (outcome (list string)),
     (forall m, s3_client = Some m -> m <> Hangs) ->
     exists r,
       list_s3_buckets s3_client = Returns r /\
       l_count r = zlength (l_buckets r) /\
       (l_success r = true -> l_error r = None) /\
       (l_success r = false -> l_buckets r = [] /\ l_error r <> None)) /\
  (forall sdk_answer : result (list string),
     list_s3_buckets (Some (Returns (list_buckets sdk_answer)))
     = Returns (mk_bucket_list true (list_buckets sdk_answer)
                  (zlength (list_buckets sdk_answer)) None)) /\
  (forall fault : exn, list_buckets (inl fault) = []).
Proof.
  split; [|split; reflexivity].
  intros c Hc. unfold list_s3_buckets. destruct c as [m|].
  - pose proof (Hc m eq_refl) as Hm. destruct m as [bs|e|]; [| |contradiction].
    + eexists. split; [reflexivity|]. cbn. repeat split; try discriminate; reflexivity.
    + eexists. split; [reflexivity|]. cbn. repeat split; try discriminate; reflexivity.
  - eexists. split; [reflexivity|]. cbn. repeat split; try discriminate; reflexivity.
Qed.

Lemma list_s3_buckets_shape_witness :
  exists r,
    list_s3_buckets (Some (Raises (Exception "AWS error"))) = Returns r /\
    l_success r = false /\ l_buckets r = [] /\ l_count r = 0.
Proof.
  destruct (proj1 list_s3_buckets_shape (Some (Raises (Exception "AWS error"))))
    as (r & Hr & Hcount & _ & Hfail).
  - intros m [= <-]. discriminate.
  - exists r. split; [exact Hr|].
    assert (Hs : l_success r = false) by (cbn in Hr; injection Hr as <-; reflexivity).
    destruct (Hfail Hs) as [Hb _]. rewrite Hb in Hcount.
    split; [exact Hs|]. split; [exact Hb|exact Hcount].
Defined.

(** ** Optimizing one image *)



(** ** Validated requests *)

Lemma strip_idempotent (s : string) : strip (strip s) = strip s.
Proof.
  unfold strip.
  rewrite (rstrip_by_lstrip_by isspace (rstrip_by isspace s))
    by apply rstrip_by_idempotent.
  apply lstrip_by_idempotent.
Qed.

Lemma app_nil_inv {A : Type} (a b : list A) : is_nil (app a b) = true -> a = [] /\ b = [].
Proof. destruct a; [destruct b; [auto|discriminate]|discriminate]. Qed.

Lemma check_range_nil (lo hi v : Z) : check_range lo hi v = [] -> lo <= v <= hi.
Proof.
  unfold check_range. destruct (v <? lo) eqn:E1; [discriminate|].
  destruct (hi <? v) eqn:E2; [discriminate|]. intros _.
  apply Z.ltb_ge in E1. apply Z.ltb_ge in E2. lia.
Qed.

Lemma validate_bucket_name_nil (v : string) :
  value_error (validate_bucket_name v) = [] -> nonempty (strip v) = true.
Proof.
  unfold validate_bucket_name.
  destruct (nonempty (strip v)); [reflexivity|]. rewrite orb_true_r. discriminate.
Qed.

Lemma validate_file_paths_nil (v : list string) :
  v <> [] -> value_error (validate_file_paths v) = [] ->
  forallb (fun path => nonempty path && nonempty (strip path)) v = true.
Proof.
  unfold validate_file_paths. destruct v as [|p ps]; [contradiction|]. cbn [is_nil].
  intros _. destruct (forallb _ (p :: ps)); [reflexivity|discriminate].
Qed.

Lemma validate_file_paths_accepts (v : list string) :
  v <> [] ->
  forallb (fun path => nonempty path && nonempty (strip path)) v = true ->
  validate_file_paths v = inr (map strip v).
Proof.
  unfold validate_file_paths. destruct v as [|p ps]; [contradiction|]. cbn [is_nil].
  intros _ ->. reflexivity.
Qed.

(** X15. A batch request that the model accepts has at least one file
    path, paths and bucket name that are non-empty and carry no whitespace
    at either end, a quality in 1-100 and a concurrency limit in 1-10;
    validating it again returns it unchanged, and the server answers it. *)
Theorem validated_batch_request_is_served :
  forall (raw request : BatchUploadRequest) (w : World) (self : S3Client) (elapsed : Q),
    new_BatchUploadRequest raw = inr request ->
    b_file_paths request <> [] /\
    Forall (fun p => nonempty p = true /\ strip p = p) (b_file_paths request) /\
    nonempty (b_bucket_name request) = true /\
    strip (b_bucket_name request) = b_bucket_name request /\
    1 <= b_quality request <= 100 /\
    1 <= b_max_concurrent request <= 10 /\
    new_BatchUploadRequest request = inr request /\
    exists r,
      served_batch_upload w self elapsed (b_file_paths request) (b_bucket_name request)
        (b_folder_prefix request) (b_optimize request) (b_quality request)
        (b_max_concurrent request) = Returns r.
Proof.
  intros raw request w self el H. unfold new_BatchUploadRequest in H.
  destruct (is_nil (BatchUploadRequest_problems raw)) eqn:Hnil; [|discriminate].
  injection H as <-. cbn [b_file_paths b_bucket_name b_folder_prefix b_optimize
                           b_quality b_max_concurrent].
  unfold BatchUploadRequest_problems in Hnil.
  apply app_nil_inv in Hnil. destruct Hnil as [Hpaths Hrest].
  apply app_eq_nil in Hrest. destruct Hrest as [Hb Hrest].
  apply app_eq_nil in Hrest. destruct Hrest as [Hq Hm].
  apply validate_bucket_name_nil in Hb.
  pose proof (check_range_nil _ _ _ Hq) as Hq'.
  pose proof (check_range_nil _ _ _ Hm) as Hm'.
  assert (Hne : b_file_paths raw <> []).
  { intros E. rewrite E in Hpaths. discriminate. }
  assert (Hall : forallb (fun path => nonempty path && nonempty (strip path))
                   (b_file_paths raw) = true).
  { apply validate_file_paths_nil; [exact Hne|].
    destruct (b_file_paths raw); [contradiction|exact Hpaths]. }
  assert (Hne' : map strip (b_file_paths raw) <> []).
  { destruct (b_file_paths raw); [contradiction|discriminate]. }
  assert (Hall' : forallb (fun path => nonempty path && nonempty (strip path))
                    (map strip (b_file_paths raw)) = true).
  { apply forallb_forall. intros p Hp. apply in_map_iff in Hp.
    destruct Hp as (p0 & <- & Hin). rewrite forallb_forall in Hall.
    specialize (Hall p0 Hin). apply andb_true_iff in Hall. destruct Hall as [_ Hs].
    rewrite strip_idempotent, Hs. reflexivity. }
  split; [exact Hne'|]. split.
  { apply Forall_forall. intros p Hp. apply in_map_iff in Hp.
    destruct Hp as (p0 & <- & Hin). rewrite forallb_forall in Hall.
    specialize (Hall p0 Hin). apply andb_true_iff in Hall.
    split; [exact (proj2 Hall)|apply strip_idempotent]. }
  split; [exact Hb|]. split; [apply strip_idempotent|].
  split; [exact Hq'|]. split; [exact Hm'|]. split.
  - unfold new_BatchUploadRequest, BatchUploadRequest_problems.
    cbn [b_file_paths b_bucket_name b_folder_prefix b_optimize b_quality b_max_concurrent].
    rewrite (validate_file_paths_accepts _ Hne' Hall').
    unfold validate_bucket_name.
    rewrite (not_blank_accepted (strip (b_bucket_name raw)))
      by (rewrite strip_idempotent; exact Hb).
    rewrite !in_range_accepted by assumption.
    replace (check_min_length (map strip (b_file_paths raw))) with (@nil string)
      by (destruct (b_file_paths raw); [contradiction|reflexivity]).
    cbn [is_nil value_error app].
    rewrite strip_idempotent, map_map.
    f_equal. f_equal. apply map_ext. intros p. apply strip_idempotent.
  - unfold served_batch_upload. apply batch_answers;
      apply (served_runners_answer w self (b_quality raw) (b_max_concurrent raw)); lia.
Qed.

Lemma validated_batch_request_is_served_witness :
  let request := mk_batch_request ["a.png"; "missing.png"] "test-bucket" None false 80 5 in
  new_BatchUploadRequest (mk_batch_request [" a.png"; "missing.png "] " test-bucket" None
                            false 80 5) = inr request /\
  new_BatchUploadRequest request = inr request /\
  exists r,
    served_batch_upload sample_world sample_s3 (Qmake 1 1) ["a.png"; "missing.png"]
      "test-bucket" None false 80 5 = Returns r.
Proof.
  intros request.
  assert (H : new_BatchUploadRequest
                (mk_batch_request [" a.png"; "missing.png "] " test-bucket" None
                   false 80 5) = inr request) by (vm_compute; reflexivity).
  destruct (validated_batch_request_is_served _ request sample_world sample_s3
              (Qmake 1 1) H) as (_ & _ & _ & _ & _ & _ & Hagain & Hserved).
  split; [exact H|]. split; [exact Hagain|exact Hserved].
Defined.

(** ** The batch orchestrator: a batch without faults *)

Lemma filter_valid_files_all_valid (exists_ : string -> bool) (ip : ImageProcessorObj)
    (file_paths : list string) :
  Forall (fun p => exists_ p = true /\ ip_is_supported_format ip p = true) file_paths ->
  filter_valid_files exists_ ip file_paths = (file_paths, []).
Proof.
  induction 1 as [|p rest [Hex Hsup] Hrest IH]; [reflexivity|].
  cbn [filter_valid_files]. rewrite IH, Hex, Hsup. reflexivity.
Qed.

Lemma prepare_upload_tasks_in (s3 : S3ClientObj) (file_paths : list string)
    (folder_prefix : option string) (optimize : bool) (quality : Z) :
  forall (processed_files : list string) (start : nat) (task : FileInfo),
    In task (prepare_upload_tasks s3 file_paths folder_prefix optimize quality start
               processed_files) ->
    exists p k md,
      task = mk_file_info (Some p) (Some k) (Some md) None /\ In p processed_files.
Proof.
  induction processed_files as [|p rest IH]; intros start task Hin; [contradiction|].
  cbn [prepare_upload_tasks In] in Hin. destruct Hin as [<-|Hin].
  - eexists. eexists. eexists. split; [reflexivity|]. left. reflexivity.
  - destruct (IH _ _ Hin) as (p' & k & md & -> & Hp).
    exists p', k, md. split; [reflexivity|]. right. exact Hp.
Qed.

Lemma skipn_nth_error {A : Type} (l : list A) :
  forall (i : nat) (x : A), nth_error l i = Some x -> skipn i l = x :: skipn (S i) l.
Proof.
  induction l as [|a r IH]; intros i x H; [destruct i; discriminate|].
  destruct i as [|i]; [injection H as <-; reflexivity|].
  cbn [nth_error] in H. cbn [skipn]. exact (IH i x H).
Qed.

(** The file a detail entry names is the input at the entry's position. *)
Lemma process_results_paths (file_paths processed_files : list string) :
  forall (uploaded : list UploadResult) (i : nat) (acc t : Tally),
    (i + List.length uploaded <= List.length file_paths)%nat ->
    process_results file_paths processed_files i uploaded acc = inr t ->
    map d_file_path (t_detailed t)
    = app (map d_file_path (t_detailed acc))
        (firstn (List.length uploaded) (skipn i file_paths)).
Proof.
  induction uploaded as [|u rest IH]; intros i acc t Hlen H; cbn [process_results] in H.
  - injection H as <-. cbn [List.length firstn]. rewrite app_nil_r. reflexivity.
  - cbn [List.length] in Hlen.
    assert (Hi : (i <? List.length file_paths)%nat = true) by (apply Nat.ltb_lt; lia).
    rewrite Hi in H.
    destruct (nth_error file_paths i) as [fp|] eqn:Hnth;
      [|apply nth_error_None in Hnth; lia].
    assert (Hidx : index file_paths i = inr fp) by (unfold index; rewrite Hnth; reflexivity).
    rewrite Hidx in H.
    assert (Hstep : forall acc',
              t_detailed acc' = append (t_detailed acc)
                                  (mk_detail fp (u_success u) (u_url u) (u_error u) (u_key u)) ->
              process_results file_paths processed_files (S i) rest acc' = inr t ->
              map d_file_path (t_detailed t)
              = app (map d_file_path (t_detailed acc))
                  (firstn (List.length (u :: rest)) (skipn i file_paths))).
    { intros acc' Hacc Hrun. rewrite (IH (S i) acc' t ltac:(lia) Hrun), Hacc.
      unfold append. rewrite map_app, <- app_assoc. cbn [map d_file_path app List.length].
      rewrite (skipn_nth_error file_paths i fp Hnth). reflexivity. }
    destruct (u_success u).
    + destruct (getitem "url" (u_url u)) as [e|url]; [discriminate|].
      eapply Hstep; [|exact H]. reflexivity.
    + eapply Hstep; [|exact H]. reflexivity.
Qed.

(** X16. Served with a positive limit and without optimization, a batch
    of files that all exist, have a supported format and a readable size,
    on a storage that accepts every transfer, succeeds as a whole: every
    file is uploaded, nothing fails, there is no error, and the detail
    entries name the input files in input order. *)
Theorem batch_without_faults_uploads_everything :
  forall (w : World) (self : S3Client) (elapsed : Q) (file_paths : list string)
         (bucket : string) (folder_prefix : option string) (quality max_concurrent : Z),
    1 <= max_concurrent ->
    file_paths <> [] ->
    Forall (fun p => w_exists w p = true /\ is_supported_format p = true /\
                     exists size, w_getsize w p = inr size) file_paths ->
    (forall file b k md ct acl, w_transfer w file b k md ct acl = inr tt) ->
    exists r,
      served_batch_upload w self elapsed file_paths bucket folder_prefix false quality
        max_concurrent = Returns r /\
      success r = true /\
      successful_uploads r = zlength file_paths /\
      failed_uploads r = 0 /\
      errors r = [] /\
      List.length (urls r) = List.length file_paths /\
      map d_file_path (results r) = file_paths /\
      Forall (fun d => d_success d = true) (results r).
Proof.
  intros w self el fps b fp q mc Hmc Hne Hall Htransfer.
  unfold served_batch_upload, batch_upload_images. cbn [require bind].
  rewrite (filter_valid_files_all_valid (w_exists w) (real_image_processor w) fps).
  2:{ apply Forall_forall. intros p Hp. rewrite Forall_forall in Hall.
      destruct (Hall p Hp) as (H1 & H2 & _). split; assumption. }
  replace (is_nil fps) with false by (destruct fps; [contradiction|reflexivity]).
  cbn [optimize_phase bind]. unfold upload_phase.
  replace (is_nil fps) with false by (destruct fps; [contradiction|reflexivity]).
  set (tasks := prepare_upload_tasks (real_s3_client w self) fps fp false q 0 fps).
  cbn [real_s3_client sc_upload_multiple].
  rewrite upload_multiple_settled by exact Hmc.
  match goal with
  | |- exists r, try_except (bind (Returns ?us) _) _ = _ /\ _ => set (uploaded := us)
  end.
  cbn [bind].
  assert (Hlen : List.length uploaded = List.length fps).
  { unfold uploaded. rewrite length_map. apply length_prepare_upload_tasks. }
  assert (Hok : Forall (fun u => u_success u = true /\ u_url u <> None) uploaded).
  { apply Forall_forall. intros u Hu. unfold uploaded in Hu. apply in_map_iff in Hu.
    destruct Hu as (task & <- & Hin).
    destruct (prepare_upload_tasks_in _ _ _ _ _ _ _ _ Hin) as (p & k & md & -> & Hp).
    rewrite Forall_forall in Hall. destruct (Hall p Hp) as (_ & _ & size & Hsize).
    unfold upload_single. cbn [fi_file_path fi_key fi_metadata fi_content_type getitem].
    unfold upload_file. rewrite Hsize, Htransfer. cbn. split; [reflexivity|discriminate]. }
  destruct (process_results_all_succeed fps fps uploaded 0 (mk_tally [] 0 [] []) Hok
              ltac:(simpl; lia)) as (t & Ht & Hsucc & Herr).
  rewrite Ht. cbn [lift bind try_except]. eexists. split; [reflexivity|].
  cbn [success urls errors successful_uploads failed_uploads results].
  cbn [t_successful t_errors] in Hsucc, Herr.
  pose proof (process_results_mirror fps fps uploaded 0 _ t Ht) as (Hmirror & Hurls & _).
  pose proof (process_results_paths fps fps uploaded 0 _ t ltac:(simpl; lia) Ht) as Hpaths.
  cbn [t_urls t_detailed map app] in Hmirror, Hurls, Hpaths.
  assert (Hz : zlength uploaded = zlength fps) by (unfold zlength; rewrite Hlen; reflexivity).
  assert (Hfilter : filter u_success uploaded = uploaded).
  { clear - Hok. induction Hok as [|u r [Hu _] _ IH]; [reflexivity|].
    cbn [filter]. rewrite Hu, IH. reflexivity. }
  rewrite Hsucc, Hz. split.
  { apply Z.ltb_lt. unfold zlength. destruct fps; [contradiction|].
    cbn [List.length]. lia. }
  split; [lia|]. split; [lia|]. split; [exact Herr|]. split.
  { rewrite Hurls, Hfilter, length_map. exact Hlen. }
  split.
  { rewrite Hpaths, Hlen. cbn [skipn]. apply firstn_all. }
  apply Forall_forall. intros d Hd.
  assert (Hin : In (d_success d, d_url d, d_error d, d_key d)
                  (map (fun d => (d_success d, d_url d, d_error d, d_key d)) (t_detailed t)))
    by exact (in_map (fun d0 => (d_success d0, d_url d0, d_error d0, d_key d0))
                (t_detailed t) d Hd).
  rewrite Hmirror in Hin. apply in_map_iff in Hin. destruct Hin as (u & Heq & Hu).
  rewrite Forall_forall in Hok. destruct (Hok u Hu) as [Hs _].
  injection Heq as Hsd _ _ _. rewrite <- Hsd. exact Hs.
Qed.

Lemma batch_without_faults_uploads_everything_witness :
  exists r,
    served_batch_upload sample_world sample_s3 (Qmake 1 1) ["a.png"; "b.jpg"; "c.webp"]
      "test-bucket" (Some "batch-test") false 80 2 = Returns r /\
    success r = true /\ successful_uploads r = 3 /\ failed_uploads r = 0 /\
    errors r = [] /\ List.length (urls r) = 3%nat /\
    map d_file_path (results r) = ["a.png"; "b.jpg"; "c.webp"].
Proof.
  pose (w := mk_world (w_exists sample_world) (w_getsize sample_world)
               (w_with_suffix sample_world) (w_process_image sample_world)
               (fun _ _ _ _ _ _ => inr tt) (w_key_clock sample_world)
               (w_upload_clock sample_world)).
  destruct (batch_without_faults_uploads_everything w sample_s3 (Qmake 1 1)
              ["a.png"; "b.jpg"; "c.webp"] "test-bucket" (Some "batch-test") 80 2)
    as (r & Hr & H1 & H2 & H3 & H4 & H5 & H6 & _).
  - lia.
  - discriminate.
  - repeat constructor; try (vm_compute; reflexivity); eexists; vm_compute; reflexivity.
  - reflexivity.
  - exists r. split; [|repeat split; assumption].
    rewrite <- Hr. vm_compute. reflexivity.
Defined.

(** ** Keys, folders and extensions *)

Lemma split_on_no_separator (sep : ascii) (s : string) :
  forall x, In x (split_on sep s) -> char_in sep x = false.
Proof.
  induction s as [|c r IH]; intros x Hin.
  - destruct Hin as [<-|[]]. reflexivity.
  - cbn [split_on] in Hin. destruct (Ascii.eqb c sep) eqn:E.
    + destruct Hin as [<-|Hin]; [reflexivity|apply IH; exact Hin].
    + destruct (split_on sep r) as [|h t] eqn:Es.
      * destruct Hin as [<-|[]]. cbn [char_in]. rewrite Ascii.eqb_sym, E. reflexivity.
      * destruct Hin as [<-|Hin].
        -- cbn [char_in]. rewrite Ascii.eqb_sym, E. apply IH. left. reflexivity.
        -- apply IH. right. exact Hin.
Qed.

Lemma last_default_or_in {A : Type} (l : list A) (d : A) : last l d = d \/ In (last l d) l.
Proof.
  induction l as [|a r IH]; [left; reflexivity|].
  destruct r as [|b t]; [right; left; reflexivity|].
  destruct IH as [IH|IH].
  - change (last (a :: b :: t) d) with (last (b :: t) d). rewrite IH. left. reflexivity.
  - right. right. exact IH.
Qed.

Lemma Path_name_no_slash (p : string) : char_in "/" (Path_name p) = false.
Proof.
  unfold Path_name. destruct (last_default_or_in (path_tail p) EmptyString) as [->|Hin].
  - reflexivity.
  - unfold path_tail in Hin. apply filter_In in Hin.
    exact (split_on_no_separator "/" p _ (proj1 Hin)).
Qed.

Lemma char_in_substring (c : ascii) (s : string) :
  char_in c s = false -> forall n m, char_in c (substring n m s) = false.
Proof.
  induction s as [|a r IH]; intros H n m.
  - destruct n, m; reflexivity.
  - cbn [char_in] in H. apply orb_false_iff in H. destruct H as [Ha Hr].
    destruct n as [|n]; [destruct m as [|m]|]; cbn [substring]; [reflexivity| |].
    + cbn [char_in]. rewrite Ha. exact (IH Hr 0%nat m).
    + exact (IH Hr n m).
Qed.

Lemma char_in_sfilter (f : ascii -> bool) (c : ascii) (s : string) :
  f c = false -> char_in c (sfilter f s) = false.
Proof.
  intros Hc. induction s as [|a r IH]; [reflexivity|]. cbn [sfilter].
  destruct (f a) eqn:Ea; [|exact IH]. cbn [char_in]. rewrite IH, orb_false_r.
  destruct (Ascii.eqb c a) eqn:E; [|reflexivity].
  apply Ascii.eqb_eq in E. subst a. rewrite Hc in Ea. discriminate.
Qed.

Lemma digit_no_slash (d : Z) : char_in "/" (digit d) = false.
Proof.
  unfold digit. assert (H : (Z.to_nat (d mod 10) < 10)%nat).
  { pose proof (Z.mod_pos_bound d 10 ltac:(lia)). lia. }
  destruct (Z.to_nat (d mod 10)) as [|k]; [reflexivity|].
  do 9 (destruct k as [|k]; [reflexivity|]). lia.
Qed.

Lemma strftime_no_slash (t : datetime) : char_in "/" (strftime_key t) = false.
Proof.
  unfold strftime_key, pad4, pad2.
  repeat (rewrite char_in_sappend || rewrite digit_no_slash). reflexivity.
Qed.

Lemma splitext_no_slash (name : string) :
  char_in "/" name = false ->
  char_in "/" (fst (splitext name)) = false /\ char_in "/" (snd (splitext name)) = false.
Proof.
  intros H. unfold splitext.
  destruct (rfind "/" name <? rfind "." name); [|split; [exact H|reflexivity]].
  destruct (sall _ _); [split; [exact H|reflexivity]|].
  cbn [fst snd]. unfold take, drop. split; apply char_in_substring; exact H.
Qed.

(** X17. The object key never reaches outside its folder: what follows
    the folder prefix (and its slash) contains no slash, and without a
    prefix the whole key contains none, whatever directories the source
    path had. *)
Theorem generate_key_stays_in_folder :
  forall (now : datetime) (file_path : string),
    char_in "/" (generate_key now file_path None) = false /\
    forall namespace, nonempty namespace = true ->
      exists object_name,
        generate_key now file_path (Some namespace)
        = rstrip_slash namespace ++ "/" ++ object_name /\
        char_in "/" object_name = false.
Proof.
  intros now fp.
  assert (Hbase : exists base,
            (forall folder, generate_key now fp folder
               = match folder with
                 | Some p => if nonempty p then rstrip_slash p ++ "/" ++ base else base
                 | None => base
                 end) /\
            char_in "/" base = false).
  { unfold generate_key.
    pose proof (splitext_no_slash (Path_name fp) (Path_name_no_slash fp)) as [_ Hext].
    destruct (splitext (Path_name fp)) as [name ext]. cbn [snd] in Hext.
    eexists. split; [intros folder; reflexivity|].
    rewrite safe_name_is_filter, !char_in_sappend, Hext, strftime_no_slash.
    rewrite char_in_sfilter by reflexivity. reflexivity. }
  destruct Hbase as (base & Hkey & Hno). split.
  - rewrite (Hkey None). exact Hno.
  - intros ns Hns. exists base. rewrite (Hkey (Some ns)), Hns. split; [reflexivity|exact Hno].
Qed.

Lemma generate_key_stays_in_folder_witness :
  exists object_name,
    generate_key (mk_datetime 2024 3 7 9 5 2 0) "/tmp/up/../secret/my.photo.png"
      (Some "img//")
    = rstrip_slash "img//" ++ "/" ++ object_name /\
    char_in "/" object_name = false.
Proof.
  apply (proj2 (generate_key_stays_in_folder (mk_datetime 2024 3 7 9 5 2 0)
                  "/tmp/up/../secret/my.photo.png")).
  reflexivity.
Defined.

Lemma rfind_absent (c : ascii) (s : string) : char_in c s = false -> rfind c s = -1.
Proof.
  induction s as [|a r IH]; [reflexivity|]. cbn [char_in rfind]. intros H.
  apply orb_false_iff in H. destruct H as [Ha Hr]. rewrite (IH Hr).
  cbn. rewrite Ascii.eqb_sym, Ha. reflexivity.
Qed.

Lemma sappend_assoc (a b c : string) : (a ++ b) ++ c = a ++ (b ++ c).
Proof. induction a as [|x r IH]; [reflexivity|]. cbn [String.append]. now rewrite IH. Qed.

Lemma substring_whole (s : string) : substring 0 (String.length s) s = s.
Proof. induction s as [|a r IH]; [reflexivity|]. cbn. now rewrite IH. Qed.

(** X18. For a file of a supported format whose name does not begin with
    a dot, the extension that [generate_key] copies is the suffix that
    [is_supported_format] tested, so the key ends with it.  A name that
    begins with dots, such as [..png], is accepted as an image and gets a
    key without extension. *)
Theorem generate_key_keeps_supported_extension :
  (forall (now : datetime) (file_path : string) (folder_prefix : option string),
     is_supported_format file_path = true ->
     String.prefix "." (Path_name file_path) = false ->
     snd (splitext (Path_name file_path)) = Path_suffix file_path /\
     exists stem, generate_key now file_path folder_prefix = stem ++ Path_suffix file_path) /\
  (is_supported_format "..png" = true /\
   generate_key (mk_datetime 2024 3 7 9 5 2 0) "..png" None = "png_20240307_090502").
Proof.
  split; [|split; vm_compute; reflexivity].
  intros now fp folder Hsup Hdot.
  assert (Hsuffix : Path_suffix fp <> EmptyString).
  { intros E. unfold is_supported_format in Hsup. rewrite E in Hsup. discriminate. }
  assert (Hext : snd (splitext (Path_name fp)) = Path_suffix fp).
  { unfold Path_suffix in *. set (name := Path_name fp) in *.
    set (i := rfind "." name) in *.
    destruct ((0 <? i) && (i <? len name - 1)) eqn:Hcond; [|contradiction].
    apply andb_true_iff in Hcond. destruct Hcond as [Hpos _]. apply Z.ltb_lt in Hpos.
    unfold splitext. fold i.
    rewrite (rfind_absent "/" name (Path_name_no_slash fp)).
    replace (-1 <? i) with true by (symmetry; apply Z.ltb_lt; lia).
    replace (drop (-1 + 1) (take i name)) with (take i name)
      by (unfold drop; cbn; rewrite Nat.sub_0_r; symmetry; apply substring_whole).
    destruct name as [|c r]; [cbn in i; lia|].
    assert (Hc : Ascii.eqb "." c = false).
    { cbn [String.prefix] in Hdot. destruct (ascii_dec "." c) as [E|N].
      - destruct r; discriminate.
      - apply Ascii.eqb_neq. exact N. }
    unfold take. destruct (Z.to_nat i) as [|n] eqn:En; [lia|].
    cbn [substring sall]. rewrite Hc. reflexivity. }
  split; [exact Hext|].
  unfold generate_key. destruct (splitext (Path_name fp)) as [name ext].
  cbn [snd] in Hext. subst ext.
  destruct folder as [p|]; [destruct (nonempty p)|];
    repeat rewrite <- sappend_assoc; eexists; reflexivity.
Qed.

Lemma generate_key_keeps_supported_extension_witness :
  exists stem,
    generate_key (mk_datetime 2024 3 7 9 5 2 0) "/tmp/my.photo.PNG" (Some "img")
    = stem ++ ".PNG".
Proof.
  destruct (proj1 generate_key_keeps_supported_extension (mk_datetime 2024 3 7 9 5 2 0)
              "/tmp/my.photo.PNG" (Some "img")) as [_ [stem Hstem]];
    [vm_compute; reflexivity|vm_compute; reflexivity|].
  exists stem. rewrite Hstem. vm_compute. reflexivity.
Defined.
